(** * Dataset tooling: URL resolution, YOLO conversion, split and fetch

    A shallow embedding of the Python scripts [url-yolo-converter.py],
    [url-fixer.py], [download.py] and [url-updater.py] and of the test
    download of [yolo-dataset-utils.py], the properties of their
    specification, and further properties of the scripts.

    Conventions of the embedding.
    - A Python [str] is a [string]; a character is a code point below 256.
    - A Python [int] is a [Z]; a Python [float] is an IEEE 754 binary64
      value, a [spec_float] with 53 bits of precision.
    - A call that may raise returns a [result]; [Raise e] stops the
      enclosing function unless the source catches [e], and what a run
      that raises leaves behind is not described.
    - A [dict] whose iteration order is observable is the list of its
      items in insertion order, with the operations of [PyDict]; a [dict]
      that is only looked up is a [gmap].
    - The [world] holds the files and directories, the URLs requested and
      the lines printed.  Paths are compared as written.  Of the lines
      printed only those of [download.py] are kept, where they report the
      outcome of a fetch; the progress messages of the other scripts are
      left out.
    - Writing a file succeeds.  Where the source tests a path with
      [os.path.exists] before it opens it, a directory at the path makes
      the opening raise.  What the network answers is a function of
      the requested URL; the YAML parser, the shuffle and the expansion of
      a format string are parameters, and so are the listing of a
      directory and the renaming of a file in [url-updater.py]. *)

From Stdlib Require Import ZArith Bool List Ascii String Lia Permutation.
From Stdlib Require Import DecimalString DecimalZ DecimalPos.
From Stdlib.Floats Require Import SpecFloat.
From stdpp Require Import base option list gmap strings fin_maps.

Open Scope string_scope.
Open Scope Z_scope.

(** ** Exceptions *)

Inductive exn : Type :=
| ValueError
| ZeroDivisionError
| OverflowError
| ReError
| FileNotFoundError
| IsADirectoryError
| YAMLError.

Inductive result (A : Type) : Type :=
| Ok (a : A)
| Raise (e : exn).

Arguments Ok {A} a.
Arguments Raise {A} e.

Definition bind {A B : Type} (k : A -> result B) (r : result A) : result B :=
  match r with
  | Ok a => k a
  | Raise e => Raise e
  end.

#[global] Instance result_ret : MRet result := fun A a => Ok a.
#[global] Instance result_bind : MBind result := fun A B k r => bind k r.

(** ** Python floats *)

Module PyFloat.

Definition prec : Z := 53.
Definition emax : Z := 1024.

Definition zero : spec_float := S754_zero false.
Definition one : spec_float := S754_finite false 4503599627370496 (-52).

Definition ltb (a b : spec_float) : bool := SFltb a b.
Definition leb (a b : spec_float) : bool := SFleb a b.

(** [float(n)] for an int [n]: the nearest binary64 value, ties to even;
    [OverflowError] when [n] is too large. *)
Definition of_int (n : Z) : result spec_float :=
  match binary_normalize prec emax n 0 false with
  | S754_infinity _ => Raise OverflowError
  | f => Ok f
  end.

(** [a / b] for two ints: the exact quotient rounded once to binary64. *)
Definition int_truediv (a b : Z) : result spec_float :=
  if b =? 0 then Raise ZeroDivisionError
  else if a =? 0 then Ok (S754_zero (b <? 0))
  else
    let s := xorb (a <? 0) (b <? 0) in
    let '(mz, ez, lz) := SFdiv_core_binary prec emax (Z.abs a) 0 (Z.abs b) 0 in
    match binary_round_aux prec emax s mz ez lz with
    | S754_infinity _ => Raise OverflowError
    | f => Ok f
    end.

Definition is_zero (f : spec_float) : bool :=
  match f with S754_zero _ => true | _ => false end.

(** [x / n] for a float [x] and an int [n]: [n] is converted first. *)
Definition div_int (x : spec_float) (n : Z) : result spec_float :=
  d ← of_int n;
  if is_zero d then Raise ZeroDivisionError else Ok (SFdiv prec emax x d).

(** [n * x] for an int [n] and a float [x]. *)
Definition int_mul (n : Z) (x : spec_float) : result spec_float :=
  d ← of_int n; Ok (SFmul prec emax d x).

(** [int(x)]: truncation toward zero. *)
Definition to_int (x : spec_float) : result Z :=
  match x with
  | S754_zero _ => Ok 0
  | S754_infinity _ => Raise OverflowError
  | S754_nan => Raise ValueError
  | S754_finite s m e =>
      let a := if 0 <=? e then Z.pos m * 2 ^ e else Z.pos m / 2 ^ (- e) in
      Ok (if s then - a else a)
  end.

(** [min(a, b)] and [max(a, b)] of the builtins: the first argument is
    kept unless the second compares strictly below (above) it. *)
Definition py_min (a b : spec_float) : spec_float := if ltb b a then b else a.
Definition py_max (a b : spec_float) : spec_float := if ltb a b then b else a.

Definition digit_char (d : Z) : ascii := ascii_of_nat (48 + Z.to_nat d).

(** The last [k] decimal digits of [n], zero padded. *)
Fixpoint fixed_digits (k : nat) (n : Z) : string :=
  match k with
  | O => ""
  | S k' => fixed_digits k' (n / 10) +:+ String (digit_char (n mod 10)) ""
  end.

Definition str_of_int (n : Z) : string := NilZero.string_of_int (Z.to_int n).

(** [num / den] rounded to the nearest integer, ties to even. *)
Definition div_half_even (num den : Z) : Z :=
  let q := num / den in
  let r := num mod den in
  match 2 * r ?= den with
  | Lt => q
  | Gt => q + 1
  | Eq => if Z.even q then q else q + 1
  end.

(** [x] times [10^6], rounded to an integer, for a positive finite [x]. *)
Definition micro (m : positive) (e : Z) : Z :=
  if 0 <=? e then Z.pos m * 2 ^ e * 1000000
  else div_half_even (Z.pos m * 1000000) (2 ^ (- e)).

Definition sign_prefix (s : bool) : string := if s then "-" else "".

(** [format(x, '.6f')]: the decimal expansion of the exact value of [x],
    correctly rounded to six places. *)
Definition format_6f (x : spec_float) : string :=
  match x with
  | S754_nan => "nan"
  | S754_infinity s => sign_prefix s +:+ "inf"
  | S754_zero s => sign_prefix s +:+ "0.000000"
  | S754_finite s m e =>
      let n := micro m e in
      sign_prefix s +:+ str_of_int (n / 1000000) +:+ "." +:+ fixed_digits 6 (n mod 1000000)
  end.

End PyFloat.

(** ** Python strings *)

Module Text.

Definition code (c : ascii) : N := N_of_ascii c.

(** [str.isspace] on one character; also the class [\s] of [re]. *)
Definition is_space (c : ascii) : bool :=
  let n := code c in
  ((9 <=? n) && (n <=? 13) || (28 <=? n) && (n <=? 32) || (n =? 133) || (n =? 160))%N.

(** The class [\d] of [re]. *)
Definition is_digit (c : ascii) : bool :=
  let n := code c in ((48 <=? n) && (n <=? 57))%N.

(** The class [[A-Za-z0-9]]. *)
Definition is_alnum (c : ascii) : bool :=
  let n := code c in
  (is_digit c || (65 <=? n) && (n <=? 90) || (97 <=? n) && (n <=? 122))%N.

Definition is_char (x c : ascii) : bool := Ascii.eqb c x.

Definition is_empty (s : string) : bool :=
  match s with "" => true | String _ _ => false end.

Fixpoint all_chars (p : ascii -> bool) (s : string) : bool :=
  match s with
  | "" => true
  | String c s' => p c && all_chars p s'
  end.

Definition first_char (s : string) : option ascii :=
  match s with "" => None | String c _ => Some c end.

Fixpoint last_char (s : string) : option ascii :=
  match s with
  | "" => None
  | String c "" => Some c
  | String _ s' => last_char s'
  end.

Definition startswith (c : ascii) (s : string) : bool :=
  match first_char s with Some d => Ascii.eqb d c | None => false end.

Definition endswith (c : ascii) (s : string) : bool :=
  match last_char s with Some d => Ascii.eqb d c | None => false end.

(** [s.lstrip(chars)], [s.rstrip(chars)] with the characters given as a
    class; [s.strip()] takes the white space off both ends. *)
Fixpoint lstrip_by (p : ascii -> bool) (s : string) : string :=
  match s with
  | "" => ""
  | String c s' => if p c then lstrip_by p s' else s
  end.

Fixpoint rstrip_by (p : ascii -> bool) (s : string) : string :=
  match s with
  | "" => ""
  | String c s' =>
      let r := rstrip_by p s' in
      if is_empty r && p c then "" else String c r
  end.

Definition strip (s : string) : string :=
  rstrip_by is_space (lstrip_by is_space s).

(** [s.split(sep)] for a one-character separator. *)
Fixpoint split_on (sep : ascii) (s : string) : list string :=
  match s with
  | "" => [""]
  | String c s' =>
      if Ascii.eqb c sep then "" :: split_on sep s'
      else match split_on sep s' with
           | h :: t => String c h :: t
           | [] => [String c ""]
           end
  end.

(** [s.rpartition(sep)] when [sep] occurs in [s]. *)
Fixpoint rpartition (sep : ascii) (s : string) : option (string * string) :=
  match s with
  | "" => None
  | String c s' =>
      match rpartition sep s' with
      | Some (h, t) => Some (String c h, t)
      | None => if Ascii.eqb c sep then Some ("", s') else None
      end
  end.

(** [s.rsplit(sep, 1)[0]]. *)
Definition rsplit1_head (sep : ascii) (s : string) : string :=
  match rpartition sep s with Some (h, _) => h | None => s end.

(** [os.path.basename] and [os.path.join] of [posixpath]. *)
Definition basename (p : string) : string :=
  match rpartition "/" p with Some (_, t) => t | None => p end.

Definition join (a b : string) : string :=
  if startswith "/" b then b
  else if is_empty a || endswith "/" a then a +:+ b
  else a +:+ "/" +:+ b.

(** The lines a text file yields when iterated: a line ends at ["\n"],
    ["\r\n"] or ["\r"], each read as ["\n"]; the last line may lack it. *)
Fixpoint file_lines (s : string) : list string :=
  match s with
  | "" => []
  | String c s' =>
      if Ascii.eqb c "010" then String "010" "" :: file_lines s'
      else if Ascii.eqb c "013" then
        match s' with
        | String c2 s'' =>
            if Ascii.eqb c2 "010" then String "010" "" :: file_lines s''
            else String "010" "" :: file_lines s'
        | "" => [String "010" ""]
        end
      else match file_lines s' with
           | l :: ls => String c l :: ls
           | [] => [String c ""]
           end
  end.

End Text.

(** ** Regular expressions

    The patterns of the scripts are sequences of literals, greedy
    character-class runs, one optional character and an end anchor.  An
    item is tried with the text it prefers first (the longest run, the
    optional character taken), then with less, until the items after it
    match: the backtracking of [re]. *)

Module Re.

Inductive item : Type :=
| Lit (s : string)            (* the text itself *)
| Plus (cls : ascii -> bool)  (* [cls+] *)
| Star (cls : ascii -> bool)  (* [cls*] *)
| Opt (c : ascii)             (* [c?] *)
| Dollar.                     (* [$]: the end, or before a final newline *)

(** A pattern: its items, and each group as a range of items
    (first item, number of items). *)
Record pattern : Type := {
  items : list item;
  captures : list (nat * nat)
}.

Fixpoint strip_prefix (p s : string) : option string :=
  match p, s with
  | "", _ => Some s
  | String a p', String b s' => if Ascii.eqb a b then strip_prefix p' s' else None
  | String _ _, "" => None
  end.

(** The longest prefix of [s] within [cls], and the rest. *)
Fixpoint span (cls : ascii -> bool) (s : string) : string * string :=
  match s with
  | "" => ("", "")
  | String c s' =>
      if cls c then let '(a, b) := span cls s' in (String c a, b)
      else ("", s)
  end.

(** The ways to cut [a +:+ b] inside [a], the longest first part first. *)
Fixpoint cuts (a b : string) : list (string * string) :=
  match a with
  | "" => [("", b)]
  | String c a' =>
      (map (fun xy => (String c xy.1, xy.2)) (cuts a' b) ++ [("", a +:+ b)])%list
  end.

(** What one item can take at the start of [s], in the order in which the
    matcher tries it: the text taken and the rest. *)
Definition choices (it : item) (s : string) : list (string * string) :=
  match it with
  | Lit l =>
      match strip_prefix l s with
      | Some r => [(l, r)]
      | None => []
      end
  | Plus cls =>
      let '(a, b) := span cls s in
      filter (fun xy => Text.is_empty xy.1 = false) (cuts a b)
  | Star cls =>
      let '(a, b) := span cls s in cuts a b
  | Opt c =>
      match s with
      | String d s' => if Ascii.eqb d c then [(String d "", s'); ("", s)] else [("", s)]
      | "" => [("", s)]
      end
  | Dollar =>
      match s with
      | "" => [("", s)]
      | String c "" => if Ascii.eqb c "010" then [("", s)] else []
      | _ => []
      end
  end.

(** The first choice on which [f] succeeds. *)
Fixpoint first_match {A B : Type} (f : A -> option B) (l : list A) : option B :=
  match l with
  | [] => None
  | x :: l' =>
      match f x with
      | Some y => Some y
      | None => first_match f l'
      end
  end.

(** A match of the items at the start of [s]: the text of each item and
    what is left after the match. *)
Fixpoint match_items (p : list item) (s : string) : option (list string * string) :=
  match p with
  | [] => Some ([], s)
  | it :: p' =>
      first_match
        (fun xy => '(segs, rest) ← match_items p' xy.2; Some (xy.1 :: segs, rest))
        (choices it s)
  end.

Fixpoint concat_str (l : list string) : string :=
  match l with
  | [] => ""
  | x :: l' => x +:+ concat_str l'
  end.

(** Group 0 is the whole match, group [k] the text of its items. *)
Definition groups_of (p : pattern) (segs : list string) : list string :=
  concat_str segs ::
  map (fun '(start, len) => concat_str (take len (drop start segs))) (captures p).

(** The leftmost match of the items in [s]: the text before it, the text
    of each item, and the text after it. *)
Fixpoint find (p : list item) (s : string) : option (string * list string * string) :=
  match match_items p s with
  | Some (segs, rest) => Some ("", segs, rest)
  | None =>
      match s with
      | "" => None
      | String c s' =>
          '(pre, segs, rest) ← find p s';
          Some (String c pre, segs, rest)
      end
  end.

(** [re.search]: the text before the leftmost match, its groups and the
    text after it. *)
Definition search (p : pattern) (s : string) : option (string * list string * string) :=
  '(pre, segs, rest) ← find (items p) s;
  Some (pre, groups_of p segs, rest).

(** The successive matches from left to right, each starting where the
    one before ended ([re.findall], [re.finditer]); the patterns here
    match at least one character. *)
Fixpoint matches_fuel (n : nat) (p : pattern) (s : string) : list (list string) :=
  match n with
  | O => []
  | S n' =>
      match search p s with
      | Some (_, gs, rest) => gs :: matches_fuel n' p rest
      | None => []
      end
  end.

Definition matches (p : pattern) (s : string) : list (list string) :=
  matches_fuel (S (String.length s)) p s.

(** Replacement templates. *)
Inductive titem : Type :=
| TLit (c : ascii)
| TGroup (k : nat).

Definition backslash : ascii := "092".

Definition digit_value (c : ascii) : nat := nat_of_ascii c - 48.

Definition is_group_digit (c : ascii) : bool :=
  Text.is_digit c && negb (Ascii.eqb c "0").

Definition starts_with_digit (s : string) : bool :=
  match s with String c _ => Text.is_digit c | "" => false end.

Section Template.

(** What the template parser makes of an escape other than a one-digit
    group reference ([\g<..>], octal and character escapes), given the
    number of groups and the template from that escape on. *)
Variable other_escape : nat -> string -> result (list titem).

(** [parse_template]: literal characters stand for themselves, [\k]
    refers to group [k] and is an error when the pattern has fewer
    groups; so is a backslash at the very end. *)
Fixpoint parse_template (ngroups : nat) (t : string) : result (list titem) :=
  match t with
  | "" => Ok []
  | String c t' =>
      if Ascii.eqb c backslash then
        match t' with
        | "" => Raise ReError
        | String d t'' =>
            if is_group_digit d && negb (starts_with_digit t'') then
              if (digit_value d <=? ngroups)%nat
              then r ← parse_template ngroups t''; Ok (TGroup (digit_value d) :: r)
              else Raise ReError
            else other_escape ngroups t
        end
      else r ← parse_template ngroups t'; Ok (TLit c :: r)
  end.

Fixpoint expand (tpl : list titem) (gs : list string) : string :=
  match tpl with
  | [] => ""
  | TLit c :: tpl' => String c (expand tpl' gs)
  | TGroup k :: tpl' => default "" (gs !! k) +:+ expand tpl' gs
  end.

Fixpoint sub_fuel (n : nat) (p : pattern) (tpl : list titem) (s : string) : string :=
  match n with
  | O => s
  | S n' =>
      match search p s with
      | Some (pre, gs, rest) => pre +:+ expand tpl gs +:+ sub_fuel n' p tpl rest
      | None => s
      end
  end.

(** [re.sub(pattern, repl, s)] with a string [repl]: the template is
    parsed first, then every match is replaced from left to right. *)
Definition sub (p : pattern) (repl s : string) : result string :=
  tpl ← parse_template (length (captures p)) repl;
  Ok (sub_fuel (S (String.length s)) p tpl s).

End Template.

End Re.

(** ** Dictionaries in insertion order *)

Module PyDict.

Section Dict.
Context {K V : Type} `{EqDecision K}.

Fixpoint get (k : K) (d : list (K * V)) : option V :=
  match d with
  | [] => None
  | (k', v) :: d' => if decide (k = k') then Some v else get k d'
  end.

(** [d[k] = v]: an existing key keeps its place, a new one goes last. *)
Fixpoint set (k : K) (v : V) (d : list (K * V)) : list (K * V) :=
  match d with
  | [] => [(k, v)]
  | (k', v') :: d' =>
      if decide (k = k') then (k, v) :: d' else (k', v') :: set k v d'
  end.

Definition keys (d : list (K * V)) : list K := d.*1.

(** The invariant of a dict: no key twice. *)
Definition wf (d : list (K * V)) : Prop := NoDup (keys d).

End Dict.

End PyDict.

(** ** The world of a run *)

Record world : Type := {
  files : gmap string string;   (* path to content, for every file present *)
  dirs : gset string;           (* the directories present *)
  requests : list string;       (* the URLs requested so far, in order *)
  printed : list string         (* the lines printed so far, in order *)
}.

(** [os.path.exists]: a file, or a directory named with or without
    trailing slashes. *)
Definition exists_path (p : string) (w : world) : bool :=
  bool_decide (is_Some (files w !! p)) ||
  bool_decide (Text.rstrip_by (Text.is_char "/") p ∈ dirs w).

Definition write_file (p content : string) (w : world) : world :=
  {| files := <[p := content]> (files w); dirs := dirs w;
     requests := requests w; printed := printed w |}.

(** [os.makedirs(p, exist_ok=True)] *)
Definition makedirs (p : string) (w : world) : world :=
  {| files := files w; dirs := {[p]} ∪ dirs w;
     requests := requests w; printed := printed w |}.

Definition request (url : string) (w : world) : world :=
  {| files := files w; dirs := dirs w;
     requests := (requests w ++ [url])%list; printed := printed w |}.

Definition print (line : string) (w : world) : world :=
  {| files := files w; dirs := dirs w;
     requests := requests w; printed := (printed w ++ [line])%list |}.

Fixpoint join_with (sep : string) (l : list string) : string :=
  match l with
  | [] => ""
  | [x] => x
  | x :: l' => x +:+ sep +:+ join_with sep l'
  end.

(** [int(s)] for a string: white space around, an optional sign, then
    decimal digits, single underscores allowed between digits. *)
Fixpoint digits_value (acc : Z) (after_digit : bool) (s : string) : option Z :=
  match s with
  | "" => if after_digit then Some acc else None
  | String c s' =>
      if Text.is_digit c
      then digits_value (10 * acc + Z.of_nat (Re.digit_value c)) true s'
      else if Ascii.eqb c "_" && after_digit then digits_value acc false s'
      else None
  end.

Definition py_int (s : string) : result Z :=
  let t := Text.strip s in
  let parsed :=
    match t with
    | String "+" r => digits_value 0 false r
    | String "-" r => Z.opp <$> digits_value 0 false r
    | _ => digits_value 0 false t
    end in
  match parsed with
  | Some n => Ok n
  | None => Raise ValueError
  end.

(** ** url-yolo-converter.py *)

Module UrlYoloConverter.

Record annotation : Type := {
  class_id : Z; x1 : Z; y1 : Z; x2 : Z; y2 : Z
}.

(** The five values that [convert_to_yolo_format] prints. *)
Record yolo_box : Type := {
  box_class_id : Z;
  x_center : spec_float;
  y_center : spec_float;
  width : spec_float;
  height : spec_float
}.

(** One entry of the [images] list of an annotation file. *)
Record img_entry : Type := {
  meta : string;
  annotations : list string
}.

Record dataset_yaml : Type := {
  path : string;
  train : string;
  val : string;
  test : string;
  nc : Z;
  names : list (Z * string)
}.

(** What [create_url_dataset] has built when it ends: its two lists and
    its manifest, and the pairs that [process_yaml_to_yolo] returned for
    each imageset. *)
Record dataset : Type := {
  train_data : list (string * string);
  val_data : list (string * string);
  resolved : list (list (string * string));
  manifest : dataset_yaml
}.

(** ['image-{image_number}_[a-zA-Z0-9]+\.jpg'], for an [image_number]
    made of digits. *)
Definition listing_pattern (image_number : string) : Re.pattern :=
  {| Re.items := [Re.Lit ("image-" +:+ image_number +:+ "_");
                  Re.Plus Text.is_alnum; Re.Lit ".jpg"];
     Re.captures := [] |}.

(** ['image-(\d+)\.jpg,\s*(\d+),\s*(\d+)'] *)
Definition meta_pattern : Re.pattern :=
  {| Re.items := [Re.Lit "image-"; Re.Plus Text.is_digit; Re.Lit ".jpg,";
                  Re.Star Text.is_space; Re.Plus Text.is_digit; Re.Lit ",";
                  Re.Star Text.is_space; Re.Plus Text.is_digit];
     Re.captures := [(1, 1); (4, 1); (7, 1)]%nat |}.

Definition parse_annotation_format (annotation_line : string)
  : result (option annotation) :=
  values ← mapM (fun x => py_int (Text.strip x)) (Text.split_on "," annotation_line);
  match values with
  | c :: a :: b :: d :: e :: _ :: _ =>
      Ok (Some {| class_id := c; x1 := a; y1 := b; x2 := d; y2 := e |})
  | _ => Ok None
  end.

(** [max(0, min(1, x))]; the ints 0 and 1 compare and print as the
    floats 0.0 and 1.0. *)
Definition clamp (x : spec_float) : spec_float :=
  PyFloat.py_max PyFloat.zero (PyFloat.py_min PyFloat.one x).

(** [convert_to_yolo_format] up to its last line: the class and the four
    clamped values. *)
Definition normalized_box (a : annotation) (img_width img_height : Z)
    (class_mapping : option (gmap Z Z)) : result yolo_box :=
  let cid :=
    match class_mapping with
    | Some m => match m !! class_id a with Some c => c | None => class_id a end
    | None => class_id a
    end in
  xs ← PyFloat.int_truediv (x1 a + x2 a) 2;
  xc ← PyFloat.div_int xs img_width;
  ys ← PyFloat.int_truediv (y1 a + y2 a) 2;
  yc ← PyFloat.div_int ys img_height;
  wd ← PyFloat.int_truediv (x2 a - x1 a) img_width;
  ht ← PyFloat.int_truediv (y2 a - y1 a) img_height;
  Ok {| box_class_id := cid;
        x_center := clamp xc; y_center := clamp yc;
        width := clamp wd; height := clamp ht |}.

Definition format_box (b : yolo_box) : string :=
  PyFloat.str_of_int (box_class_id b) +:+ " " +:+
  PyFloat.format_6f (x_center b) +:+ " " +:+
  PyFloat.format_6f (y_center b) +:+ " " +:+
  PyFloat.format_6f (width b) +:+ " " +:+
  PyFloat.format_6f (height b).

Definition convert_to_yolo_format (a : annotation) (img_width img_height : Z)
    (class_mapping : option (gmap Z Z)) : result string :=
  b ← normalized_box a img_width img_height class_mapping;
  Ok (format_box b).

(** [int(len(pairs) * split_ratio)] and the two slices at it. *)
Definition split_index (n : nat) (split_ratio : spec_float) : result Z :=
  x ← PyFloat.int_mul (Z.of_nat n) split_ratio;
  PyFloat.to_int x.

Definition slice_bound (k : Z) (n : nat) : nat :=
  if k <? 0 then Z.to_nat (Z.max 0 (Z.of_nat n + k))
  else Z.to_nat (Z.min k (Z.of_nat n)).

Definition slice_to {A : Type} (k : Z) (l : list A) : list A :=
  take (slice_bound k (length l)) l.

Definition slice_from {A : Type} (k : Z) (l : list A) : list A :=
  drop (slice_bound k (length l)) l.

Definition default_class_mapping : gmap Z Z :=
  <[1 := 1]> (<[3 := 1]> (<[10 := 0]> ∅)).

Section Run.

(** The answer to [urlopen(url)]: status and decoded body, or [None]
    for a [URLError] or [HTTPError]. *)
Variable urlopen : string -> option (Z * string).

(** [yaml.safe_load(content).get('images', [])]. *)
Variable yaml_images : string -> result (list img_entry).

(** [random.shuffle] on a generator state. *)
Variable rng : Type.
Variable shuffle : rng -> list (string * string) -> list (string * string) * rng.

Variable abspath : string -> string.
Variable yaml_dump : dataset_yaml -> string.

Definition status_200 (url : string) : bool :=
  match urlopen url with
  | Some (code, _) => code =? 200
  | None => false
  end.

Definition get_actual_image_url (base_url image_number : string) (w : world)
  : string * world :=
  let base := Text.rstrip_by (Text.is_char "/") base_url in
  let w1 := request base_url w in
  let listed :=
    match urlopen base_url with
    | Some (_, html) =>
        match Re.matches (listing_pattern image_number) html with
        | (m :: _) :: _ => Some (base +:+ "/" +:+ m)
        | _ => None
        end
    | None => None
    end in
  match listed with
  | Some url => (url, w1)
  | None =>
      let test_url ext := base +:+ "/image-" +:+ image_number +:+ "." +:+ ext in
      let w2 := request (test_url "jpg") w1 in
      if status_200 (test_url "jpg") then (test_url "jpg", w2) else
      let w3 := request (test_url "jpeg") w2 in
      if status_200 (test_url "jpeg") then (test_url "jpeg", w3) else
      let w4 := request (test_url "png") w3 in
      if status_200 (test_url "png") then (test_url "png", w4) else
      (base +:+ "/image-" +:+ image_number +:+ ".jpg", w4)
  end.

(** The inner loop of [process_yaml_to_yolo]. *)
Fixpoint convert_lines (lines : list string) (img_width img_height : Z)
    (class_mapping : option (gmap Z Z)) (yolo_annotations : list string)
  : result (list string) :=
  match lines with
  | [] => Ok yolo_annotations
  | annotation_line :: rest =>
      a ← parse_annotation_format annotation_line;
      match a with
      | Some a =>
          y ← convert_to_yolo_format a img_width img_height class_mapping;
          convert_lines rest img_width img_height class_mapping (yolo_annotations ++ [y])%list
      | None =>
          convert_lines rest img_width img_height class_mapping yolo_annotations
      end
  end.

(** The outer loop of [process_yaml_to_yolo]. *)
Fixpoint process_entries (entries : list img_entry) (base_url output_dir : string)
    (class_mapping : option (gmap Z Z)) (verify_urls : bool)
    (image_label_pairs : list (string * string)) (w : world)
  : result (list (string * string) * world) :=
  match entries with
  | [] => Ok (image_label_pairs, w)
  | img_entry :: rest =>
      let continue := process_entries rest base_url output_dir class_mapping verify_urls in
      match Re.search meta_pattern (meta img_entry) with
      | Some (_, [_; image_number; g2; g3], _) =>
          img_width ← py_int g2;
          img_height ← py_int g3;
          let '(image_url, w1) := get_actual_image_url base_url image_number w in
          let w2 := if verify_urls then request image_url w1 else w1 in
          if verify_urls && negb (status_200 image_url)
          then continue image_label_pairs w2
          else
            yolo_annotations ←
              convert_lines (annotations img_entry) img_width img_height class_mapping [];
            match yolo_annotations with
            | [] => continue image_label_pairs w2
            | _ =>
                let label_path :=
                  Text.join output_dir ("image-" +:+ image_number +:+ ".txt") in
                let w3 := write_file label_path (join_with (String "010" "") yolo_annotations) w2 in
                continue (image_label_pairs ++ [(image_url, label_path)])%list w3
            end
      | _ => continue image_label_pairs w
      end
  end.

Definition process_yaml_to_yolo (yaml_content base_url output_dir : string)
    (class_mapping : option (gmap Z Z)) (verify_urls : bool) (w : world)
  : result (list (string * string) * world) :=
  let w := makedirs output_dir w in
  entries ← yaml_images yaml_content;
  process_entries entries base_url output_dir class_mapping verify_urls [] w.

(** [base_url_template.format(id=imageset_id)]. *)
Variable format_id : string -> string -> string.

(** The two loops that copy label files into a split directory. *)
Fixpoint copy_labels (pairs : list (string * string)) (labels_dir : string)
    (data : list (string * string)) (w : world)
  : result (list (string * string) * world) :=
  match pairs with
  | [] => Ok (data, w)
  | (image_url, label_path) :: rest =>
      let new_label_path := Text.join labels_dir (Text.basename label_path) in
      match files w !! label_path with
      | Some content =>
          copy_labels rest labels_dir (data ++ [(image_url, new_label_path)])%list
            (write_file new_label_path content w)
      | None => Raise FileNotFoundError
      end
  end.

(** The loop over the imagesets.  [batches] is not in the source: it
    keeps the [image_label_pairs] of every imageset processed, so that
    the split can be compared with them. *)
Fixpoint split_imagesets (imagesets : list string)
    (annotation_files : gmap string string) (output_dir base_url_template : string)
    (class_mapping : option (gmap Z Z)) (split_ratio : spec_float) (verify_urls : bool)
    (train_data val_data : list (string * string))
    (batches : list (list (string * string))) (g : rng) (w : world)
  : result (list (string * string) * list (string * string) *
            list (list (string * string)) * rng * world) :=
  match imagesets with
  | [] => Ok (train_data, val_data, batches, g, w)
  | imageset_id :: rest =>
      let continue :=
        split_imagesets rest annotation_files output_dir base_url_template
          class_mapping split_ratio verify_urls in
      let train_labels_dir := Text.join (Text.join output_dir "labels") "train" in
      let val_labels_dir := Text.join (Text.join output_dir "labels") "val" in
      match annotation_files !! imageset_id with
      | None => continue train_data val_data batches g w
      | Some annotation_file =>
          let base_url := format_id base_url_template imageset_id in
          match files w !! annotation_file with
          | None => continue train_data val_data batches g w
          | Some yaml_content =>
              let temp_labels_dir :=
                Text.join (Text.join output_dir "temp_labels") imageset_id in
              '(image_label_pairs, w1) ←
                process_yaml_to_yolo yaml_content base_url temp_labels_dir
                  class_mapping verify_urls (makedirs temp_labels_dir w);
              let '(shuffled, g1) := shuffle g image_label_pairs in
              split_idx ← split_index (length shuffled) split_ratio;
              let train_pairs := slice_to split_idx shuffled in
              let val_pairs := slice_from split_idx shuffled in
              '(train_data1, w2) ← copy_labels train_pairs train_labels_dir train_data w1;
              '(val_data1, w3) ← copy_labels val_pairs val_labels_dir val_data w2;
              continue train_data1 val_data1 (batches ++ [image_label_pairs])%list g1 w3
          end
      end
  end.

Definition url_lines (data : list (string * string)) : string :=
  Re.concat_str (map (fun '(image_url, _) => image_url +:+ String "010" "") data).

(** The [dataset_yaml] dict of [create_url_dataset]. *)
Definition make_dataset_yaml (output_dir : string)
    (class_mapping : option (gmap Z Z)) : dataset_yaml :=
  {| path := abspath output_dir;
     train := "train.txt";
     val := "val.txt";
     test := "";
     nc := match class_mapping with
           | Some m => if bool_decide (m = ∅) then 2 else Z.of_nat (size m)
           | None => 2
           end;
     names := [(0, "red"); (1, "blue")] |}.

(** [shutil.rmtree(dir, ignore_errors=True)]. *)
Definition rmtree (dir : string) (w : world) : world :=
  {| files := filter (fun kv => String.prefix (dir +:+ "/") kv.1 = false) (files w);
     dirs := filter (fun d => d ≠ dir ∧ String.prefix (dir +:+ "/") d = false) (dirs w);
     requests := requests w; printed := printed w |}.

Definition create_url_dataset (imagesets : list string)
    (annotation_files : gmap string string) (output_dir base_url_template : string)
    (class_mapping : option (gmap Z Z)) (split_ratio : spec_float) (verify_urls : bool)
    (g : rng) (w : world) : result (dataset * rng * world) :=
  let w := makedirs output_dir w in
  let w := makedirs (Text.join (Text.join output_dir "labels") "train") w in
  let w := makedirs (Text.join (Text.join output_dir "labels") "val") w in
  '(train_data, val_data, batches, g1, w1) ←
    split_imagesets imagesets annotation_files output_dir base_url_template
      class_mapping split_ratio verify_urls [] [] [] g w;
  let w2 := write_file (Text.join output_dir "train.txt") (url_lines train_data) w1 in
  let w3 := write_file (Text.join output_dir "val.txt") (url_lines val_data) w2 in
  let dataset_yaml := make_dataset_yaml output_dir class_mapping in
  let w4 := write_file (Text.join output_dir "dataset.yaml") (yaml_dump dataset_yaml) w3 in
  let w5 := rmtree (Text.join output_dir "temp_labels") w4 in
  Ok ({| train_data := train_data; val_data := val_data;
         resolved := batches; manifest := dataset_yaml |},
      g1, w5).

Variable find_annotation_files : string -> list string -> world -> gmap string string.

Definition main (imagesets : list string) (annotations_dir output_dir url_template : string)
    (verify_urls : bool) (split_ratio : spec_float) (g : rng) (w : world)
  : result (dataset * rng * world) :=
  let annotation_files := find_annotation_files annotations_dir imagesets w in
  create_url_dataset imagesets annotation_files output_dir url_template
    (Some default_class_mapping) split_ratio verify_urls g w.

End Run.

End UrlYoloConverter.

(** ** url-fixer.py *)

Module UrlFixer.

(** ['images/1_(\d+)/?$'] *)
Definition base_pattern : Re.pattern :=
  {| Re.items := [Re.Lit "images/1_"; Re.Plus Text.is_digit; Re.Opt "/"; Re.Dollar];
     Re.captures := [(1, 1)]%nat |}.

(** ['image-(\d+)_([A-Za-z0-9]+)\.jpg'] *)
Definition listing_pattern : Re.pattern :=
  {| Re.items := [Re.Lit "image-"; Re.Plus Text.is_digit; Re.Lit "_";
                  Re.Plus Text.is_alnum; Re.Lit ".jpg"];
     Re.captures := [(1, 1); (3, 1)]%nat |}.

(** ['images/1_(\d+)/image-(\d+)\.jpg'] *)
Definition url_pattern : Re.pattern :=
  {| Re.items := [Re.Lit "images/1_"; Re.Plus Text.is_digit; Re.Lit "/image-";
                  Re.Plus Text.is_digit; Re.Lit ".jpg"];
     Re.captures := [(1, 1); (3, 1)]%nat |}.

(** ['(images/1_\d+/image-\d+)\.jpg'] *)
Definition sub_pattern : Re.pattern :=
  {| Re.items := [Re.Lit "images/1_"; Re.Plus Text.is_digit; Re.Lit "/image-";
                  Re.Plus Text.is_digit; Re.Lit ".jpg"];
     Re.captures := [(0, 4)]%nat |}.

Definition predefined_imagesets : list string :=
  ["145"; "146"; "147"; "148"; "149"; "152"; "153"; "154"; "158"; "175"].

(** [suffixes[imageset_id][image_number]] when both keys are there. *)
Definition lookup_suffix (suffixes : list (string * list (string * string)))
    (imageset_id image_number : string) : option string :=
  inner ← PyDict.get imageset_id suffixes;
  PyDict.get image_number inner.

(** [suffixes[imageset_id][image_number] = suffix], the inner dict being
    created when the imageset is new. *)
Definition store_suffix (suffixes : list (string * list (string * string)))
    (imageset_id image_number suffix : string)
  : list (string * list (string * string)) :=
  let inner := default [] (PyDict.get imageset_id suffixes) in
  PyDict.set imageset_id (PyDict.set image_number suffix inner) suffixes.

(** One line of the cache file. *)
Definition load_line (suffixes : list (string * list (string * string)))
    (line : string) : list (string * list (string * string)) :=
  match Text.split_on "," (Text.strip line) with
  | [imageset_id; image_number; suffix] =>
      store_suffix suffixes imageset_id image_number suffix
  | _ => suffixes
  end.

Definition load_cache (content : string) : list (string * list (string * string)) :=
  fold_left load_line (Text.file_lines content) [].

(** What is written to the cache file: one line for each entry. *)
Definition cache_line (imageset_id image_number suffix : string) : string :=
  imageset_id +:+ "," +:+ image_number +:+ "," +:+ suffix +:+ String "010" "".

Definition cache_lines (suffixes : list (string * list (string * string))) : list string :=
  flat_map (fun '(imageset_id, inner) =>
    map (fun '(image_number, suffix) => cache_line imageset_id image_number suffix)
        inner) suffixes.

Definition cache_text (suffixes : list (string * list (string * string))) : string :=
  Re.concat_str (cache_lines suffixes).

(** [s[:-1]] *)
Fixpoint drop_last (s : string) : string :=
  match s with
  | "" => ""
  | String _ "" => ""
  | String c s' => String c (drop_last s')
  end.

Definition truthy (cache_file : option string) : option string :=
  match cache_file with
  | Some p => if Text.is_empty p then None else Some p
  | None => None
  end.

Section Run.

(** The decoded body that [urlopen(url)] yields, or [None] when the
    request or the decoding raises. *)
Variable urlopen : string -> option string.

Definition store_match (imageset_id : string)
    (suffixes : list (string * list (string * string))) (m : list string)
  : list (string * list (string * string)) :=
  match m with
  | [_; image_number; suffix] => store_suffix suffixes imageset_id image_number suffix
  | _ => suffixes
  end.

(** The loop over the imagesets to fetch. *)
Fixpoint fetch_imagesets (imageset_ids : list string) (base_url : string)
    (suffixes : list (string * list (string * string))) (w : world)
  : list (string * list (string * string)) * world :=
  match imageset_ids with
  | [] => (suffixes, w)
  | imageset_id :: rest =>
      let imageset_url := base_url +:+ "/1_" +:+ imageset_id +:+ "/" in
      let w1 := request imageset_url w in
      match urlopen imageset_url with
      | Some directory_listing =>
          let found := Re.matches listing_pattern directory_listing in
          fetch_imagesets rest base_url
            (fold_left (store_match imageset_id) found suffixes) w1
      | None => fetch_imagesets rest base_url suffixes w1
      end
  end.

(** What [get_image_suffixes] does when it does not read the cache
    file: it reads the listings and saves what it found. *)
Definition scrape_suffixes (base_url : string) (cache_file : option string)
    (w : world) : list (string * list (string * string)) * world :=
  let '(imageset_ids, base_url1) :=
    match Re.search base_pattern base_url with
    | Some (_, [_; id], _) =>
        let b := if Text.endswith "/" base_url then drop_last base_url else base_url in
        ([id], Text.rsplit1_head "/" b)
    | _ => (predefined_imagesets, base_url)
    end in
  let '(suffixes, w1) := fetch_imagesets imageset_ids base_url1 [] w in
  match truthy cache_file with
  | Some p => (suffixes, write_file p (cache_text suffixes) w1)
  | None => (suffixes, w1)
  end.

(** The cache path is tested with [os.path.exists] and then opened: a
    path that exists and is no file is a directory, and opening it
    raises [IsADirectoryError]. *)
Definition get_image_suffixes (base_url : string) (cache_file : option string)
    (w : world) : result (list (string * list (string * string)) * world) :=
  let cached :=
    match truthy cache_file with
    | Some p => if exists_path p w then Some p else None
    | None => None
    end in
  match cached with
  | Some p =>
      match files w !! p with
      | Some content => Ok (load_cache content, w)
      | None => Raise IsADirectoryError
      end
  | None => Ok (scrape_suffixes base_url cache_file w)
  end.

(** The replacement escapes that [Re.parse_template] leaves open. *)
Variable other_escape : nat -> string -> result (list Re.titem).

(** The body of the loop of [update_urls_in_file]: what is written for
    one line of the input. *)
Definition update_line (image_suffixes : list (string * list (string * string)))
    (line : string) : result string :=
  let line := Text.strip line in
  match Re.search url_pattern line with
  | Some (_, [_; imageset_id; image_number], _) =>
      match lookup_suffix image_suffixes imageset_id image_number with
      | Some suffix =>
          updated_line ← Re.sub other_escape sub_pattern
                           (String Re.backslash "1_" +:+ suffix +:+ ".jpg") line;
          Ok (updated_line +:+ String "010" "")
      | None => Ok (line +:+ String "010" "")
      end
  | _ => Ok (line +:+ String "010" "")
  end.

(** The pieces written to the output file, one per line read. *)
Definition update_lines (image_suffixes : list (string * list (string * string)))
    (lines : list string) : result (list string) :=
  mapM (update_line image_suffixes) lines.

(** Opening the output file empties it before the first line is read:
    an input file that is also the output file yields no line. *)
Definition update_urls_in_file (input_file output_file : string)
    (image_suffixes : list (string * list (string * string))) (w : world)
  : result world :=
  match files w !! input_file with
  | None => Raise FileNotFoundError
  | Some content =>
      let content := if bool_decide (input_file = output_file) then "" else content in
      written ← update_lines image_suffixes (Text.file_lines content);
      Ok (write_file output_file (Re.concat_str written) w)
  end.

Definition main (url_file : string) (output_file : option string)
    (base_url cache_file : string) (w : world) : result world :=
  let output_file :=
    match truthy output_file with
    | Some p => p
    | None => url_file +:+ ".new"
    end in
  '(image_suffixes, w1) ← get_image_suffixes base_url (Some cache_file) w;
  update_urls_in_file url_file output_file image_suffixes w1.

End Run.

End UrlFixer.

(** ** download.py *)

Module Download.

Definition dataset_dir : string := "datasets/url_dataset".

(** Where [download_image] stores the image of [url]. *)
Definition filename_of (url : string) : string :=
  Text.basename (hd "" (Text.split_on "?" url)).

Definition filepath_of (image_dir url : string) : string :=
  Text.join image_dir (filename_of url).

(** A call of [download_image] in the pool: not started, past the test
    of [os.path.exists], holding the answer of [requests.get], done. *)
Inductive task : Type :=
| Waiting (url : string)
| Checked (url : string)
| Received (url : string) (response : string + Z * string)
| Finished.

Section Run.

(** [requests.get(url, timeout=10)]: the text of the exception raised,
    or the status code and the content. *)
Variable requests_get : string -> string + Z * string.

Variable split : string.
Variable image_dir : string.

Definition tag : string := "[" +:+ split +:+ "] ".

(** The three stages of [download_image]: the test of the destination,
    the request, and what is done with the answer. *)
Definition check (url : string) (w : world) : task * world :=
  if exists_path (filepath_of image_dir url) w
  then (Finished, print (tag +:+ "Already downloaded: " +:+ filename_of url) w)
  else (Checked url, w).

Definition fetch (url : string) (w : world) : task * world :=
  (Received url (requests_get url), request url w).

Definition store (url : string) (response : string + Z * string) (w : world) : world :=
  match response with
  | inr (status_code, content) =>
      if status_code =? 200
      then print (tag +:+ "Downloaded: " +:+ filename_of url)
             (write_file (filepath_of image_dir url) content w)
      else print (tag +:+ "Failed " +:+ url +:+ " - Status: " +:+
                  PyFloat.str_of_int status_code) w
  | inl e => print (tag +:+ "Error " +:+ url +:+ " - " +:+ e) w
  end.

Definition download_image (url : string) (w : world) : world :=
  let filename := filename_of url in
  let filepath := Text.join image_dir filename in
  if exists_path filepath w
  then print (tag +:+ "Already downloaded: " +:+ filename) w
  else store url (requests_get url) (request url w).

(** One step of the pool: some call moves to its next stage. *)
Inductive step : list task * world -> list task * world -> Prop :=
| step_check i url tasks w t w' :
    tasks !! i = Some (Waiting url) ->
    check url w = (t, w') ->
    step (tasks, w) (<[i := t]> tasks, w')
| step_fetch i url tasks w t w' :
    tasks !! i = Some (Checked url) ->
    fetch url w = (t, w') ->
    step (tasks, w) (<[i := t]> tasks, w')
| step_store i url response tasks w :
    tasks !! i = Some (Received url response) ->
    step (tasks, w) (<[i := Finished]> tasks, store url response w).

(** The calls one after the other, as a pool of one worker runs them. *)
Definition run_in_order (urls : list string) (w : world) : world :=
  fold_left (fun w url => download_image url w) urls w.

End Run.

Section Split.

Variable requests_get : string -> string + Z * string.

Definition image_dir_of (split : string) : string :=
  Text.join (Text.join dataset_dir "images") split.

(** [download_images] up to the pool: the directory and the URLs. *)
Definition prepare (split : string) (w : world) : result (list string * world) :=
  let w1 := makedirs (image_dir_of split) w in
  let url_file := Text.join dataset_dir (split +:+ ".txt") in
  match files w1 !! url_file with
  | Some content => Ok (map Text.strip (Text.file_lines content), w1)
  | None => Raise FileNotFoundError
  end.

(** [download_images] with the calls run in order. *)
Definition download_images (split : string) (w : world) : result world :=
  '(urls, w1) ← prepare split w;
  Ok (run_in_order requests_get split (image_dir_of split) urls w1).

End Split.

End Download.

(** [s.splitlines()] of what [f.read()] returns: the lines without their
    ends; a line ends at a line feed, a carriage return (with the line
    feed that follows it), a vertical tab, a form feed, a file, group or
    record separator, or a next-line character. *)
Definition is_line_boundary (c : ascii) : bool :=
  let n := Text.code c in
  ((10 <=? n) && (n <=? 13) || (28 <=? n) && (n <=? 30) || (n =? 133))%N.

Fixpoint splitlines (s : string) : list string :=
  match s with
  | "" => []
  | String c s' =>
      if is_line_boundary c then
        match s' with
        | String c2 s'' =>
            if Ascii.eqb c "013" && Ascii.eqb c2 "010" then "" :: splitlines s''
            else "" :: splitlines s'
        | "" => [""]
        end
      else match splitlines s' with
           | l :: ls => String c l :: ls
           | [] => [String c ""]
           end
  end.

(** ** url-updater.py *)

Module UrlUpdater.

(** ['image-(\d+)_([A-Za-z0-9]+)\.jpg'] *)
Definition url_pattern : Re.pattern :=
  {| Re.items := [Re.Lit "image-"; Re.Plus Text.is_digit; Re.Lit "_";
                  Re.Plus Text.is_alnum; Re.Lit ".jpg"];
     Re.captures := [(1, 1); (3, 1)]%nat |}.

(** ['image-(\d+)\.txt'] *)
Definition label_pattern : Re.pattern :=
  {| Re.items := [Re.Lit "image-"; Re.Plus Text.is_digit; Re.Lit ".txt"];
     Re.captures := [(1, 1)]%nat |}.

(** [re.match]: the groups of a match that starts at the start of [s]. *)
Definition re_match (p : Re.pattern) (s : string) : option (list string) :=
  '(segs, _) ← Re.match_items (Re.items p) s;
  Some (Re.groups_of p segs).

(** [s.endswith(suffix)] *)
Fixpoint endswith (suffix s : string) : bool :=
  String.eqb s suffix ||
  match s with
  | String _ s' => endswith suffix s'
  | "" => false
  end.

(** The body of the loop over the URLs. *)
Definition add_url (url_map : gmap string string) (url : string) : gmap string string :=
  match Re.search url_pattern url with
  | Some (_, [_; image_num; random_chars], _) => <[image_num := random_chars]> url_map
  | _ => url_map
  end.

(** The name that a label file is given, or [None] when it is left as
    it is. *)
Definition new_filename (url_map : gmap string string) (label_file : string)
  : option string :=
  match re_match label_pattern label_file with
  | Some [_; image_num] =>
      random_chars ← url_map !! image_num;
      Some ("image-" +:+ image_num +:+ "_" +:+ random_chars +:+ ".txt")
  | _ => None
  end.

Section Run.

Variable abspath : string -> string.

(** [os.listdir(path)]: the names in the directory, in some order. *)
Variable listdir : string -> world -> result (list string).

(** [os.rename(src, dst)], or [None] when it raises. *)
Variable rename : string -> string -> world -> option world.

(** The body of the loop over the label files, on the number of files
    renamed so far and the world. *)
Definition rename_label (label_dir : string) (url_map : gmap string string)
    (st : nat * world) (label_file : string) : nat * world :=
  match new_filename url_map label_file with
  | Some new =>
      match rename (Text.join label_dir label_file) (Text.join label_dir new) st.2 with
      | Some w' => (S st.1, w')
      | None => st
      end
  | None => st
  end.

(** [update_label_files], with the number of files renamed that it
    prints at its end. *)
Definition update_label_files (url_file label_dir : string) (w : world)
  : result (nat * world) :=
  let url_file := abspath url_file in
  let label_dir := abspath label_dir in
  if negb (exists_path url_file w) then Ok (O, w)
  else if negb (exists_path label_dir w) then Ok (O, w)
  else
    match files w !! url_file with
    | None => Ok (O, w)
    | Some content =>
        let urls := splitlines content in
        let url_map := fold_left add_url urls ∅ in
        names ← listdir label_dir w;
        let current_labels := filter (fun f => endswith ".txt" f = true) names in
        Ok (fold_left (rename_label label_dir url_map) current_labels (O, w))
    end.

Definition main (current_dir : string) (w : world) : result world :=
  let dataset := Text.join (Text.join current_dir "datasets") "url_dataset" in
  '(_, w1) ← update_label_files (Text.join dataset "train.txt")
                (Text.join (Text.join dataset "labels") "train") w;
  '(_, w2) ← update_label_files (Text.join dataset "val.txt")
                (Text.join (Text.join dataset "labels") "val") w1;
  Ok w2.

End Run.

End UrlUpdater.

(** ** yolo-dataset-utils.py *)

Module DatasetUtils.

Section Run.

(** [urllib.request.urlretrieve(url, path)]: the content that it stores
    at [path], or [None] when the request raises. *)
Variable urlretrieve : string -> option string.



End Run.

End DatasetUtils.

(** * Vocabulary of the properties *)

Definition in_unit_interval (x : spec_float) : Prop :=
  PyFloat.leb PyFloat.zero x = true /\ PyFloat.leb x PyFloat.one = true.

Definition sample_annotation : UrlYoloConverter.annotation :=
  {| UrlYoloConverter.class_id := 10;
     UrlYoloConverter.x1 := 100; UrlYoloConverter.y1 := 200;
     UrlYoloConverter.x2 := 300; UrlYoloConverter.y2 := 400 |}.

Definition bad_entry : UrlYoloConverter.img_entry :=
  {| UrlYoloConverter.meta := "image-0000601.jpg, 1920, 1080";
     UrlYoloConverter.annotations := ["10, 100, 200, 300, 400, x"] |}.

Definition bad_batch (content : string) : result (list UrlYoloConverter.img_entry) :=
  Ok [bad_entry;
      {| UrlYoloConverter.meta := "image-0000602.jpg, 1920, 1080";
         UrlYoloConverter.annotations := ["10, 100, 200, 300, 400, 0"] |}].

(** A pair as it is stored in a split: the label file is the copy in the
    directory of the split. *)
Definition into (labels_dir : string) (p : string * string) : string * string :=
  (p.1, Text.join labels_dir (Text.basename p.2)).

(** The number of pairs of a batch that go to train. *)
Definition train_count (split_ratio : spec_float) (batch : list (string * string)) : nat :=
  match UrlYoloConverter.split_index (length batch) split_ratio with
  | Ok k => UrlYoloConverter.slice_bound k (length batch)
  | Raise _ => 0
  end.

(** A run on two imagesets of one image each, with nothing shuffled and
    no listing answered. *)
Module TwoImagesets.

Definition half : spec_float := S754_finite false 4503599627370496 (-53).

Definition urlopen (url : string) : option (Z * string) := None.

Definition yaml_images (content : string) : result (list UrlYoloConverter.img_entry) :=
  Ok [{| UrlYoloConverter.meta := "image-" +:+ content +:+ ".jpg, 1920, 1080";
         UrlYoloConverter.annotations := ["10, 100, 200, 300, 400, 0"] |}].

Definition shuffle (g : unit) (l : list (string * string)) : list (string * string) * unit :=
  (l, g).

Definition format_id (template id : string) : string := template +:+ id +:+ "/".

Definition start : world :=
  {| files := <["a.yaml" := "0000601"]> (<["b.yaml" := "0000602"]> ∅);
     dirs := ∅; requests := []; printed := [] |}.

Definition annotation_files : gmap string string :=
  <["145" := "a.yaml"]> (<["146" := "b.yaml"]> ∅).

Definition run (split_ratio : spec_float)
  : result (UrlYoloConverter.dataset * unit * world) :=
  UrlYoloConverter.create_url_dataset urlopen yaml_images unit shuffle
    (fun p => p) (fun _ => "") format_id
    ["145"; "146"] annotation_files "out" "https://host/images/1_" None
    split_ratio false tt start.

End TwoImagesets.

(** The pairs of a shuffled batch that go to train, and those that go to
    val. *)
Definition train_part (split_ratio : spec_float) (shuffled : list (string * string))
  : list (string * string) :=
  take (train_count split_ratio shuffled) shuffled.

Definition val_part (split_ratio : spec_float) (shuffled : list (string * string))
  : list (string * string) :=
  drop (train_count split_ratio shuffled) shuffled.

(** A run on two imagesets of two images each, with nothing shuffled and
    no listing answered. *)
Module TwoPairs.

Definition yaml_images (content : string) : result (list UrlYoloConverter.img_entry) :=
  Ok [{| UrlYoloConverter.meta := "image-" +:+ content +:+ "1.jpg, 1920, 1080";
         UrlYoloConverter.annotations := ["10, 100, 200, 300, 400, 0"] |};
      {| UrlYoloConverter.meta := "image-" +:+ content +:+ "2.jpg, 1920, 1080";
         UrlYoloConverter.annotations := ["10, 100, 200, 300, 400, 0"] |}].

Definition run (split_ratio : spec_float)
  : result (UrlYoloConverter.dataset * unit * world) :=
  UrlYoloConverter.create_url_dataset TwoImagesets.urlopen yaml_images unit
    TwoImagesets.shuffle (fun p => p) (fun _ => "") TwoImagesets.format_id
    ["145"; "146"] TwoImagesets.annotation_files "out" "https://host/images/1_" None
    split_ratio false tt TwoImagesets.start.

End TwoPairs.

Definition is_newline (c : ascii) : bool := Ascii.eqb c "010" || Ascii.eqb c "013".

Definition nl : string := String "010" "".

Definition lacks (x : ascii) (s : string) : bool :=
  Text.all_chars (fun c => negb (Ascii.eqb c x)) s.

(** What a field of a cache line must not contain to be read back. *)
Definition no_separator (s : string) : bool :=
  Text.all_chars (fun c => negb (Ascii.eqb c "," || is_newline c)) s.

Definition starts_clean (s : string) : bool :=
  match s with String c _ => negb (Text.is_space c) | "" => true end.

Definition ends_clean (s : string) : bool :=
  match Text.last_char s with Some c => negb (Text.is_space c) | None => true end.

Definition entry_ok (e : string * string) : bool :=
  no_separator e.1 && no_separator e.2 && ends_clean e.2.

(** An imageset of a cache that is read back as it was written: it has an
    entry, no image number twice, and fields that a line keeps apart. *)
Definition imageset_ok (x : string * list (string * string)) : Prop :=
  no_separator x.1 = true /\ starts_clean x.1 = true /\
  x.2 ≠ [] /\ NoDup x.2.*1 /\ Forall (fun e => entry_ok e = true) x.2.

Definition cache_ok (suffixes : list (string * list (string * string))) : Prop :=
  NoDup suffixes.*1 /\ Forall imageset_ok suffixes.

Definition written_line (l : string) : Prop :=
  exists x, l = x +:+ String "010" "" /\
            Text.all_chars (fun c => negb (is_newline c)) x = true.

Definition empty_world : world :=
  {| files := ∅; dirs := ∅; requests := []; printed := [] |}.

(** A listing that shows two files for one image number. *)
Definition double_listing (url : string) : option string :=
  Some "<a>image-0000601_AAAAAA.jpg</a> <a>image-0000601_BBBBBB.jpg</a>".

Definition cached_world : world :=
  {| files := <["image_suffixes.cache" := "145,0000601,EGD3NF" +:+ nl]>
                (<["train.txt" := "https://host/images/1_145/image-0000602.jpg" +:+ nl]> ∅);
     dirs := ∅; requests := []; printed := [] |}.

(** The line printed for a URL whose file is there already. *)
Definition skipped (split url : string) : string :=
  Download.tag split +:+ "Already downloaded: " +:+ Download.filename_of url.

(** What a call of the pool may have done, given the world [w0] at the
    start. *)
Definition task_ok (split image_dir : string) (w0 w : world) (url : string)
    (t : Download.task) : Prop :=
  match t with
  | Download.Waiting u => u = url
  | Download.Checked u | Download.Received u _ =>
      u = url /\ exists_path (Download.filepath_of image_dir url) w0 = false
  | Download.Finished =>
      exists_path (Download.filepath_of image_dir url) w0 = true ->
      skipped split url ∈ printed w
  end.

(** What every state of a run of the pool on [urls] from [w0] satisfies. *)
Definition pool_inv (split image_dir : string) (urls : list string) (w0 : world)
    (st : list Download.task * world) : Prop :=
  dirs st.2 = dirs w0 /\
  (forall p, exists_path p w0 = true -> files st.2 !! p = files w0 !! p) /\
  (exists rs, requests st.2 = (requests w0 ++ rs)%list /\
              Forall (fun u => exists_path (Download.filepath_of image_dir u) w0 = false) rs) /\
  (exists ps, printed st.2 = (printed w0 ++ ps)%list) /\
  length st.1 = length urls /\
  (forall i url t, urls !! i = Some url -> st.1 !! i = Some t ->
                   task_ok split image_dir w0 st.2 url t).

Definition fetched_world : world :=
  makedirs (Download.image_dir_of "train")
    {| files := <["datasets/url_dataset/images/train/image-0000601_EGD3NF.jpg" := "JPEG"]> ∅;
       dirs := ∅; requests := []; printed := [] |}.

(** The items of the URL pattern, which [url_pattern] and [sub_pattern]
    share. *)
Definition url_items : list Re.item := Re.items UrlFixer.url_pattern.

Definition is_number (s : string) : bool :=
  negb (Text.is_empty s) && Text.all_chars Text.is_digit s.

(** [new] is [s] with [_suffix] put before the [.jpg] of every URL that the
    pattern finds in it, from left to right. *)
Inductive suffixed (suffix : string) : string -> string -> Prop :=
| suffixed_none s :
    Re.find url_items s = None -> suffixed suffix s s
| suffixed_url s pre i n rest rest' :
    Re.find url_items s = Some (pre, ["images/1_"; i; "/image-"; n; ".jpg"], rest) ->
    suffixed suffix rest rest' ->
    suffixed suffix s
      (pre +:+ "images/1_" +:+ i +:+ "/image-" +:+ n +:+ "_" +:+ suffix +:+ ".jpg" +:+ rest').

(** What [update_urls_in_file] writes for a line it reads. *)
Inductive line_written (image_suffixes : list (string * list (string * string)))
  : string -> string -> Prop :=
| written_plain line :
    Re.find url_items (Text.strip line) = None ->
    line_written image_suffixes line (Text.strip line +:+ nl)
| written_unresolved line pre i n rest :
    Re.find url_items (Text.strip line)
      = Some (pre, ["images/1_"; i; "/image-"; n; ".jpg"], rest) ->
    UrlFixer.lookup_suffix image_suffixes i n = None ->
    line_written image_suffixes line (Text.strip line +:+ nl)
| written_suffixed line pre i n rest suffix new :
    Re.find url_items (Text.strip line)
      = Some (pre, ["images/1_"; i; "/image-"; n; ".jpg"], rest) ->
    UrlFixer.lookup_suffix image_suffixes i n = Some suffix ->
    suffixed suffix (Text.strip line) new ->
    line_written image_suffixes line (new +:+ nl).

Fixpoint literal (s : string) : list Re.titem :=
  match s with
  | "" => []
  | String c s' => Re.TLit c :: literal s'
  end.

Definition no_escape (groups : nat) (template : string) : result (list Re.titem) :=
  Raise ReError.

Definition url_list_world : world :=
  {| files := <["train.txt" :=
                  "  https://host/images/1_145/image-0000601.jpg" +:+ nl +:+
                  "https://host/images/1_146/image-0000001.jpg" +:+ nl +:+
                  "# a comment" +:+ nl]> ∅;
     dirs := ∅; requests := []; printed := [] |}.

(** A text without line feed and carriage return. *)
Definition one_line (s : string) : bool :=
  Text.all_chars (fun c => negb (is_newline c)) s.

(** A suffix that the replacement template takes as it stands and that
    stays within its line. *)
Definition plain_suffix (s : string) : bool :=
  lacks Re.backslash s && one_line s.

Definition broken_suffix_world : world :=
  {| files := <["image_suffixes.cache" := "145,0000601,\2" +:+ nl]>
                (<["train.txt" := "https://host/images/1_145/image-0000601.jpg" +:+ nl]> ∅);
     dirs := ∅; requests := []; printed := [] |}.

(** The ways in which [get_actual_image_url] ends the URL of an image:
    the suffix and extension found in the listing, or an extension that
    it tries. *)
Definition url_ending (tail : string) : Prop :=
  tail = ".jpg" \/ tail = ".jpeg" \/ tail = ".png" \/
  exists sfx, sfx <> "" /\ Text.all_chars Text.is_alnum sfx = true /\
              tail = "_" +:+ sfx +:+ ".jpg".

(** What the conversion of an annotation file raises by itself. *)
Definition conversion_error (e : exn) : Prop :=
  e = ValueError \/ e = ZeroDivisionError \/ e = OverflowError.

(** A file that is there and is not empty. *)
Definition present (w : world) (p : string) : Prop :=
  exists content, files w !! p = Some content /\ content <> "".

(** Every file with a content in [w] has one in [w']. *)
Definition keeps_files (w w' : world) : Prop :=
  forall p, present w p -> present w' p.

(** A pair that [process_yaml_to_yolo] returns: a URL and a label file
    that name the same image, the label file being there with a content. *)
Definition labelled (base_url output_dir : string) (w : world) (p : string * string) : Prop :=
  exists n tail,
    is_number n = true /\ url_ending tail /\
    p.1 = Text.rstrip_by (Text.is_char "/") base_url +:+ "/image-" +:+ n +:+ tail /\
    p.2 = Text.join output_dir ("image-" +:+ n +:+ ".txt") /\
    present w p.2.

(** [x] is a part of [s]. *)
Definition occurs (x s : string) : Prop :=
  exists pre post, s = pre +:+ x +:+ post.

(** [url] with a slash at its end. *)
Definition slashed (url : string) : string :=
  if Text.endswith "/" url then url else url +:+ "/".

(** The URL of the listing of an imageset. *)
Definition imageset_url (base_url imageset_id : string) : string :=
  base_url +:+ "/1_" +:+ imageset_id +:+ "/".

(** No cache file is read: none is named, or the one named is not there. *)
Definition no_cache (cache_file : option string) (w : world) : Prop :=
  match UrlFixer.truthy cache_file with
  | Some p => files w !! p = None
  | None => True
  end.

(** No cache is named, or nothing is at the path named: no file and no
    directory. *)
Definition cache_absent (cache_file : option string) (w : world) : Prop :=
  match UrlFixer.truthy cache_file with
  | Some p => exists_path p w = false
  | None => True
  end.

(** Every entry of the mapping was read in the listing of its imageset. *)
Definition listed (urlopen : string -> option string) (base_url : string)
    (suffixes : list (string * list (string * string))) : Prop :=
  forall i n s, UrlFixer.lookup_suffix suffixes i n = Some s ->
    exists listing, urlopen (imageset_url base_url i) = Some listing /\
                    occurs ("image-" +:+ n +:+ "_" +:+ s +:+ ".jpg") listing.

(** The URL of a call that has not made its request. *)
Definition unrequested (t : Download.task) : option string :=
  match t with
  | Download.Waiting u | Download.Checked u => Some u
  | _ => None
  end.

Definition pending (tasks : list Download.task) : list string := omap unrequested tasks.

(** A file of [w] is as it was in [w0], or holds the content answered
    with status 200 for a URL of the list that is stored there. *)
Definition stored_answer (requests_get : string -> string + Z * string)
    (image_dir : string) (urls : list string) (w0 w : world) (p : string) : Prop :=
  files w !! p = files w0 !! p \/
  exists url content,
    url ∈ urls /\ Download.filepath_of image_dir url = p /\
    requests_get url = inr (200, content) /\ files w !! p = Some content.

(** What a call of the pool holds, given the answers of the network. *)
Definition task_sound (requests_get : string -> string + Z * string)
    (image_dir : string) (w : world) (url : string) (t : Download.task) : Prop :=
  match t with
  | Download.Waiting u | Download.Checked u => u = url
  | Download.Received u response => u = url /\ response = requests_get url
  | Download.Finished =>
      forall content, requests_get url = inr (200, content) ->
                      exists_path (Download.filepath_of image_dir url) w = true
  end.

(** What every state of a run of the pool on [urls] from [w0] satisfies,
    as to the files written and the requests made. *)
Definition fetch_inv (requests_get : string -> string + Z * string)
    (image_dir : string) (urls : list string) (w0 : world)
    (st : list Download.task * world) : Prop :=
  (forall p, stored_answer requests_get image_dir urls w0 st.2 p) /\
  (exists rs, requests st.2 = (requests w0 ++ rs)%list /\
              (rs ++ pending st.1)%list ⊆+ urls) /\
  length st.1 = length urls /\
  (forall i url t, urls !! i = Some url -> st.1 !! i = Some t ->
                   task_sound requests_get image_dir st.2 url t).

(** A pair of a list of [create_url_dataset]: the URL of an image of one
    of the imagesets, answered with status 200 when URLs are verified,
    and the label file of the split that is named after the number of
    the image. *)
Definition resolved_pair (urlopen : string -> option (Z * string))
    (format_id : string -> string -> string) (base_url_template : string)
    (imagesets : list string) (verify_urls : bool) (labels_dir : string)
    (p : string * string) : Prop :=
  exists imageset_id n tail,
    imageset_id ∈ imagesets /\ is_number n = true /\ url_ending tail /\
    p.1 = Text.rstrip_by (Text.is_char "/") (format_id base_url_template imageset_id)
          +:+ "/image-" +:+ n +:+ tail /\
    p.2 = Text.join labels_dir ("image-" +:+ n +:+ ".txt") /\
    (verify_urls = true -> UrlYoloConverter.status_200 urlopen p.1 = true).

(** A URL that a line of a URL list gives back: no line break in it, no
    white space at its ends. *)
Definition clean_url (url : string) : bool :=
  Text.all_chars (fun c => negb (is_newline c)) url && starts_clean url && ends_clean url.

(** The pattern of [update_label_files] finds in [url] the image number
    [n] with the suffix [s]. *)
Definition names_image (url n s : string) : Prop :=
  exists pre whole rest,
    Re.search UrlUpdater.url_pattern url = Some (pre, [whole; n; s], rest).

(** The files after the file at [src] was moved to [dst]. *)
Definition move (src dst : string) (w : world) : world :=
  match files w !! src with
  | Some content =>
      {| files := <[dst := content]> (delete src (files w)); dirs := dirs w;
         requests := requests w; printed := printed w |}
  | None => w
  end.

(** [os.rename] on a file that is there: it takes the place of what is
    at the destination. *)
Definition renames_files (rename : string -> string -> world -> option world) : Prop :=
  forall src dst w content,
    files w !! src = Some content -> rename src dst w = Some (move src dst w).

(** The label files that are renamed, each with its path and its new
    path. *)
Definition label_moves (label_dir : string) (url_map : gmap string string)
    (labels : list string) : list (string * string) :=
  omap (fun f => new ← UrlUpdater.new_filename url_map f;
                 Some (Text.join label_dir f, Text.join label_dir new)) labels.

(** A label directory with two label files and a note, and the URL list
    of its split. *)
Definition labelled_world : world :=
  {| files := <["train.txt" :=
                  "https://host/images/1_145/image-0000601_EGD3NF.jpg" +:+ nl +:+
                  "https://host/images/1_145/image-0000602.jpg" +:+ nl]>
                (<["labels/image-0000601.txt" := "0 0.5 0.5 0.1 0.1"]>
                 (<["labels/image-0000602.txt" := "1 0.5 0.5 0.1 0.1"]>
                  (<["labels/notes.txt" := "checked"]> ∅)));
     dirs := {["labels"]}; requests := []; printed := [] |}.

Definition list_labels (path : string) (w : world) : result (list string) :=
  Ok ["notes.txt"; "image-0000602.txt"; "image-0000601.txt"].

Definition rename_file (src dst : string) (w : world) : option world :=
  match files w !! src with
  | Some _ => Some (move src dst w)
  | None => None
  end.


(** * Properties *)

(** ** Floats and the conversion to YOLO boxes *)

Lemma ltb_leb (a b : spec_float) : PyFloat.ltb a b = true -> PyFloat.leb a b = true.
Proof.
  unfold PyFloat.ltb, PyFloat.leb, SFltb, SFleb.
  destruct (SFcompare a b) as [[]|]; congruence.
Qed.

Lemma clamp_in_unit_interval (x : spec_float) :
  in_unit_interval (UrlYoloConverter.clamp x).
Proof.
  unfold UrlYoloConverter.clamp, PyFloat.py_min, PyFloat.py_max, in_unit_interval.
  destruct (PyFloat.ltb x PyFloat.one) eqn:H1.
  - destruct (PyFloat.ltb PyFloat.zero x) eqn:H0.
    + split; apply ltb_leb; assumption.
    + split; reflexivity.
  - split; reflexivity.
Qed.

Lemma bind_Ok {A B : Type} (r : result A) (k : A -> result B) (b : B) :
  (r ≫= k) = Ok b -> exists a, r = Ok a /\ k a = Ok b.
Proof. destruct r as [a|e]; [ exists a; split; [reflexivity|assumption] | discriminate ]. Qed.

(** C1. Every line that [convert_to_yolo_format] returns prints a box whose
    four values are between 0 and 1, whatever the coordinates, inside the
    image or not, in order or not, and whatever the image size. *)
Theorem normalized_box_in_unit_interval
    (a : UrlYoloConverter.annotation) (img_width img_height : Z)
    (class_mapping : option (gmap Z Z)) (line : string) :
  UrlYoloConverter.convert_to_yolo_format a img_width img_height class_mapping = Ok line ->
  exists b,
    UrlYoloConverter.normalized_box a img_width img_height class_mapping = Ok b /\
    line = UrlYoloConverter.format_box b /\
    in_unit_interval (UrlYoloConverter.x_center b) /\
    in_unit_interval (UrlYoloConverter.y_center b) /\
    in_unit_interval (UrlYoloConverter.width b) /\
    in_unit_interval (UrlYoloConverter.height b).
Proof.
  unfold UrlYoloConverter.convert_to_yolo_format. intros H.
  apply bind_Ok in H as (b & Hb & [= <-]).
  exists b. split; [exact Hb|]. split; [reflexivity|].
  unfold UrlYoloConverter.normalized_box in Hb.
  repeat (apply bind_Ok in Hb; destruct Hb as [? [_ Hb]]).
  injection Hb as <-. cbn.
  repeat split; apply clamp_in_unit_interval.
Qed.

Lemma normalized_box_in_unit_interval_witness :
  exists b,
    UrlYoloConverter.normalized_box sample_annotation 1920 1080 (Some {[ 10 := 0 ]}) = Ok b /\
    "0 0.104167 0.277778 0.104167 0.185185" = UrlYoloConverter.format_box b /\
    in_unit_interval (UrlYoloConverter.x_center b) /\
    in_unit_interval (UrlYoloConverter.y_center b) /\
    in_unit_interval (UrlYoloConverter.width b) /\
    in_unit_interval (UrlYoloConverter.height b).
Proof.
  apply (normalized_box_in_unit_interval sample_annotation 1920 1080 (Some {[ 10 := 0 ]})).
  vm_compute. reflexivity.
Defined.

(** C2, as the specification states it: the line of the sample box is not
    the one given there. *)
Lemma sample_line_differs :
  UrlYoloConverter.convert_to_yolo_format sample_annotation 1920 1080 (Some {[ 10 := 0 ]})
  <> Ok "0 0.104167 0.184259 0.104167 0.185185".
Proof. vm_compute. discriminate. Qed.

(** C2, amended. The sample box converts to the line whose second value is
    ((200+400)/2)/1080 = 0.277778. *)
Theorem sample_line :
  UrlYoloConverter.convert_to_yolo_format sample_annotation 1920 1080 (Some {[ 10 := 0 ]})
  = Ok "0 0.104167 0.277778 0.104167 0.185185".
Proof. vm_compute. reflexivity. Qed.

(** ** Malformed annotation lines *)

Lemma bad_line_raises :
  UrlYoloConverter.parse_annotation_format "10, 100, 200, 300, 400, x" = Raise ValueError.
Proof. vm_compute. reflexivity. Qed.

(** ** The manifest *)

(** C9. With the class mapping of [main], the manifest counts three classes
    and names two. *)
Theorem default_manifest_counts (abspath : string -> string) (output_dir : string) :
  let m := UrlYoloConverter.make_dataset_yaml abspath output_dir
             (Some UrlYoloConverter.default_class_mapping) in
  UrlYoloConverter.nc m = 3 /\ length (UrlYoloConverter.names m) = 2%nat.
Proof. split; vm_compute; reflexivity. Qed.

(** ** The train/val split *)

Section SplitFacts.

Variable urlopen : string -> option (Z * string).
Variable yaml_images : string -> result (list UrlYoloConverter.img_entry).
Variable rng : Type.
Variable shuffle : rng -> list (string * string) -> list (string * string) * rng.
Variable format_id : string -> string -> string.

Hypothesis shuffle_perm : forall g l, (shuffle g l).1 ≡ₚ l.

Lemma slice_to_from {A : Type} (k : Z) (l : list A) :
  (UrlYoloConverter.slice_to k l ++ UrlYoloConverter.slice_from k l)%list = l.
Proof. apply take_drop. Qed.

Lemma slice_bound_le (k : Z) (n : nat) : (UrlYoloConverter.slice_bound k n <= n)%nat.
Proof. unfold UrlYoloConverter.slice_bound. destruct (k <? 0) eqn:E; lia. Qed.

Lemma length_slice_to {A : Type} (k : Z) (l : list A) :
  length (UrlYoloConverter.slice_to k l) = UrlYoloConverter.slice_bound k (length l).
Proof.
  unfold UrlYoloConverter.slice_to. rewrite length_take.
  pose proof (slice_bound_le k (length l)). lia.
Qed.

Lemma copy_labels_spec pairs labels_dir data w data' w' :
  UrlYoloConverter.copy_labels pairs labels_dir data w = Ok (data', w') ->
  data' = (data ++ map (into labels_dir) pairs)%list.
Proof.
  revert data w. induction pairs as [|[image_url label_path] rest IH]; intros data w H.
  - cbn in H. injection H as <- _. by rewrite app_nil_r.
  - cbn [UrlYoloConverter.copy_labels] in H.
    destruct (files w !! label_path) as [content|]; [|discriminate].
    apply IH in H. rewrite H, <- app_assoc. reflexivity.
Qed.

Lemma split_imagesets_spec imagesets annotation_files output_dir base_url_template
    class_mapping split_ratio verify_urls :
  forall train_data val_data batches g w train_data' val_data' batches' g' w',
  UrlYoloConverter.split_imagesets urlopen yaml_images rng shuffle format_id
    imagesets annotation_files output_dir base_url_template class_mapping
    split_ratio verify_urls train_data val_data batches g w
    = Ok (train_data', val_data', batches', g', w') ->
  exists train_pairs val_pairs new,
    train_data' = (train_data ++
      map (into (Text.join (Text.join output_dir "labels") "train")) train_pairs)%list /\
    val_data' = (val_data ++
      map (into (Text.join (Text.join output_dir "labels") "val")) val_pairs)%list /\
    batches' = (batches ++ new)%list /\
    (train_pairs ++ val_pairs)%list ≡ₚ concat new /\
    length train_pairs = sum_list (map (train_count split_ratio) new).
Proof.
  induction imagesets as [|imageset_id rest IH];
    intros train_data val_data batches g w train_data' val_data' batches' g' w' H.
  - cbn in H. injection H as <- <- <- _ _.
    exists [], [], []. rewrite !app_nil_r. repeat split; reflexivity.
  - cbn [UrlYoloConverter.split_imagesets] in H.
    destruct (annotation_files !! imageset_id) as [annotation_file|]; [|by eapply IH].
    destruct (files w !! annotation_file) as [yaml_content|]; [|by eapply IH].
    apply bind_Ok in H. destruct H as [[pairs w1] [_ H]].
    pose proof (shuffle_perm g pairs) as Hperm.
    destruct (shuffle g pairs) as [shuffled g1]. cbn [fst] in Hperm.
    apply bind_Ok in H. destruct H as [k [Hk H]].
    apply bind_Ok in H. destruct H as [[tr1 w2] [Htr H]].
    apply bind_Ok in H. destruct H as [[vl1 w3] [Hvl H]].
    apply copy_labels_spec in Htr. apply copy_labels_spec in Hvl. subst tr1 vl1.
    apply IH in H.
    destruct H as (trs & vls & new & -> & -> & -> & Hp & Hlen).
    exists (UrlYoloConverter.slice_to k shuffled ++ trs)%list,
           (UrlYoloConverter.slice_from k shuffled ++ vls)%list,
           (pairs :: new).
    rewrite !map_app, <- !app_assoc. repeat split.
    + cbn [concat]. rewrite <- Hp, <- Hperm.
      rewrite <- (slice_to_from k shuffled) at 3.
      rewrite <- !app_assoc. f_equiv.
      rewrite !app_assoc. f_equiv. apply Permutation_app_comm.
    + rewrite length_app, length_slice_to, Hlen. cbn [map sum_list].
      f_equal. unfold train_count.
      rewrite <- (Permutation_length Hperm), Hk. reflexivity.
Qed.

End SplitFacts.

(** C3, as the specification states it: with ratio 0.5 and two resolved
    pairs, one per imageset, int(0.5 * 2) is 1 and yet train is empty. *)
Lemma two_imagesets_train_empty :
  exists d w',
    TwoImagesets.run TwoImagesets.half = Ok (d, tt, w') /\
    length (concat (UrlYoloConverter.resolved d)) = 2%nat /\
    UrlYoloConverter.split_index 2 TwoImagesets.half = Ok 1 /\
    length (UrlYoloConverter.train_data d) = 0%nat /\
    length (UrlYoloConverter.val_data d) = 2%nat.
Proof.
  eexists _, _. split; [ vm_compute; reflexivity | ].
  repeat split; vm_compute; reflexivity.
Qed.

Section SplitBatches.

Variable urlopen : string -> option (Z * string).
Variable yaml_images : string -> result (list UrlYoloConverter.img_entry).
Variable rng : Type.
Variable shuffle : rng -> list (string * string) -> list (string * string) * rng.
Variable format_id : string -> string -> string.

Hypothesis shuffle_perm : forall g l, (shuffle g l).1 ≡ₚ l.

(** Each imageset is shuffled and cut on its own. *)
Lemma split_imagesets_batches imagesets annotation_files output_dir base_url_template
    class_mapping split_ratio verify_urls :
  forall train_data val_data batches g w train_data' val_data' batches' g' w',
  UrlYoloConverter.split_imagesets urlopen yaml_images rng shuffle format_id
    imagesets annotation_files output_dir base_url_template class_mapping
    split_ratio verify_urls train_data val_data batches g w
    = Ok (train_data', val_data', batches', g', w') ->
  exists new shuffled,
    batches' = (batches ++ new)%list /\
    Forall2 (fun s batch => s ≡ₚ batch) shuffled new /\
    train_data' = (train_data ++
      map (into (Text.join (Text.join output_dir "labels") "train"))
          (concat (map (train_part split_ratio) shuffled)))%list /\
    val_data' = (val_data ++
      map (into (Text.join (Text.join output_dir "labels") "val"))
          (concat (map (val_part split_ratio) shuffled)))%list.
Proof.
  induction imagesets as [|imageset_id rest IH];
    intros train_data val_data batches g w train_data' val_data' batches' g' w' H.
  - cbn in H. injection H as <- <- <- _ _.
    exists [], []. rewrite !app_nil_r. repeat split; constructor.
  - cbn [UrlYoloConverter.split_imagesets] in H.
    destruct (annotation_files !! imageset_id) as [annotation_file|]; [|by eapply IH].
    destruct (files w !! annotation_file) as [yaml_content|]; [|by eapply IH].
    apply bind_Ok in H. destruct H as [[pairs w1] [_ H]].
    pose proof (shuffle_perm g pairs) as Hperm.
    destruct (shuffle g pairs) as [shuffled g1]. cbn [fst] in Hperm.
    apply bind_Ok in H. destruct H as [k [Hk H]].
    apply bind_Ok in H. destruct H as [[tr1 w2] [Htr H]].
    apply bind_Ok in H. destruct H as [[vl1 w3] [Hvl H]].
    apply copy_labels_spec in Htr. apply copy_labels_spec in Hvl. subst tr1 vl1.
    apply IH in H.
    destruct H as (new & sh & -> & Hall & -> & ->).
    exists (pairs :: new), (shuffled :: sh).
    assert (Hcount : train_count split_ratio shuffled
                     = UrlYoloConverter.slice_bound k (length shuffled)).
    { unfold train_count. by rewrite Hk. }
    split; [by rewrite <- app_assoc|]. split; [by constructor|].
    cbn [map concat].
    replace (train_part split_ratio shuffled) with (UrlYoloConverter.slice_to k shuffled)
      by (unfold train_part, UrlYoloConverter.slice_to; by rewrite Hcount).
    replace (val_part split_ratio shuffled) with (UrlYoloConverter.slice_from k shuffled)
      by (unfold val_part, UrlYoloConverter.slice_from; by rewrite Hcount).
    rewrite !map_app, <- !app_assoc. split; reflexivity.
Qed.

End SplitBatches.

Lemma length_train_parts (split_ratio : spec_float) (shuffled new : list (list (string * string))) :
  Forall2 (fun s batch => s ≡ₚ batch) shuffled new ->
  length (concat (map (train_part split_ratio) shuffled))
  = sum_list (map (train_count split_ratio) new).
Proof.
  induction 1 as [|s batch shuffled new Hperm _ IH]; [reflexivity|].
  cbn [map concat sum_list]. rewrite length_app, IH. f_equal.
  unfold train_part. rewrite length_take.
  assert (train_count split_ratio s = train_count split_ratio batch) as E.
  { unfold train_count. by rewrite (Permutation_length Hperm). }
  rewrite <- E. unfold train_count.
  destruct (UrlYoloConverter.split_index (length s) split_ratio) as [k|]; [|by cbn].
  pose proof (slice_bound_le k (length s)). unfold id. lia.
Qed.

Lemma parts_permutation (split_ratio : spec_float) (shuffled new : list (list (string * string))) :
  Forall2 (fun s batch => s ≡ₚ batch) shuffled new ->
  (concat (map (train_part split_ratio) shuffled) ++
   concat (map (val_part split_ratio) shuffled))%list ≡ₚ concat new.
Proof.
  induction 1 as [|s batch shuffled new Hperm _ IH]; [reflexivity|].
  cbn [map concat]. rewrite <- Hperm, <- IH.
  rewrite <- (take_drop (train_count split_ratio s) s) at 3.
  unfold train_part, val_part.
  rewrite <- !app_assoc. f_equiv.
  rewrite !app_assoc. f_equiv. apply Permutation_app_comm.
Qed.

(** C3, amended. In a run that ends normally the pairs of each imageset are
    shuffled and split on their own: of the shuffled pairs of an imageset
    with [N] pairs, the first [int(N * split_ratio)] go to train (the
    number taken as a slice bound takes it) and the others to val, and
    train and val are these parts, imageset after imageset.  So the size
    of train is the sum of these numbers, train and val taken together
    are the resolved pairs, each once, and when no URL was resolved twice,
    no URL is in both. *)
Theorem split_of_run
    (urlopen : string -> option (Z * string))
    (yaml_images : string -> result (list UrlYoloConverter.img_entry))
    (rng : Type)
    (shuffle : rng -> list (string * string) -> list (string * string) * rng)
    (abspath : string -> string)
    (yaml_dump : UrlYoloConverter.dataset_yaml -> string)
    (format_id : string -> string -> string)
    (imagesets : list string) (annotation_files : gmap string string)
    (output_dir base_url_template : string) (class_mapping : option (gmap Z Z))
    (split_ratio : spec_float) (verify_urls : bool) (g g' : rng) (w w' : world)
    (d : UrlYoloConverter.dataset) :
  (forall g l, (shuffle g l).1 ≡ₚ l) ->
  UrlYoloConverter.create_url_dataset urlopen yaml_images rng shuffle abspath yaml_dump
    format_id imagesets annotation_files output_dir base_url_template class_mapping
    split_ratio verify_urls g w = Ok (d, g', w') ->
  let pairs := concat (UrlYoloConverter.resolved d) in
  let train_urls := (UrlYoloConverter.train_data d).*1 in
  let val_urls := (UrlYoloConverter.val_data d).*1 in
  (exists shuffled,
     Forall2 (fun s batch => s ≡ₚ batch) shuffled (UrlYoloConverter.resolved d) /\
     UrlYoloConverter.train_data d
       = map (into (Text.join (Text.join output_dir "labels") "train"))
             (concat (map (train_part split_ratio) shuffled)) /\
     UrlYoloConverter.val_data d
       = map (into (Text.join (Text.join output_dir "labels") "val"))
             (concat (map (val_part split_ratio) shuffled))) /\
  length (UrlYoloConverter.train_data d)
    = sum_list (map (train_count split_ratio) (UrlYoloConverter.resolved d)) /\
  length (UrlYoloConverter.val_data d)
    = (length pairs - length (UrlYoloConverter.train_data d))%nat /\
  (exists train_pairs val_pairs,
     UrlYoloConverter.train_data d
       = map (into (Text.join (Text.join output_dir "labels") "train")) train_pairs /\
     UrlYoloConverter.val_data d
       = map (into (Text.join (Text.join output_dir "labels") "val")) val_pairs /\
     (train_pairs ++ val_pairs)%list ≡ₚ pairs) /\
  (train_urls ++ val_urls)%list ≡ₚ pairs.*1 /\
  (NoDup pairs.*1 -> forall url, url ∈ train_urls -> url ∉ val_urls).
Proof.
  intros Hshuffle H. unfold UrlYoloConverter.create_url_dataset in H.
  apply bind_Ok in H. destruct H as [[[[[tr vl] bs] g1] w1] [Hrun H]].
  injection H as <- _ _.
  apply (split_imagesets_batches _ _ _ _ _ Hshuffle) in Hrun.
  destruct Hrun as (new & shuffled & -> & Hall & -> & ->).
  cbn [UrlYoloConverter.train_data UrlYoloConverter.val_data UrlYoloConverter.resolved app].
  pose proof (parts_permutation split_ratio shuffled new Hall) as Hp.
  pose proof (length_train_parts split_ratio shuffled new Hall) as Hlen.
  set (trs := concat (map (train_part split_ratio) shuffled)) in *.
  set (vls := concat (map (val_part split_ratio) shuffled)) in *.
  assert (Hurls : ((map (into (Text.join (Text.join output_dir "labels") "train")) trs).*1 ++
                   (map (into (Text.join (Text.join output_dir "labels") "val")) vls).*1)%list
                  ≡ₚ (concat new).*1).
  { rewrite <- Hp, fmap_app. f_equiv; rewrite <- list_fmap_compose; reflexivity. }
  split; [|split; [|split; [|split; [|split]]]].
  - exists shuffled. split; [exact Hall|]. split; reflexivity.
  - rewrite length_map. exact Hlen.
  - rewrite !length_map, <- (Permutation_length Hp), length_app. lia.
  - exists trs, vls. split; [reflexivity | split; [reflexivity | exact Hp]].
  - exact Hurls.
  - intros Hnd url Hin Hin'.
    rewrite <- Hurls in Hnd. apply NoDup_app in Hnd.
    destruct Hnd as (_ & Hdisj & _). exact (Hdisj url Hin Hin').
Qed.

Lemma split_of_run_witness :
  exists d w',
    TwoPairs.run TwoImagesets.half = Ok (d, tt, w') /\
    (UrlYoloConverter.train_data d).*1
      = ["https://host/images/1_145/image-00006011.jpg";
         "https://host/images/1_146/image-00006021.jpg"] /\
    (UrlYoloConverter.val_data d).*1
      = ["https://host/images/1_145/image-00006012.jpg";
         "https://host/images/1_146/image-00006022.jpg"] /\
    exists shuffled,
      Forall2 (fun s batch => s ≡ₚ batch) shuffled (UrlYoloConverter.resolved d) /\
      UrlYoloConverter.train_data d
        = map (into (Text.join (Text.join "out" "labels") "train"))
              (concat (map (train_part TwoImagesets.half) shuffled)) /\
      UrlYoloConverter.val_data d
        = map (into (Text.join (Text.join "out" "labels") "val"))
              (concat (map (val_part TwoImagesets.half) shuffled)).
Proof.
  destruct (TwoPairs.run TwoImagesets.half) as [[[d []] w']|e] eqn:Hrun;
    [|vm_compute in Hrun; discriminate].
  exists d, w'. split; [reflexivity|].
  assert (Hd : Ok (d, tt, w') = TwoPairs.run TwoImagesets.half) by done.
  split; [|split].
  - vm_compute in Hd. by injection Hd as -> _.
  - vm_compute in Hd. by injection Hd as -> _.
  - apply (proj1 (split_of_run TwoImagesets.urlopen TwoPairs.yaml_images unit
                    TwoImagesets.shuffle (fun p => p) (fun _ => "") TwoImagesets.format_id
                    ["145"; "146"] TwoImagesets.annotation_files "out"
                    "https://host/images/1_" None TwoImagesets.half false tt tt
                    TwoImagesets.start w' d (fun g l => reflexivity _) Hrun)).
Defined.

(** ** A malformed line in a batch *)

Lemma process_bad_entry
    (urlopen : string -> option (Z * string))
    (yaml_images : string -> result (list UrlYoloConverter.img_entry))
    (yaml_content base_url output_dir : string)
    (class_mapping : option (gmap Z Z))
    (rest : list UrlYoloConverter.img_entry) (w : world) :
  yaml_images yaml_content = Ok (bad_entry :: rest) ->
  UrlYoloConverter.process_yaml_to_yolo urlopen yaml_images
    yaml_content base_url output_dir class_mapping false w = Raise ValueError.
Proof.
  intros Hy. unfold UrlYoloConverter.process_yaml_to_yolo.
  rewrite Hy. cbn [mbind result_bind bind].
  cbn [UrlYoloConverter.process_entries].
  replace (Re.search UrlYoloConverter.meta_pattern (UrlYoloConverter.meta bad_entry))
    with (Some ("", ["image-0000601.jpg, 1920, 1080"; "0000601"; "1920"; "1080"], ""))
    by (vm_compute; reflexivity).
  replace (py_int "1920") with (Ok 1920) by (vm_compute; reflexivity).
  replace (py_int "1080") with (Ok 1080) by (vm_compute; reflexivity).
  cbn [mbind result_bind bind].
  destruct (UrlYoloConverter.get_actual_image_url urlopen base_url "0000601" _) as [image_url w1].
  cbn [andb].
  cbn [UrlYoloConverter.annotations bad_entry UrlYoloConverter.convert_lines].
  rewrite bad_line_raises. reflexivity.
Qed.

(** C7. A record with an annotation line whose last field is not an integer
    stops the run with a [ValueError]: [process_yaml_to_yolo] returns no
    pair for the records after it, and [create_url_dataset] builds no
    dataset, whatever imagesets follow. *)
Theorem non_integer_field_aborts
    (urlopen : string -> option (Z * string))
    (yaml_images : string -> result (list UrlYoloConverter.img_entry))
    (rng : Type)
    (shuffle : rng -> list (string * string) -> list (string * string) * rng)
    (abspath : string -> string)
    (yaml_dump : UrlYoloConverter.dataset_yaml -> string)
    (format_id : string -> string -> string)
    (imageset_id : string) (imagesets : list string)
    (annotation_files : gmap string string)
    (annotation_file yaml_content output_dir base_url_template : string)
    (class_mapping : option (gmap Z Z)) (split_ratio : spec_float)
    (rest : list UrlYoloConverter.img_entry) (g : rng) (w : world) :
  annotation_files !! imageset_id = Some annotation_file ->
  files w !! annotation_file = Some yaml_content ->
  yaml_images yaml_content = Ok (bad_entry :: rest) ->
  UrlYoloConverter.process_yaml_to_yolo urlopen yaml_images yaml_content
    (format_id base_url_template imageset_id) output_dir class_mapping false w
    = Raise ValueError /\
  UrlYoloConverter.create_url_dataset urlopen yaml_images rng shuffle abspath yaml_dump
    format_id (imageset_id :: imagesets) annotation_files output_dir base_url_template
    class_mapping split_ratio false g w = Raise ValueError.
Proof.
  intros Hann Hfile Hy. split; [by apply (process_bad_entry _ _ _ _ _ _ rest)|].
  unfold UrlYoloConverter.create_url_dataset.
  cbn [UrlYoloConverter.split_imagesets]. rewrite Hann.
  cbn [makedirs files]. rewrite Hfile.
  rewrite (process_bad_entry urlopen yaml_images yaml_content _ _ class_mapping rest _ Hy).
  reflexivity.
Qed.

Lemma non_integer_field_aborts_witness :
  UrlYoloConverter.create_url_dataset TwoImagesets.urlopen bad_batch unit
    TwoImagesets.shuffle (fun p => p) (fun _ => "") TwoImagesets.format_id
    ["145"; "146"] TwoImagesets.annotation_files "out" "https://host/images/1_" None
    TwoImagesets.half false tt TwoImagesets.start = Raise ValueError.
Proof.
  refine (proj2 (non_integer_field_aborts TwoImagesets.urlopen bad_batch unit
                   TwoImagesets.shuffle (fun p => p) (fun _ => "") TwoImagesets.format_id
                   "145" ["146"] TwoImagesets.annotation_files "a.yaml" "0000601"
                   "out" "https://host/images/1_" None TwoImagesets.half _ tt
                   TwoImagesets.start _ _ _)).
  - vm_compute. reflexivity.
  - vm_compute. reflexivity.
  - reflexivity.
Defined.

(** ** Strings *)

#[local] Arguments append !_ _ / : simpl nomatch.

Section TextFacts.

Lemma append_nil_r (s : string) : s +:+ "" = s.
Proof. induction s as [|c s IH]; simpl; [reflexivity | by rewrite IH]. Qed.

Lemma append_assoc (a b c : string) : (a +:+ b) +:+ c = a +:+ (b +:+ c).
Proof. induction a as [|x a IH]; simpl; [reflexivity | by rewrite IH]. Qed.

Lemma all_chars_app (p : ascii -> bool) (a b : string) :
  Text.all_chars p (a +:+ b) = Text.all_chars p a && Text.all_chars p b.
Proof.
  induction a as [|c a IH]; simpl; [reflexivity|].
  rewrite IH. by rewrite andb_assoc.
Qed.

(** White space is taken off the left only up to the first other
    character. *)
Lemma lstrip_by_keeps (p : ascii -> bool) (s : string) :
  match s with String c _ => p c = false | "" => True end ->
  Text.lstrip_by p s = s.
Proof. destruct s as [|c s]; simpl; [reflexivity|]. by intros ->. Qed.

Lemma rstrip_by_app (p : ascii -> bool) (a b : string) :
  Text.rstrip_by p (a +:+ b) =
    if Text.is_empty (Text.rstrip_by p b) then Text.rstrip_by p a
    else a +:+ Text.rstrip_by p b.
Proof.
  induction a as [|c a IH]; simpl.
  - destruct (Text.rstrip_by p b); reflexivity.
  - rewrite IH. destruct (Text.is_empty (Text.rstrip_by p b)) eqn:E; [reflexivity|].
    destruct a; cbn; [ by rewrite E | reflexivity ].
Qed.

Lemma rstrip_by_keeps (p : ascii -> bool) (s : string) :
  match Text.last_char s with Some c => p c = false | None => True end ->
  Text.rstrip_by p s = s.
Proof.
  induction s as [|c s IH]; [reflexivity|].
  destruct s as [|d s].
  - cbn. by intros ->.
  - intros H. change (Text.last_char (String c (String d s)))
      with (Text.last_char (String d s)) in H.
    specialize (IH H).
    change (Text.rstrip_by p (String c (String d s)))
      with (let r := Text.rstrip_by p (String d s) in
            if Text.is_empty r && p c then "" else String c r).
    rewrite IH. reflexivity.
Qed.

Lemma split_on_clean (sep : ascii) (a : string) :
  Text.all_chars (fun c => negb (Ascii.eqb c sep)) a = true ->
  Text.split_on sep a = [a].
Proof.
  induction a as [|c a IH]; simpl; [reflexivity|].
  intros [Hc Ha]%andb_prop. rewrite (negb_true_iff _) in Hc. rewrite Hc.
  by rewrite (IH Ha).
Qed.

Lemma split_on_app (sep : ascii) (a b : string) :
  Text.all_chars (fun c => negb (Ascii.eqb c sep)) a = true ->
  Text.split_on sep (a +:+ String sep b) = a :: Text.split_on sep b.
Proof.
  induction a as [|c a IH]; simpl.
  - intros _. by rewrite Ascii.eqb_refl.
  - intros [Hc Ha]%andb_prop. rewrite (negb_true_iff _) in Hc. rewrite Hc.
    by rewrite (IH Ha).
Qed.

Lemma file_lines_line (l rest : string) :
  Text.all_chars (fun c => negb (is_newline c)) l = true ->
  Text.file_lines (l +:+ String "010" rest) = (l +:+ String "010" "") :: Text.file_lines rest.
Proof.
  induction l as [|c l IH]; intros H.
  - reflexivity.
  - cbn in H. apply andb_prop in H as [Hc Hl].
    unfold is_newline in Hc. rewrite negb_orb in Hc.
    apply andb_prop in Hc as [Hn Hr].
    rewrite (negb_true_iff _) in Hn. rewrite (negb_true_iff _) in Hr.
    change (Text.file_lines (String c l +:+ String "010" rest))
      with (if Ascii.eqb c "010" then String "010" "" :: Text.file_lines (l +:+ String "010" rest)
            else if Ascii.eqb c "013" then
              match l +:+ String "010" rest with
              | String c2 s'' =>
                  if Ascii.eqb c2 "010" then String "010" "" :: Text.file_lines s''
                  else String "010" "" :: Text.file_lines (l +:+ String "010" rest)
              | "" => [String "010" ""]
              end
            else match Text.file_lines (l +:+ String "010" rest) with
                 | x :: ls => String c x :: ls
                 | [] => [String c ""]
                 end).
    rewrite Hn, Hr, (IH Hl). reflexivity.
Qed.

End TextFacts.

(** ** Dictionaries *)

Section DictFacts.
Context {K V : Type} `{EqDecision K}.
Implicit Types (d : list (K * V)) (k : K) (v : V).

Lemma get_set_eq k v d : PyDict.get k (PyDict.set k v d) = Some v.
Proof.
  induction d as [|[k' v'] d IH]; simpl.
  - by rewrite decide_True.
  - destruct (decide (k = k')) as [->|Hne]; simpl.
    + by rewrite decide_True.
    + by rewrite decide_False.
Qed.

Lemma get_set_ne k k' v d : k ≠ k' -> PyDict.get k' (PyDict.set k v d) = PyDict.get k' d.
Proof.
  intros Hne. induction d as [|[k0 v0] d IH]; simpl.
  - by rewrite decide_False.
  - destruct (decide (k = k0)) as [->|Hne0]; simpl.
    + by rewrite !decide_False.
    + by rewrite IH.
Qed.

Lemma set_same k v d : PyDict.get k d = Some v -> PyDict.set k v d = d.
Proof.
  induction d as [|[k0 v0] d IH]; simpl; [discriminate|].
  destruct (decide (k = k0)) as [->|Hne]; [by intros [= ->]|].
  intros Hd. by rewrite IH.
Qed.

Lemma get_None k d : PyDict.get k d = None <-> k ∉ PyDict.keys d.
Proof.
  unfold PyDict.keys. induction d as [|[k0 v0] d IH]; simpl.
  - split; [intros _; apply not_elem_of_nil | done].
  - rewrite not_elem_of_cons. destruct (decide (k = k0)) as [->|Hne].
    + split; [discriminate | intros [? _]; done].
    + rewrite IH. tauto.
Qed.

Lemma get_app k d1 d2 :
  PyDict.get k (d1 ++ d2)%list =
    match PyDict.get k d1 with Some v => Some v | None => PyDict.get k d2 end.
Proof.
  induction d1 as [|[k0 v0] d1 IH]; simpl; [reflexivity|].
  destruct (decide (k = k0)); [reflexivity | exact IH].
Qed.

Lemma set_fresh k v d : PyDict.get k d = None -> PyDict.set k v d = (d ++ [(k, v)])%list.
Proof.
  induction d as [|[k0 v0] d IH]; simpl; [reflexivity|].
  destruct (decide (k = k0)); [discriminate|]. intros Hd. by rewrite IH.
Qed.

Lemma set_app_r k v d1 d2 :
  PyDict.get k d1 = None ->
  PyDict.set k v (d1 ++ d2)%list = (d1 ++ PyDict.set k v d2)%list.
Proof.
  induction d1 as [|[k0 v0] d1 IH]; simpl; [reflexivity|].
  destruct (decide (k = k0)); [discriminate|]. intros Hd. by rewrite IH.
Qed.

Lemma set_wf k v d : PyDict.wf d -> PyDict.wf (PyDict.set k v d).
Proof.
  unfold PyDict.wf, PyDict.keys. induction d as [|[k0 v0] d IH]; simpl.
  - intros _. apply NoDup_singleton.
  - rewrite NoDup_cons. intros [Hk0 Hd].
    destruct (decide (k = k0)) as [->|Hne]; simpl.
    + by apply NoDup_cons.
    + apply NoDup_cons. split; [|by apply IH].
      apply get_None. rewrite get_set_ne by done. by apply get_None.
Qed.

End DictFacts.

(** ** Matching *)

Section ReFacts.

Lemma strip_prefix_sound (l s r : string) :
  Re.strip_prefix l s = Some r -> s = l +:+ r.
Proof.
  revert s. induction l as [|a l IH]; intros s; simpl.
  - by intros [= ->].
  - destruct s as [|b s]; [discriminate|].
    destruct (Ascii.eqb a b) eqn:E; [|discriminate].
    apply Ascii.eqb_eq in E as ->. intros H. by rewrite (IH s H).
Qed.

Lemma span_sound (cls : ascii -> bool) (s a b : string) :
  Re.span cls s = (a, b) -> s = a +:+ b /\ Text.all_chars cls a = true.
Proof.
  revert a b. induction s as [|c s IH]; intros a b; simpl.
  - by intros [= <- <-].
  - destruct (cls c) eqn:E.
    + destruct (Re.span cls s) as [a' b'] eqn:Hs. intros [= <- <-].
      destruct (IH a' b' eq_refl) as [-> Ha]. simpl. by rewrite E, Ha.
    + by intros [= <- <-].
Qed.

Lemma cuts_sound (a b x y : string) :
  (x, y) ∈ Re.cuts a b -> a +:+ b = x +:+ y /\ exists z, a = x +:+ z.
Proof.
  revert x y. induction a as [|c a IH]; intros x y; simpl.
  - intros [= -> ->]%list_elem_of_singleton. split; [reflexivity | by exists ""].
  - rewrite elem_of_app, list_elem_of_fmap, list_elem_of_singleton.
    intros [([x' y'] & [= -> ->] & Hin)|[= -> ->]].
    + destruct (IH _ _ Hin) as [Hxy [z ->]]. simpl in *.
      split; [by rewrite Hxy | by exists z].
    + split; [reflexivity | by exists (String c a)].
Qed.

Lemma choices_sound (it : Re.item) (s seg r : string) :
  (seg, r) ∈ Re.choices it s -> s = seg +:+ r.
Proof.
  destruct it as [l|cls|cls|c|]; simpl.
  - destruct (Re.strip_prefix l s) as [r'|] eqn:E; [|by intros ?%elem_of_nil].
    intros [= -> ->]%list_elem_of_singleton. by apply strip_prefix_sound.
  - destruct (Re.span cls s) as [a b] eqn:E.
    apply span_sound in E as [-> _].
    intros [_ Hin]%list_elem_of_filter. by apply cuts_sound in Hin as [-> _].
  - destruct (Re.span cls s) as [a b] eqn:E.
    apply span_sound in E as [-> _].
    intros Hin. by apply cuts_sound in Hin as [-> _].
  - destruct s as [|d s]; [by intros [= -> ->]%list_elem_of_singleton|].
    destruct (Ascii.eqb d c).
    + rewrite elem_of_cons, list_elem_of_singleton. by intros [[= -> ->]|[= -> ->]].
    + by intros [= -> ->]%list_elem_of_singleton.
  - destruct s as [|c [|d s]]; [by intros [= -> ->]%list_elem_of_singleton| |by intros ?%elem_of_nil].
    destruct (Ascii.eqb c "010"); [by intros [= -> ->]%list_elem_of_singleton|by intros ?%elem_of_nil].
Qed.

Lemma first_match_Some {A B : Type} (f : A -> option B) (l : list A) (y : B) :
  Re.first_match f l = Some y -> exists x, x ∈ l /\ f x = Some y.
Proof.
  induction l as [|x l IH]; simpl; [discriminate|].
  destruct (f x) as [y'|] eqn:E.
  - intros [= ->]. exists x. split; [apply list_elem_of_here | done].
  - intros (x' & Hin & Hx)%IH. exists x'. split; [by apply list_elem_of_further | done].
Qed.

(** A match is made of one choice for each item. *)
Lemma match_items_cons (it : Re.item) (p : list Re.item) (s : string)
    (segs : list string) (rest : string) :
  Re.match_items (it :: p) s = Some (segs, rest) ->
  exists seg r segs', (seg, r) ∈ Re.choices it s /\
                      Re.match_items p r = Some (segs', rest) /\ segs = seg :: segs'.
Proof.
  cbn [Re.match_items]. intros ([seg r] & Hin & Hf)%first_match_Some. simpl in Hf.
  destruct (Re.match_items p r) as [[segs' rest']|] eqn:Hp; simpl in Hf; [|discriminate].
  injection Hf as <- <-. by exists seg, r, segs'.
Qed.

Lemma match_items_sound (p : list Re.item) :
  forall s segs rest,
  Re.match_items p s = Some (segs, rest) -> s = Re.concat_str segs +:+ rest.
Proof.
  induction p as [|it p IH]; intros s segs rest.
  - by intros [= <- <-].
  - intros (seg & r & segs' & Hin & Hp & ->)%match_items_cons.
    simpl. rewrite (choices_sound _ _ _ _ Hin), (IH _ _ _ Hp).
    by rewrite append_assoc.
Qed.

Lemma find_sound (p : list Re.item) :
  forall s pre segs rest,
  Re.find p s = Some (pre, segs, rest) -> s = pre +:+ Re.concat_str segs +:+ rest.
Proof.
  induction s as [|c s IH]; intros pre segs rest; simpl.
  - destruct (Re.match_items p "") as [[segs' rest']|] eqn:Hm; [|discriminate].
    intros [= <- <- <-]. exact (match_items_sound _ _ _ _ Hm).
  - destruct (Re.match_items p (String c s)) as [[segs' rest']|] eqn:Hm.
    + intros [= <- <- <-]. exact (match_items_sound _ _ _ _ Hm).
    + destruct (Re.find p s) as [[[pre' segs'] rest']|] eqn:Hf; simpl; [|discriminate].
      intros [= <- <- <-]. simpl. by rewrite <- (IH _ _ _ eq_refl).
Qed.

Lemma length_append (a b : string) :
  String.length (a +:+ b) = (String.length a + String.length b)%nat.
Proof. induction a as [|c a IH]; simpl; [reflexivity | by rewrite IH]. Qed.

Lemma choices_lit (l s seg r : string) :
  (seg, r) ∈ Re.choices (Re.Lit l) s -> seg = l.
Proof.
  simpl. destruct (Re.strip_prefix l s); [|by intros ?%elem_of_nil].
  by intros [= -> _]%list_elem_of_singleton.
Qed.

Lemma all_chars_prefix (cls : ascii -> bool) (x z : string) :
  Text.all_chars cls (x +:+ z) = true -> Text.all_chars cls x = true.
Proof. rewrite all_chars_app. by intros [-> _]%andb_prop. Qed.

Lemma choices_digits (s seg r : string) :
  (seg, r) ∈ Re.choices (Re.Plus Text.is_digit) s -> is_number seg = true.
Proof.
  simpl. destruct (Re.span Text.is_digit s) as [a b] eqn:E.
  apply span_sound in E as [_ Ha].
  intros [Hne Hin]%list_elem_of_filter. simpl in Hne.
  apply cuts_sound in Hin as [_ [z ->]].
  unfold is_number. by rewrite Hne, (all_chars_prefix _ _ _ Ha).
Qed.

Lemma match_url_items (s : string) (segs : list string) (rest : string) :
  Re.match_items url_items s = Some (segs, rest) ->
  exists i n, segs = ["images/1_"; i; "/image-"; n; ".jpg"] /\
              is_number i = true /\ is_number n = true.
Proof.
  unfold url_items, UrlFixer.url_pattern, Re.items.
  intros (g1 & r1 & segs1 & H1 & Hm & ->)%match_items_cons.
  apply match_items_cons in Hm as (g2 & r2 & segs2 & H2 & Hm & ->).
  apply match_items_cons in Hm as (g3 & r3 & segs3 & H3 & Hm & ->).
  apply match_items_cons in Hm as (g4 & r4 & segs4 & H4 & Hm & ->).
  apply match_items_cons in Hm as (g5 & r5 & segs5 & H5 & Hm & ->).
  injection Hm as <- _.
  apply choices_lit in H1 as ->. apply choices_lit in H3 as ->.
  apply choices_lit in H5 as ->.
  exists g2, g4. by rewrite (choices_digits _ _ _ H2), (choices_digits _ _ _ H4).
Qed.

Lemma find_url_items (s pre : string) (segs : list string) (rest : string) :
  Re.find url_items s = Some (pre, segs, rest) ->
  exists i n, segs = ["images/1_"; i; "/image-"; n; ".jpg"] /\
              is_number i = true /\ is_number n = true /\
              s = pre +:+ "images/1_" +:+ i +:+ "/image-" +:+ n +:+ ".jpg" +:+ rest.
Proof.
  intros Hf. pose proof (find_sound _ _ _ _ _ Hf) as Hs.
  assert (Hm : exists s', Re.match_items url_items s' = Some (segs, rest)).
  { clear Hs. revert pre Hf. induction s as [|c s IH]; intros pre; cbn [Re.find].
    - destruct (Re.match_items url_items "") as [[segs' rest']|] eqn:Hm; [|discriminate].
      intros [= <- <- <-]. by exists "".
    - destruct (Re.match_items url_items (String c s)) as [[segs' rest']|] eqn:Hm.
      + intros [= <- <- <-]. by exists (String c s).
      + destruct (Re.find url_items s) as [[[pre' segs'] rest']|] eqn:Hf;
          cbn [mbind option_bind]; [|discriminate].
        intros [= <- <- <-]. by eapply IH. }
  destruct Hm as [s' Hm]. apply match_url_items in Hm as (i & n & -> & Hi & Hn).
  exists i, n. repeat split; try done.
  rewrite Hs. cbn [Re.concat_str]. rewrite !append_assoc. reflexivity.
Qed.

End ReFacts.

(** ** The suffix cache *)

Section CacheFacts.
Implicit Types (suffixes : list (string * list (string * string))).

Lemma lookup_store_eq suffixes i n s :
  UrlFixer.lookup_suffix (UrlFixer.store_suffix suffixes i n s) i n = Some s.
Proof.
  unfold UrlFixer.lookup_suffix, UrlFixer.store_suffix.
  rewrite get_set_eq. simpl. apply get_set_eq.
Qed.

Lemma lookup_store_ne suffixes i n s i' n' :
  (i', n') ≠ (i, n) ->
  UrlFixer.lookup_suffix (UrlFixer.store_suffix suffixes i n s) i' n'
  = UrlFixer.lookup_suffix suffixes i' n'.
Proof.
  intros Hne. unfold UrlFixer.lookup_suffix, UrlFixer.store_suffix.
  destruct (decide (i = i')) as [<-|Hi].
  - rewrite get_set_eq. simpl.
    rewrite get_set_ne by congruence.
    destruct (PyDict.get i suffixes); reflexivity.
  - by rewrite get_set_ne.
Qed.

Lemma store_same suffixes i n s :
  UrlFixer.lookup_suffix suffixes i n = Some s ->
  UrlFixer.store_suffix suffixes i n s = suffixes.
Proof.
  unfold UrlFixer.lookup_suffix, UrlFixer.store_suffix.
  destruct (PyDict.get i suffixes) as [inner|] eqn:E; simpl; [|discriminate].
  intros Hn. rewrite (set_same _ _ _ Hn). by apply set_same.
Qed.

End CacheFacts.

Section CacheRoundTrip.
Implicit Types (suffixes : list (string * list (string * string))).

Lemma no_separator_comma s :
  no_separator s = true ->
  Text.all_chars (fun c => negb (Ascii.eqb c ",")) s = true.
Proof.
  unfold no_separator. induction s as [|c s IH]; simpl; [done|].
  intros [Hc Hs]%andb_prop. rewrite (IH Hs), andb_true_r.
  rewrite negb_orb in Hc. by apply andb_prop in Hc as [-> _].
Qed.

Lemma no_separator_newline s :
  no_separator s = true ->
  Text.all_chars (fun c => negb (is_newline c)) s = true.
Proof.
  unfold no_separator. induction s as [|c s IH]; simpl; [done|].
  intros [Hc Hs]%andb_prop. rewrite (IH Hs), andb_true_r.
  rewrite negb_orb in Hc. by apply andb_prop in Hc as [_ ->].
Qed.

Lemma rstrip_by_cons_keep (p : ascii -> bool) c x :
  p c = false -> Text.rstrip_by p (String c x) = String c (Text.rstrip_by p x).
Proof. intros Hc. simpl. by rewrite Hc, andb_false_r. Qed.

Lemma strip_cache_line i n s :
  starts_clean i = true -> ends_clean s = true ->
  Text.strip (UrlFixer.cache_line i n s) = i +:+ "," +:+ n +:+ "," +:+ s.
Proof.
  intros Hi Hs. unfold Text.strip, UrlFixer.cache_line.
  rewrite lstrip_by_keeps.
  2:{ destruct i as [|c i]; simpl; [reflexivity|].
      simpl in Hi. by apply negb_true_iff. }
  assert (Hend : Text.rstrip_by Text.is_space (s +:+ String "010" "") = s).
  { rewrite rstrip_by_app. simpl.
    apply rstrip_by_keeps. unfold ends_clean in Hs.
    destruct (Text.last_char s); [by apply negb_true_iff | done]. }
  assert (Htail : Text.rstrip_by Text.is_space ("," +:+ s +:+ String "010" "")
                  = "," +:+ s).
  { change ("," +:+ s +:+ String "010" "") with (String "," (s +:+ String "010" "")).
    rewrite rstrip_by_cons_keep by reflexivity. by rewrite Hend. }
  assert (Hmid : Text.rstrip_by Text.is_space ("," +:+ n +:+ "," +:+ s +:+ String "010" "")
                 = "," +:+ n +:+ "," +:+ s).
  { change ("," +:+ n +:+ "," +:+ s +:+ String "010" "")
      with (String "," (n +:+ "," +:+ s +:+ String "010" "")).
    rewrite rstrip_by_cons_keep by reflexivity.
    rewrite rstrip_by_app, Htail. reflexivity. }
  rewrite rstrip_by_app, Hmid. reflexivity.
Qed.

Lemma split_cache_line i n s :
  no_separator i = true -> no_separator n = true -> no_separator s = true ->
  Text.split_on "," (i +:+ "," +:+ n +:+ "," +:+ s) = [i; n; s].
Proof.
  intros Hi Hn Hs.
  change (i +:+ "," +:+ n +:+ "," +:+ s) with (i +:+ String "," (n +:+ String "," s)).
  rewrite split_on_app by by apply no_separator_comma.
  rewrite split_on_app by by apply no_separator_comma.
  rewrite split_on_clean by by apply no_separator_comma.
  reflexivity.
Qed.

Lemma load_cache_line suffixes i n s :
  no_separator i = true -> starts_clean i = true ->
  no_separator n = true ->
  no_separator s = true -> ends_clean s = true ->
  UrlFixer.load_line suffixes (UrlFixer.cache_line i n s) = UrlFixer.store_suffix suffixes i n s.
Proof.
  intros Hi Hi' Hn Hs Hs'. unfold UrlFixer.load_line.
  rewrite strip_cache_line by done. by rewrite split_cache_line.
Qed.

Lemma cache_line_newline_free i n s :
  no_separator i = true -> no_separator n = true -> no_separator s = true ->
  Text.all_chars (fun c => negb (is_newline c)) (i +:+ "," +:+ n +:+ "," +:+ s) = true.
Proof.
  intros Hi Hn Hs. rewrite !all_chars_app.
  rewrite (no_separator_newline i Hi), (no_separator_newline n Hn),
    (no_separator_newline s Hs).
  reflexivity.
Qed.

End CacheRoundTrip.

Section CacheFold.
Implicit Types (suffixes acc : list (string * list (string * string))).

Lemma cache_line_split i n s :
  UrlFixer.cache_line i n s = (i +:+ "," +:+ n +:+ "," +:+ s) +:+ String "010" "".
Proof. unfold UrlFixer.cache_line. by rewrite !append_assoc. Qed.

Lemma file_lines_concat (ls : list string) :
  Forall written_line ls -> Text.file_lines (Re.concat_str ls) = ls.
Proof.
  induction 1 as [|l ls (x & -> & Hx) _ IH]; [reflexivity|].
  simpl. rewrite append_assoc. simpl.
  rewrite file_lines_line by done. by rewrite IH.
Qed.

Lemma imageset_lines_written i inner :
  no_separator i = true -> Forall (fun e => entry_ok e = true) inner ->
  Forall written_line (map (fun '(n, s) => UrlFixer.cache_line i n s) inner).
Proof.
  intros Hi. induction 1 as [|[n s] inner He _ IH]; simpl; constructor; [|done].
  unfold entry_ok in He. simpl in He.
  apply andb_prop in He as [[Hn Hs]%andb_prop _].
  exists (i +:+ "," +:+ n +:+ "," +:+ s). split; [apply cache_line_split|].
  by apply cache_line_newline_free.
Qed.

Lemma cache_lines_written suffixes :
  Forall imageset_ok suffixes -> Forall written_line (UrlFixer.cache_lines suffixes).
Proof.
  unfold UrlFixer.cache_lines.
  induction 1 as [|[i inner] suffixes (Hi & _ & _ & _ & Hin) _ IH]; simpl; [constructor|].
  apply Forall_app. split; [|done]. by apply imageset_lines_written.
Qed.

Lemma load_inner acc i inner :
  PyDict.get i acc = None ->
  no_separator i = true -> starts_clean i = true ->
  Forall (fun e => entry_ok e = true) inner ->
  forall pre, NoDup ((pre ++ inner)%list.*1) ->
  fold_left UrlFixer.load_line (map (fun '(n, s) => UrlFixer.cache_line i n s) inner)
    (acc ++ [(i, pre)])%list
  = (acc ++ [(i, (pre ++ inner)%list)])%list.
Proof.
  intros Hacc Hi Hi'. induction 1 as [|[n s] inner He _ IH]; intros pre Hnd; simpl.
  - by rewrite app_nil_r.
  - unfold entry_ok in He. simpl in He.
    apply andb_prop in He as [[Hn Hs]%andb_prop Hs'].
    rewrite load_cache_line by done.
    unfold UrlFixer.store_suffix.
    rewrite get_app, Hacc. simpl. rewrite decide_True by done. simpl.
    rewrite set_app_r by done. simpl. rewrite decide_True by done.
    rewrite set_fresh.
    2:{ apply get_None. unfold PyDict.keys.
        rewrite fmap_app in Hnd. apply NoDup_app in Hnd as (_ & Hdisj & _).
        intros Hin. apply (Hdisj n Hin). simpl. apply list_elem_of_here. }
    rewrite IH.
    + by rewrite <- app_assoc.
    + by rewrite <- app_assoc.
Qed.

Lemma load_imageset acc i inner :
  PyDict.get i acc = None -> imageset_ok (i, inner) ->
  fold_left UrlFixer.load_line (map (fun '(n, s) => UrlFixer.cache_line i n s) inner) acc
  = (acc ++ [(i, inner)])%list.
Proof.
  intros Hacc (Hi & Hi' & Hne & Hnd & Hin). simpl in *.
  destruct inner as [|[n s] inner]; [done|].
  inversion Hin as [|? ? He Hin']; subst. simpl.
  pose proof He as He'. unfold entry_ok in He'. simpl in He'.
  apply andb_prop in He' as [[Hn Hs]%andb_prop Hs'].
  rewrite load_cache_line by done.
  unfold UrlFixer.store_suffix. rewrite Hacc. simpl.
  rewrite set_fresh by done.
  by rewrite (load_inner acc i inner Hacc Hi Hi' Hin' [(n, s)] Hnd).
Qed.

Lemma load_cache_lines suffixes :
  Forall imageset_ok suffixes ->
  forall acc, NoDup (acc.*1 ++ suffixes.*1)%list ->
  fold_left UrlFixer.load_line (UrlFixer.cache_lines suffixes) acc
  = (acc ++ suffixes)%list.
Proof.
  unfold UrlFixer.cache_lines.
  induction 1 as [|[i inner] suffixes Hok _ IH]; intros acc Hnd; simpl.
  - by rewrite app_nil_r.
  - rewrite fold_left_app.
    simpl in Hnd.
    rewrite load_imageset; [| |done].
    + rewrite IH; [by rewrite <- app_assoc|].
      rewrite fmap_app. simpl. by rewrite <- app_assoc.
    + apply get_None. unfold PyDict.keys.
      apply NoDup_app in Hnd as (_ & Hdisj & _).
      intros Hin. apply (Hdisj i Hin). apply list_elem_of_here.
Qed.

Lemma load_cache_text suffixes :
  cache_ok suffixes -> UrlFixer.load_cache (UrlFixer.cache_text suffixes) = suffixes.
Proof.
  intros [Hnd Hok]. unfold UrlFixer.load_cache, UrlFixer.cache_text.
  rewrite file_lines_concat by by apply cache_lines_written.
  by rewrite load_cache_lines.
Qed.

End CacheFold.

Lemma truthy_Some (p : string) : p ≠ "" -> UrlFixer.truthy (Some p) = Some p.
Proof. destruct p; [done | reflexivity]. Qed.

(** ** Caches built from listings *)

Section ScrapedCache.

Variable urlopen : string -> option string.

Implicit Types (suffixes : list (string * list (string * string))).

Lemma all_chars_impl (p q : ascii -> bool) (s : string) :
  (forall c, p c = true -> q c = true) ->
  Text.all_chars p s = true -> Text.all_chars q s = true.
Proof.
  intros Hpq. induction s as [|c s IH]; simpl; [done|].
  intros [Hc Hs]%andb_prop. by rewrite (Hpq c Hc), (IH Hs).
Qed.

Lemma all_chars_last (p : ascii -> bool) (s : string) (c : ascii) :
  Text.all_chars p s = true -> Text.last_char s = Some c -> p c = true.
Proof.
  induction s as [|d s IH]; [discriminate|].
  simpl. intros [Hd Hs]%andb_prop. destruct s as [|e s].
  - by intros [= <-].
  - by apply IH.
Qed.

Lemma alnum_not_separator (c : ascii) :
  Text.is_alnum c = true -> negb (Ascii.eqb c "," || is_newline c) = true.
Proof. destruct c as [[] [] [] [] [] [] [] []]; vm_compute; congruence. Qed.

Lemma alnum_not_space (c : ascii) :
  Text.is_alnum c = true -> negb (Text.is_space c) = true.
Proof. destruct c as [[] [] [] [] [] [] [] []]; vm_compute; congruence. Qed.

Lemma digit_alnum (c : ascii) : Text.is_digit c = true -> Text.is_alnum c = true.
Proof. unfold Text.is_alnum. by intros ->. Qed.

(** A text of letters and digits can be any field of a cache line. *)
Lemma alnum_field (s : string) :
  Text.all_chars Text.is_alnum s = true ->
  no_separator s = true /\ starts_clean s = true /\ ends_clean s = true.
Proof.
  intros Hs. split; [|split].
  - by apply (all_chars_impl _ _ _ alnum_not_separator).
  - destruct s as [|c s]; [done|]. simpl in *.
    apply andb_prop in Hs as [Hc _]. by apply alnum_not_space.
  - unfold ends_clean. destruct (Text.last_char s) as [c|] eqn:E; [|done].
    apply alnum_not_space. by eapply all_chars_last.
Qed.

Lemma number_field (s : string) :
  is_number s = true ->
  no_separator s = true /\ starts_clean s = true /\ ends_clean s = true.
Proof.
  unfold is_number. intros [_ Hs]%andb_prop. apply alnum_field.
  by apply (all_chars_impl _ _ _ digit_alnum).
Qed.

Lemma find_match (p : list Re.item) (s pre : string) (segs : list string) (rest : string) :
  Re.find p s = Some (pre, segs, rest) ->
  exists s', Re.match_items p s' = Some (segs, rest).
Proof.
  revert pre. induction s as [|c s IH]; intros pre; cbn [Re.find].
  - destruct (Re.match_items p "") as [[segs' rest']|] eqn:Hm; [|discriminate].
    intros [= <- <- <-]. by exists "".
  - destruct (Re.match_items p (String c s)) as [[segs' rest']|] eqn:Hm.
    + intros [= <- <- <-]. by exists (String c s).
    + destruct (Re.find p s) as [[[pre' segs'] rest']|] eqn:Hf;
        cbn [mbind option_bind]; [|discriminate].
      intros [= <- <- <-]. by eapply IH.
Qed.

Lemma choices_alnum (s seg r : string) :
  (seg, r) ∈ Re.choices (Re.Plus Text.is_alnum) s ->
  Text.all_chars Text.is_alnum seg = true.
Proof.
  simpl. destruct (Re.span Text.is_alnum s) as [a b] eqn:E.
  apply span_sound in E as [_ Ha].
  intros [_ Hin]%list_elem_of_filter.
  apply cuts_sound in Hin as [_ [z ->]]. by apply (all_chars_prefix _ _ _ Ha).
Qed.

(** What [re.findall] returns for a listing: for each file name, the
    digits of the image number and the letters and digits of the suffix. *)
Lemma listing_matches (html : string) (m : list string) :
  m ∈ Re.matches UrlFixer.listing_pattern html ->
  exists whole n sfx, m = [whole; n; sfx] /\ is_number n = true /\
                      Text.all_chars Text.is_alnum sfx = true.
Proof.
  unfold Re.matches. generalize (S (String.length html)) as fuel.
  intros fuel. revert html. induction fuel as [|fuel IH]; intros html; simpl.
  - by intros ?%elem_of_nil.
  - unfold Re.search.
    destruct (Re.find (Re.items UrlFixer.listing_pattern) html)
      as [[[pre segs] rest]|] eqn:Hf; cbn [mbind option_bind]; [|by intros ?%elem_of_nil].
    rewrite elem_of_cons. intros [->|Hin]; [|by eapply IH].
    apply find_match in Hf as [s' Hm].
    unfold UrlFixer.listing_pattern, Re.items in Hm.
    apply match_items_cons in Hm as (g1 & r1 & segs1 & H1 & Hm & ->).
    apply match_items_cons in Hm as (g2 & r2 & segs2 & H2 & Hm & ->).
    apply match_items_cons in Hm as (g3 & r3 & segs3 & H3 & Hm & ->).
    apply match_items_cons in Hm as (g4 & r4 & segs4 & H4 & Hm & ->).
    apply match_items_cons in Hm as (g5 & r5 & segs5 & H5 & Hm & ->).
    injection Hm as <- _.
    eexists _, g2, g4. split; [|split].
    + unfold Re.groups_of. simpl. by rewrite !append_nil_r.
    + by eapply choices_digits.
    + by eapply choices_alnum.
Qed.

Lemma base_pattern_id (base_url before whole id after : string) :
  Re.search UrlFixer.base_pattern base_url = Some (before, [whole; id], after) ->
  is_number id = true.
Proof.
  unfold Re.search.
  destruct (Re.find (Re.items UrlFixer.base_pattern) base_url)
    as [[[pre segs] rest]|] eqn:Hf; cbn [mbind option_bind]; [|discriminate].
  apply find_match in Hf as [s' Hm].
  unfold UrlFixer.base_pattern, Re.items in Hm.
  apply match_items_cons in Hm as (g1 & r1 & segs1 & H1 & Hm & ->).
  apply match_items_cons in Hm as (g2 & r2 & segs2 & H2 & Hm & ->).
  apply match_items_cons in Hm as (g3 & r3 & segs3 & H3 & Hm & ->).
  apply match_items_cons in Hm as (g4 & r4 & segs4 & H4 & Hm & ->).
  injection Hm as <- _. unfold Re.groups_of. simpl. rewrite !append_nil_r.
  intros [= _ _ <- _]. by eapply choices_digits.
Qed.

Lemma get_Some_elem {K V : Type} `{EqDecision K} (k : K) (v : V) (d : list (K * V)) :
  PyDict.get k d = Some v -> (k, v) ∈ d.
Proof.
  induction d as [|[k' v'] d IH]; simpl; [discriminate|].
  destruct (decide (k = k')) as [->|Hne].
  - intros [= ->]. apply list_elem_of_here.
  - intros H'. apply list_elem_of_further. by apply IH.
Qed.

Lemma Forall_set {K V : Type} `{EqDecision K} (P : K * V -> Prop) (k : K) (v : V)
    (d : list (K * V)) :
  Forall P d -> P (k, v) -> Forall P (PyDict.set k v d).
Proof.
  intros Hd Hkv. induction Hd as [|[k' v'] d Hx Hd IH]; simpl.
  - by constructor.
  - destruct (decide (k = k')); by constructor.
Qed.

Lemma set_not_nil {K V : Type} `{EqDecision K} (k : K) (v : V) (d : list (K * V)) :
  PyDict.set k v d ≠ [].
Proof. destruct d as [|[k' v'] d]; simpl; [done|]. by destruct (decide (k = k')). Qed.

(** Storing clean fields keeps the cache one that is read back as it is
    written. *)
Lemma store_suffix_ok suffixes (i n sfx : string) :
  cache_ok suffixes ->
  no_separator i = true -> starts_clean i = true ->
  no_separator n = true -> no_separator sfx = true -> ends_clean sfx = true ->
  cache_ok (UrlFixer.store_suffix suffixes i n sfx).
Proof.
  intros [Hnd Hall] Hi Hi' Hn Hs Hs'. unfold UrlFixer.store_suffix. split.
  - by apply set_wf.
  - apply Forall_set; [done|].
    assert (Hinner : NoDup (default [] (PyDict.get i suffixes)).*1 /\
                     Forall (fun e => entry_ok e = true) (default [] (PyDict.get i suffixes))).
    { destruct (PyDict.get i suffixes) as [inner|] eqn:E; simpl.
      - apply get_Some_elem in E. rewrite Forall_forall in Hall.
        by destruct (Hall _ E) as (_ & _ & _ & ? & ?).
      - split; constructor. }
    destruct Hinner as [Hnd' Hall'].
    repeat split; simpl; try done.
    + apply set_not_nil.
    + by apply (set_wf n sfx).
    + apply Forall_set; [done|]. unfold entry_ok. simpl. by rewrite Hn, Hs, Hs'.
Qed.

Lemma fetch_imagesets_ok (imageset_ids : list string) (base_url : string) :
  Forall (fun i => is_number i = true) imageset_ids ->
  forall suffixes w, cache_ok suffixes ->
  cache_ok (UrlFixer.fetch_imagesets urlopen imageset_ids base_url suffixes w).1.
Proof.
  induction 1 as [|i ids Hi _ IH]; intros suffixes w Hok; simpl; [done|].
  destruct (urlopen _) as [listing|]; [|by apply IH].
  apply IH.
  pose proof (listing_matches listing) as Hm.
  revert suffixes Hok.
  induction (Re.matches UrlFixer.listing_pattern listing) as [|m ms IHm];
    intros suffixes Hok; simpl; [done|].
  apply IHm; [intros m' Hin; apply Hm; by apply list_elem_of_further|].
  destruct (Hm m (list_elem_of_here _ _)) as (whole & n & sfx & -> & Hn & Hs).
  simpl.
  destruct (number_field i Hi) as (? & ? & _).
  destruct (number_field n Hn) as (? & _ & _).
  destruct (alnum_field sfx Hs) as (? & _ & ?).
  by apply store_suffix_ok.
Qed.

(** The mapping that [get_image_suffixes] builds from listings is one that
    is read back as it is written. *)
Lemma scraped_cache_ok (base_url : string) (cache_file : option string) (w : world) :
  cache_ok (UrlFixer.scrape_suffixes urlopen base_url cache_file w).1.
Proof.
  unfold UrlFixer.scrape_suffixes.
  assert (Hempty : cache_ok []) by (split; constructor).
  assert (Hscrape : forall ids b,
            Forall (fun i => is_number i = true) ids ->
            cache_ok (let '(suffixes, w1) := UrlFixer.fetch_imagesets urlopen ids b [] w in
                      match UrlFixer.truthy cache_file with
                      | Some p => (suffixes, write_file p (UrlFixer.cache_text suffixes) w1)
                      | None => (suffixes, w1)
                      end).1).
  { intros ids b Hids. pose proof (fetch_imagesets_ok ids b Hids [] w Hempty) as Hok.
    destruct (UrlFixer.fetch_imagesets urlopen ids b [] w) as [suffixes w1].
    by destruct (UrlFixer.truthy cache_file). }
  destruct (Re.search UrlFixer.base_pattern base_url) as [[[before gs] after]|] eqn:Hb.
  - destruct gs as [|whole [|id [|? ?]]];
      try (apply Hscrape; by repeat constructor).
    apply Hscrape. constructor; [|constructor]. by eapply base_pattern_id.
  - apply Hscrape. repeat constructor.
Qed.

(** The cache file that a run from listings leaves holds the lines of the
    mapping that the run returns. *)
Lemma scrape_suffixes_saved (base_url cache_file : string) (w : world) :
  cache_file ≠ "" ->
  let first := UrlFixer.scrape_suffixes urlopen base_url (Some cache_file) w in
  files first.2 !! cache_file = Some (UrlFixer.cache_text first.1).
Proof.
  intros Hne first. unfold first, UrlFixer.scrape_suffixes.
  rewrite truthy_Some by done.
  destruct (match Re.search UrlFixer.base_pattern base_url with
            | Some (_, [_; id], _) => _ | _ => _ end) as [ids b].
  destruct (UrlFixer.fetch_imagesets urlopen ids b [] w) as [suffixes w1].
  simpl. by rewrite lookup_insert_eq.
Qed.

(** A call with a cache path at which nothing is reads the listings. *)
Lemma get_image_suffixes_scrapes (base_url : string) (cache_file : option string)
    (w : world) :
  match UrlFixer.truthy cache_file with
  | Some p => exists_path p w = false
  | None => True
  end ->
  UrlFixer.get_image_suffixes urlopen base_url cache_file w
  = Ok (UrlFixer.scrape_suffixes urlopen base_url cache_file w).
Proof.
  unfold UrlFixer.get_image_suffixes.
  destruct (UrlFixer.truthy cache_file) as [p|]; [|done].
  by intros ->.
Qed.

(** A call with a cache file that is there returns what the file holds. *)
Lemma get_image_suffixes_cached (base_url cache_file content : string) (w : world) :
  cache_file ≠ "" -> files w !! cache_file = Some content ->
  UrlFixer.get_image_suffixes urlopen base_url (Some cache_file) w
  = Ok (UrlFixer.load_cache content, w).
Proof.
  intros Hne Hfile. unfold UrlFixer.get_image_suffixes.
  rewrite truthy_Some by done.
  assert (exists_path cache_file w = true) as ->.
  { unfold exists_path. rewrite Hfile. by rewrite bool_decide_eq_true_2. }
  by rewrite Hfile.
Qed.

(** A cache file written by one call is read by the next call as the
    mapping that the first call returned. *)
Lemma second_call_reads_first (base_url base_url' cache_file : string) (w : world) :
  cache_file ≠ "" ->
  let first := UrlFixer.scrape_suffixes urlopen base_url (Some cache_file) w in
  UrlFixer.get_image_suffixes urlopen base_url' (Some cache_file) first.2 = Ok first.
Proof.
  intros Hne first.
  pose proof (scraped_cache_ok base_url (Some cache_file) w) as Hok. fold first in Hok.
  pose proof (scrape_suffixes_saved base_url cache_file w Hne) as Hwritten.
  fold first in Hwritten.
  rewrite (get_image_suffixes_cached _ _ _ _ Hne Hwritten).
  rewrite load_cache_text by done. by destruct first.
Qed.

End ScrapedCache.

(** C4, as the specification states it: a second line of the cache file,
    or a second file name of a listing, for a key that has an entry
    replaces the suffix of that entry. *)
Lemma later_observation_overwrites :
  let first := UrlFixer.load_cache ("145,0000601,AAAAAA" +:+ nl) in
  let both := UrlFixer.load_cache
                ("145,0000601,AAAAAA" +:+ nl +:+ "145,0000601,BBBBBB" +:+ nl) in
  let listed := (UrlFixer.fetch_imagesets double_listing ["145"] "https://host/images" []
                   empty_world).1 in
  UrlFixer.lookup_suffix first "145" "0000601" = Some "AAAAAA" /\
  both = UrlFixer.load_line first "145,0000601,BBBBBB" /\
  UrlFixer.lookup_suffix both "145" "0000601" = Some "BBBBBB" /\
  UrlFixer.lookup_suffix listed "145" "0000601" = Some "BBBBBB".
Proof. repeat split; vm_compute; reflexivity. Qed.

(** ** The last observation of a pass *)

Section Passes.
Implicit Types (suffixes : list (string * list (string * string))).

Variable urlopen : string -> option string.

Lemma load_line_other suffixes line i n :
  (forall s', Text.split_on "," (Text.strip line) <> [i; n; s']) ->
  UrlFixer.lookup_suffix (UrlFixer.load_line suffixes line) i n
  = UrlFixer.lookup_suffix suffixes i n.
Proof.
  intros Hline. unfold UrlFixer.load_line.
  destruct (Text.split_on "," (Text.strip line)) as [|a [|b [|c [|? ?]]]]; try done.
  apply lookup_store_ne. intros [= -> ->]. by apply (Hline c).
Qed.

Lemma load_lines_other lines i n :
  (forall l s', l ∈ lines -> Text.split_on "," (Text.strip l) <> [i; n; s']) ->
  forall suffixes,
  UrlFixer.lookup_suffix (fold_left UrlFixer.load_line lines suffixes) i n
  = UrlFixer.lookup_suffix suffixes i n.
Proof.
  induction lines as [|l lines IH]; intros Hlines suffixes; [done|].
  cbn [fold_left]. rewrite IH.
  - apply load_line_other. intros s'. apply Hlines. apply list_elem_of_here.
  - intros l' s' Hin. apply Hlines. by apply list_elem_of_further.
Qed.

Lemma load_lines_last suffixes earlier line later i n s :
  Text.split_on "," (Text.strip line) = [i; n; s] ->
  (forall l s', l ∈ later -> Text.split_on "," (Text.strip l) <> [i; n; s']) ->
  UrlFixer.lookup_suffix
    (fold_left UrlFixer.load_line (earlier ++ line :: later)%list suffixes) i n = Some s.
Proof.
  intros Hline Hlater. rewrite fold_left_app. cbn [fold_left].
  rewrite load_lines_other by done.
  unfold UrlFixer.load_line. rewrite Hline. apply lookup_store_eq.
Qed.

Lemma store_match_other imageset_id suffixes m i n :
  imageset_id <> i \/ m !! 1%nat <> Some n ->
  UrlFixer.lookup_suffix (UrlFixer.store_match imageset_id suffixes m) i n
  = UrlFixer.lookup_suffix suffixes i n.
Proof.
  intros Hm. unfold UrlFixer.store_match.
  destruct m as [|a [|b [|c [|? ?]]]]; try done.
  apply lookup_store_ne. intros [= -> ->]. by destruct Hm.
Qed.

Lemma store_matches_other imageset_id found i n :
  imageset_id <> i \/ (forall m, m ∈ found -> m !! 1%nat <> Some n) ->
  forall suffixes,
  UrlFixer.lookup_suffix (fold_left (UrlFixer.store_match imageset_id) found suffixes) i n
  = UrlFixer.lookup_suffix suffixes i n.
Proof.
  induction found as [|m found IH]; intros Hfound suffixes; [done|].
  cbn [fold_left]. rewrite IH.
  - apply store_match_other. destruct Hfound as [?|Hfound]; [by left|right].
    apply Hfound, list_elem_of_here.
  - destruct Hfound as [?|Hfound]; [by left|right].
    intros m' Hin. by apply Hfound, list_elem_of_further.
Qed.

Lemma store_matches_last suffixes earlier whole later i n s :
  (forall m, m ∈ later -> m !! 1%nat <> Some n) ->
  UrlFixer.lookup_suffix
    (fold_left (UrlFixer.store_match i) (earlier ++ [whole; n; s] :: later)%list suffixes) i n
  = Some s.
Proof.
  intros Hlater. rewrite fold_left_app. cbn [fold_left].
  rewrite store_matches_other by (by right).
  apply lookup_store_eq.
Qed.

Lemma fetch_imagesets_other ids base i n :
  i ∉ ids ->
  forall suffixes w,
  UrlFixer.lookup_suffix (UrlFixer.fetch_imagesets urlopen ids base suffixes w).1 i n
  = UrlFixer.lookup_suffix suffixes i n.
Proof.
  induction ids as [|id ids IH]; intros Hi suffixes w; [done|].
  apply not_elem_of_cons in Hi as [Hne Hi].
  cbn [UrlFixer.fetch_imagesets].
  destruct (urlopen _) as [listing|]; rewrite IH by done; [|done].
  apply store_matches_other. left. congruence.
Qed.

Lemma fetch_imagesets_last ids base i listing earlier whole n s later :
  NoDup ids -> i ∈ ids ->
  urlopen (imageset_url base i) = Some listing ->
  Re.matches UrlFixer.listing_pattern listing = (earlier ++ [whole; n; s] :: later)%list ->
  (forall m, m ∈ later -> m !! 1%nat <> Some n) ->
  forall suffixes w,
  UrlFixer.lookup_suffix (UrlFixer.fetch_imagesets urlopen ids base suffixes w).1 i n
  = Some s.
Proof.
  intros Hnd Hin Hopen Hfound Hlater.
  induction ids as [|id ids IH]; intros suffixes w; [by apply elem_of_nil in Hin|].
  apply NoDup_cons in Hnd as [Hid Hnd].
  cbn [UrlFixer.fetch_imagesets].
  destruct (decide (id = i)) as [->|Hne].
  - unfold imageset_url in Hopen. rewrite Hopen, Hfound.
    rewrite fetch_imagesets_other by done. by apply store_matches_last.
  - apply elem_of_cons in Hin as [->|Hin]; [done|].
    destruct (urlopen (base +:+ "/1_" +:+ id +:+ "/")); by apply IH.
Qed.

(** The imagesets of a pass over the listings are visited once each. *)
Lemma scrape_suffixes_loop (base_url : string) (cache_file : option string) (w : world) :
  exists ids base,
    NoDup ids /\
    (UrlFixer.scrape_suffixes urlopen base_url cache_file w).1
    = (UrlFixer.fetch_imagesets urlopen ids base [] w).1.
Proof.
  unfold UrlFixer.scrape_suffixes.
  assert (Hpre : NoDup UrlFixer.predefined_imagesets) by compute_done.
  assert (Hone : forall id : string, NoDup [id]) by (intros id; apply NoDup_singleton).
  destruct (match Re.search UrlFixer.base_pattern base_url with
            | Some (_, [_; id], _) => _ | _ => _ end) as [ids b] eqn:E.
  exists ids, b. split.
  - destruct (Re.search UrlFixer.base_pattern base_url) as [[[before gs] after]|];
      [|by injection E as <- _].
    destruct gs as [|whole [|id [|? ?]]]; injection E as <- _; done.
  - destruct (UrlFixer.fetch_imagesets urlopen ids b [] w) as [suffixes w1].
    by destruct (UrlFixer.truthy cache_file).
Qed.

End Passes.

(** C4, amended. An observation, be it a line of the cache file or a file
    name of a listing, stores its suffix under its key whether the key is
    new or not, so after a pass a key holds the suffix of its last
    observation: of the last line of the cache file that names it, or of
    the last file name of its image number in the listing of its
    imageset, whatever the mapping held and whatever came earlier.  A
    call of [get_image_suffixes] is one such pass: over the lines of the
    cache file when it is there, over the listings of imagesets visited
    once each when nothing is at the cache path.  An observation leaves
    the entries of the other keys as they are, and an observation equal
    to the entry it meets leaves the mapping as it is. *)
Theorem last_observation_kept
    (suffixes : list (string * list (string * string))) (i n s : string) :
  (forall content earlier line later,
     Text.file_lines content = (earlier ++ line :: later)%list ->
     Text.split_on "," (Text.strip line) = [i; n; s] ->
     (forall l s', l ∈ later -> Text.split_on "," (Text.strip l) <> [i; n; s']) ->
     UrlFixer.lookup_suffix (UrlFixer.load_cache content) i n = Some s) /\
  (forall (urlopen : string -> option string) ids base w listing earlier whole later,
     NoDup ids -> i ∈ ids ->
     urlopen (imageset_url base i) = Some listing ->
     Re.matches UrlFixer.listing_pattern listing
       = (earlier ++ [whole; n; s] :: later)%list ->
     (forall m, m ∈ later -> m !! 1%nat <> Some n) ->
     UrlFixer.lookup_suffix (UrlFixer.fetch_imagesets urlopen ids base suffixes w).1 i n
     = Some s) /\
  (forall (urlopen : string -> option string) base_url cache_file content w,
     cache_file ≠ "" -> files w !! cache_file = Some content ->
     UrlFixer.get_image_suffixes urlopen base_url (Some cache_file) w
     = Ok (UrlFixer.load_cache content, w)) /\
  (forall (urlopen : string -> option string) base_url cache_file w,
     cache_absent cache_file w ->
     exists ids base w',
       NoDup ids /\
       UrlFixer.get_image_suffixes urlopen base_url cache_file w
       = Ok ((UrlFixer.fetch_imagesets urlopen ids base [] w).1, w')) /\
  (forall line, Text.split_on "," (Text.strip line) = [i; n; s] ->
     UrlFixer.load_line suffixes line = UrlFixer.store_suffix suffixes i n s) /\
  (forall whole, UrlFixer.store_match i suffixes [whole; n; s]
     = UrlFixer.store_suffix suffixes i n s) /\
  UrlFixer.lookup_suffix (UrlFixer.store_suffix suffixes i n s) i n = Some s /\
  (forall i' n', (i', n') ≠ (i, n) ->
     UrlFixer.lookup_suffix (UrlFixer.store_suffix suffixes i n s) i' n'
     = UrlFixer.lookup_suffix suffixes i' n') /\
  (UrlFixer.lookup_suffix suffixes i n = Some s ->
     UrlFixer.store_suffix suffixes i n s = suffixes).
Proof.
  split; [|split; [|split; [|split; [|split; [|split; [|split; [|split]]]]]]].
  - intros content earlier line later Hlines Hline Hlater.
    unfold UrlFixer.load_cache. rewrite Hlines. by apply load_lines_last.
  - intros urlopen ids base w listing earlier whole later Hnd Hin Hopen Hfound Hlater.
    by eapply fetch_imagesets_last.
  - intros urlopen base_url cache_file content w. apply get_image_suffixes_cached.
  - intros urlopen base_url cache_file w Hcache.
    rewrite (get_image_suffixes_scrapes urlopen base_url cache_file w Hcache).
    destruct (scrape_suffixes_loop urlopen base_url cache_file w) as (ids & base & Hnd & E).
    exists ids, base, (UrlFixer.scrape_suffixes urlopen base_url cache_file w).2.
    split; [exact Hnd|]. rewrite <- E.
    by destruct (UrlFixer.scrape_suffixes urlopen base_url cache_file w).
  - intros line Hline. unfold UrlFixer.load_line. by rewrite Hline.
  - reflexivity.
  - apply lookup_store_eq.
  - intros i' n'. apply lookup_store_ne.
  - apply store_same.
Qed.

Lemma last_observation_kept_witness :
  UrlFixer.lookup_suffix
    (UrlFixer.load_cache ("145,0000601,AAAAAA" +:+ nl +:+ "145,0000601,BBBBBB" +:+ nl +:+
                          "145,0000602,CCCCCC" +:+ nl))
    "145" "0000601" = Some "BBBBBB" /\
  UrlFixer.lookup_suffix
    (UrlFixer.fetch_imagesets double_listing ["145"; "146"] "https://host/images"
       [("146", [("0000601", "ZZZZZZ")])] empty_world).1
    "146" "0000601" = Some "BBBBBB".
Proof.
  split.
  - apply (proj1 (last_observation_kept [] "145" "0000601" "BBBBBB")
             ("145,0000601,AAAAAA" +:+ nl +:+ "145,0000601,BBBBBB" +:+ nl +:+
              "145,0000602,CCCCCC" +:+ nl)
             ["145,0000601,AAAAAA" +:+ nl] ("145,0000601,BBBBBB" +:+ nl)
             ["145,0000602,CCCCCC" +:+ nl]).
    + vm_compute. reflexivity.
    + vm_compute. reflexivity.
    + intros l s' ->%list_elem_of_singleton. vm_compute. discriminate.
  - apply (proj1 (proj2 (last_observation_kept [("146", [("0000601", "ZZZZZZ")])]
                           "146" "0000601" "BBBBBB"))
             double_listing ["145"; "146"] "https://host/images" empty_world
             "<a>image-0000601_AAAAAA.jpg</a> <a>image-0000601_BBBBBB.jpg</a>"
             [["image-0000601_AAAAAA.jpg"; "0000601"; "AAAAAA"]]
             "image-0000601_BBBBBB.jpg" []).
    + compute_done.
    + compute_done.
    + reflexivity.
    + vm_compute. reflexivity.
    + by intros m ?%elem_of_nil.
Defined.



(** ** Resolving from the cache file *)

Lemma update_urls_requests
    (other_escape : nat -> string -> result (list Re.titem))
    (input_file output_file : string)
    (image_suffixes : list (string * list (string * string))) (w w' : world) :
  UrlFixer.update_urls_in_file other_escape input_file output_file image_suffixes w = Ok w' ->
  requests w' = requests w.
Proof.
  unfold UrlFixer.update_urls_in_file.
  destruct (files w !! input_file) as [content|]; [|discriminate].
  intros H. apply bind_Ok in H as (written & _ & H). by injection H as <-.
Qed.

(** C6. With a cache file on disk, [get_image_suffixes] returns what the
    file holds and leaves the world as it is: no URL is requested and no
    file is written.  A line whose key is not in the cache is written back
    as it was read, and the whole run of [main] requests nothing. *)
Theorem cached_run_requests_nothing
    (urlopen : string -> option string)
    (other_escape : nat -> string -> result (list Re.titem))
    (base_url cache_file content : string) (w : world) :
  cache_file ≠ "" ->
  files w !! cache_file = Some content ->
  UrlFixer.get_image_suffixes urlopen base_url (Some cache_file) w
    = Ok (UrlFixer.load_cache content, w) /\
  (forall line before whole imageset_id image_number after,
     Re.search UrlFixer.url_pattern (Text.strip line)
       = Some (before, [whole; imageset_id; image_number], after) ->
     UrlFixer.lookup_suffix (UrlFixer.load_cache content) imageset_id image_number = None ->
     UrlFixer.update_line other_escape (UrlFixer.load_cache content) line
       = Ok (Text.strip line +:+ nl)) /\
  (forall url_file output_file w',
     UrlFixer.main urlopen other_escape url_file output_file base_url cache_file w = Ok w' ->
     requests w' = requests w).
Proof.
  intros Hne Hfile.
  assert (Hget : UrlFixer.get_image_suffixes urlopen base_url (Some cache_file) w
                 = Ok (UrlFixer.load_cache content, w))
    by (by apply get_image_suffixes_cached).
  split; [exact Hget|]. split.
  - intros line before whole i n after Hs Hl. unfold UrlFixer.update_line.
    by rewrite Hs, Hl.
  - intros url_file output_file w' H. unfold UrlFixer.main in H.
    rewrite Hget in H. by apply update_urls_requests in H.
Qed.

Lemma cached_run_requests_nothing_witness :
  UrlFixer.get_image_suffixes (fun _ => None) "https://host/images/"
    (Some "image_suffixes.cache") cached_world
  = Ok (UrlFixer.load_cache ("145,0000601,EGD3NF" +:+ nl), cached_world).
Proof.
  apply (cached_run_requests_nothing (fun _ => None) (fun _ _ => Raise ReError)
           "https://host/images/" "image_suffixes.cache" ("145,0000601,EGD3NF" +:+ nl)
           cached_world).
  - discriminate.
  - vm_compute. reflexivity.
Defined.

(** ** Fetching the images *)

Section PoolFacts.

Variable requests_get : string -> string + Z * string.
Variable split : string.
Variable image_dir : string.

#[local] Abbreviation filepath := (Download.filepath_of image_dir).
#[local] Abbreviation step := (Download.step requests_get split image_dir).

Lemma download_image_stages url w :
  Download.download_image requests_get split image_dir url w =
    match Download.check split image_dir url w with
    | (Download.Checked _, w1) =>
        Download.store split image_dir url (requests_get url) (request url w1)
    | (_, w1) => w1
    end.
Proof.
  unfold Download.download_image, Download.check, Download.filepath_of.
  destruct (exists_path _ w); reflexivity.
Qed.

Section Invariant.

Variable urls : list string.
Variable w0 : world.

Lemma exists_path_kept w p :
  dirs w = dirs w0 ->
  (forall p, exists_path p w0 = true -> files w !! p = files w0 !! p) ->
  exists_path p w0 = true -> exists_path p w = true.
Proof.
  intros Hd Hf Hp. unfold exists_path. rewrite Hd, (Hf p Hp). exact Hp.
Qed.

Lemma task_ok_print w line url t :
  task_ok split image_dir w0 w url t -> task_ok split image_dir w0 (print line w) url t.
Proof.
  destruct t; simpl; try done.
  intros H Hp. apply elem_of_app. left. by apply H.
Qed.

Lemma pool_inv_start : pool_inv split image_dir urls w0 (map Download.Waiting urls, w0).
Proof.
  repeat split; simpl.
  - exists []. by rewrite app_nil_r.
  - exists []. by rewrite app_nil_r.
  - by rewrite length_map.
  - intros i url t Hu Ht. rewrite list_lookup_fmap, Hu in Ht.
    by injection Ht as <-.
Qed.

Lemma pool_inv_step st st' :
  pool_inv split image_dir urls w0 st -> step st st' -> pool_inv split image_dir urls w0 st'.
Proof.
  intros (Hd & Hf & (rs & Hrs & Hnew) & (ps & Hps) & Hlen & Htasks) Hstep.
  inversion Hstep as [i url tasks w t w' Hi Hcheck
                     |i url tasks w t w' Hi Hfetch
                     |i url response tasks w Hi]; subst; simpl in *.
  - (* the test of [os.path.exists] *)
    assert (Hil : (i < length urls)%nat)
      by (rewrite <- Hlen; by apply lookup_lt_is_Some_1).
    destruct (lookup_lt_is_Some_2 urls i Hil) as [url' Hu].
    pose proof (Htasks i url' _ Hu Hi) as Hok. simpl in Hok. subst url'.
    unfold Download.check in Hcheck.
    destruct (exists_path (filepath url) w) eqn:Hex; injection Hcheck as <- <-.
    + repeat split; simpl; try done.
      * by exists rs.
      * exists (ps ++ [Download.tag split +:+ "Already downloaded: " +:+
                       Download.filename_of url])%list.
        by rewrite Hps, app_assoc.
      * by rewrite length_insert.
      * intros j u t Hu' Ht.
        destruct (decide (i = j)) as [<-|Hne].
        -- rewrite list_lookup_insert_eq in Ht by by rewrite Hlen.
           injection Ht as <-. simpl. intros _.
           rewrite Hu in Hu'. injection Hu' as <-.
           apply elem_of_app. right. apply list_elem_of_here.
        -- rewrite list_lookup_insert_ne in Ht by done.
           apply task_ok_print. by eapply Htasks.
    + repeat split; simpl; try done.
      * by exists rs.
      * by exists ps.
      * by rewrite length_insert.
      * intros j u t Hu' Ht.
        destruct (decide (i = j)) as [<-|Hne].
        -- rewrite list_lookup_insert_eq in Ht by by rewrite Hlen.
           injection Ht as <-. simpl.
           rewrite Hu in Hu'. injection Hu' as <-. split; [done|].
           destruct (exists_path (filepath url) w0) eqn:Hex0; [|done].
           by rewrite (exists_path_kept w _ Hd Hf Hex0) in Hex.
        -- rewrite list_lookup_insert_ne in Ht by done. by eapply Htasks.
  - (* the request *)
    assert (Hil : (i < length urls)%nat)
      by (rewrite <- Hlen; by apply lookup_lt_is_Some_1).
    destruct (lookup_lt_is_Some_2 urls i Hil) as [url' Hu].
    pose proof (Htasks i url' _ Hu Hi) as Hok. simpl in Hok.
    destruct Hok as [-> Hex0].
    unfold Download.fetch in Hfetch. injection Hfetch as <- <-.
    repeat split; simpl; try done.
    + exists (rs ++ [url'])%list. rewrite Hrs, app_assoc. split; [done|].
      apply Forall_app. split; [done|]. by constructor.
    + by exists ps.
    + by rewrite length_insert.
    + intros j u t Hu' Ht.
      destruct (decide (i = j)) as [<-|Hne].
      * rewrite list_lookup_insert_eq in Ht by by rewrite Hlen.
        injection Ht as <-. simpl.
        rewrite Hu in Hu'. by injection Hu' as <-.
      * rewrite list_lookup_insert_ne in Ht by done.
        pose proof (Htasks j u t Hu' Ht) as Hok. by destruct t.
  - (* storing the answer *)
    assert (Hil : (i < length urls)%nat)
      by (rewrite <- Hlen; by apply lookup_lt_is_Some_1).
    destruct (lookup_lt_is_Some_2 urls i Hil) as [url' Hu].
    pose proof (Htasks i url' _ Hu Hi) as Hok. simpl in Hok.
    destruct Hok as [-> Hex0].
    assert (Hother : forall j u t, urls !! j = Some u ->
              <[i:=Download.Finished]> tasks !! j = Some t ->
              forall w', printed w' = (printed w ++ drop (length (printed w)) (printed w'))%list ->
              task_ok split image_dir w0 w' u t).
    { intros j u t Hu' Ht w' Hpr.
      destruct (decide (i = j)) as [<-|Hne].
      - rewrite list_lookup_insert_eq in Ht by by rewrite Hlen.
        injection Ht as <-. simpl.
        rewrite Hu in Hu'. injection Hu' as <-. by rewrite Hex0.
      - rewrite list_lookup_insert_ne in Ht by done.
        pose proof (Htasks j u t Hu' Ht) as Hok.
        destruct t; simpl in *; try done.
        intros Hp. rewrite Hpr. apply elem_of_app. left. by apply Hok. }
    unfold Download.store.
    destruct response as [e|[status_code content]];
      [|destruct (status_code =? 200)]; repeat split; simpl; try done.
    + by exists rs.
    + eexists. by rewrite Hps, <- app_assoc.
    + by rewrite length_insert.
    + intros j u t Hu' Ht. apply (Hother j u t Hu' Ht). simpl.
      by rewrite drop_app_length.
    + intros p Hp. rewrite lookup_insert_ne; [by apply Hf|].
      intros <-. by rewrite Hp in Hex0.
    + by exists rs.
    + eexists. by rewrite Hps, <- app_assoc.
    + by rewrite length_insert.
    + intros j u t Hu' Ht. apply (Hother j u t Hu' Ht). simpl.
      by rewrite drop_app_length.
    + by exists rs.
    + eexists. by rewrite Hps, <- app_assoc.
    + by rewrite length_insert.
    + intros j u t Hu' Ht. apply (Hother j u t Hu' Ht). simpl.
      by rewrite drop_app_length.
Qed.

Lemma pool_inv_reachable st :
  rtc step (map Download.Waiting urls, w0) st -> pool_inv split image_dir urls w0 st.
Proof.
  intros Hrun.
  eapply (rtc_ind_r (pool_inv split image_dir urls w0)); [apply pool_inv_start | | exact Hrun].
  intros y z _ Hstep IH. by eapply pool_inv_step.
Qed.

End Invariant.

End PoolFacts.

Section FileNames.

Lemma rpartition_clean (sep : ascii) (t : string) :
  Text.all_chars (fun c => negb (Ascii.eqb c sep)) t = true ->
  Text.rpartition sep t = None.
Proof.
  induction t as [|c t IH]; simpl; [done|].
  intros [Hc Ht]%andb_prop. rewrite (IH Ht).
  rewrite (negb_true_iff _) in Hc. by rewrite Hc.
Qed.

Lemma rpartition_app (sep : ascii) (h t : string) :
  Text.all_chars (fun c => negb (Ascii.eqb c sep)) t = true ->
  Text.rpartition sep (h +:+ String sep t) = Some (h, t).
Proof.
  intros Ht. induction h as [|c h IH]; simpl.
  - by rewrite (rpartition_clean sep t Ht), Ascii.eqb_refl.
  - by rewrite IH.
Qed.

Lemma basename_app (base name : string) :
  lacks "/" name = true -> Text.basename (base +:+ "/" +:+ name) = name.
Proof.
  intros Hn. unfold Text.basename.
  change (base +:+ "/" +:+ name) with (base +:+ String "/" name).
  by rewrite rpartition_app.
Qed.

Lemma filename_of_query (base name query : string) :
  lacks "?" base = true -> lacks "?" name = true -> lacks "/" name = true ->
  Download.filename_of (base +:+ "/" +:+ name +:+ "?" +:+ query) = name.
Proof.
  intros Hb Hn Hn'. unfold Download.filename_of.
  replace (base +:+ "/" +:+ name +:+ "?" +:+ query)
    with ((base +:+ "/" +:+ name) +:+ String "?" query)
    by (by rewrite !append_assoc).
  rewrite split_on_app.
  - simpl. by apply basename_app.
  - unfold lacks in *. rewrite !all_chars_app, Hb, Hn. reflexivity.
Qed.

Lemma filename_of_plain (base name : string) :
  lacks "?" base = true -> lacks "?" name = true -> lacks "/" name = true ->
  Download.filename_of (base +:+ "/" +:+ name) = name.
Proof.
  intros Hb Hn Hn'. unfold Download.filename_of.
  rewrite split_on_clean.
  - simpl. by apply basename_app.
  - unfold lacks in *. rewrite !all_chars_app, Hb, Hn. reflexivity.
Qed.

End FileNames.

Section PoolRuns.

Variable requests_get : string -> string + Z * string.
Variable split : string.
Variable image_dir : string.

#[local] Abbreviation step := (Download.step requests_get split image_dir).

Lemma insert_middle {A : Type} (l1 l2 : list A) (x y : A) :
  <[length l1 := y]> (l1 ++ x :: l2)%list = (l1 ++ y :: l2)%list.
Proof.
  rewrite <- (Nat.add_0_r (length l1)). by rewrite insert_app_r.
Qed.

(** The calls run one after the other are one of the runs of the pool,
    and it ends with every call done. *)
Lemma run_in_order_steps (urls : list string) :
  forall (done : list Download.task) (w : world),
  rtc step ((done ++ map Download.Waiting urls)%list, w)
           ((done ++ map (fun _ => Download.Finished) urls)%list,
            Download.run_in_order requests_get split image_dir urls w).
Proof.
  induction urls as [|url rest IH]; intros done w; simpl; [apply rtc_refl|].
  assert (Hnext : rtc step ((done ++ Download.Waiting url :: map Download.Waiting rest)%list, w)
                    ((done ++ Download.Finished :: map Download.Waiting rest)%list,
                     Download.download_image requests_get split image_dir url w)).
  { rewrite download_image_stages.
    destruct (Download.check split image_dir url w) as [t w1] eqn:Hcheck.
    pose proof Hcheck as Hc. unfold Download.check in Hc.
    destruct (exists_path _ w); injection Hc as <- <-.
    - eapply rtc_l.
      { eapply (Download.step_check _ _ _ (length done) url);
          [apply list_lookup_middle; reflexivity | exact Hcheck]. }
      rewrite insert_middle. apply rtc_refl.
    - eapply rtc_l.
      { eapply (Download.step_check _ _ _ (length done) url);
          [apply list_lookup_middle; reflexivity | exact Hcheck]. }
      rewrite insert_middle.
      eapply rtc_l.
      { eapply (Download.step_fetch _ _ _ (length done) url);
          [apply list_lookup_middle; reflexivity | reflexivity]. }
      rewrite insert_middle.
      eapply rtc_l.
      { eapply (Download.step_store _ _ _ (length done) url).
        apply list_lookup_middle. reflexivity. }
      rewrite insert_middle. apply rtc_refl. }
  eapply rtc_trans; [exact Hnext|].
  specialize (IH (done ++ [Download.Finished])%list
                (Download.download_image requests_get split image_dir url w)).
  rewrite <- !app_assoc in IH. exact IH.
Qed.

End PoolRuns.

(** C8. Whatever the order in which the pool runs its calls, a URL of the
    list whose destination is there before the fetch is never requested,
    what is stored at its destination stays as it was, and once every call
    is done the line that reports the skip has been printed for it.  The
    calls run in order are one such run.  The destination is the image
    directory joined with what follows the last slash of the URL, the
    query string left out. *)
Theorem existing_destination_is_skipped
    (requests_get : string -> string + Z * string) (split image_dir : string)
    (urls : list string) (w0 : world) (tasks : list Download.task) (w : world)
    (url : string) :
  rtc (Download.step requests_get split image_dir) (map Download.Waiting urls, w0) (tasks, w) ->
  url ∈ urls ->
  exists_path (Download.filepath_of image_dir url) w0 = true ->
  files w !! Download.filepath_of image_dir url = files w0 !! Download.filepath_of image_dir url /\
  (exists rs, requests w = (requests w0 ++ rs)%list /\ url ∉ rs) /\
  (Forall (fun t => t = Download.Finished) tasks -> skipped split url ∈ printed w) /\
  Download.download_image requests_get split image_dir url w0 = print (skipped split url) w0 /\
  rtc (Download.step requests_get split image_dir) (map Download.Waiting urls, w0)
    (map (fun _ => Download.Finished) urls,
     Download.run_in_order requests_get split image_dir urls w0) /\
  Download.filepath_of image_dir url
    = Text.join image_dir (Text.basename (hd "" (Text.split_on "?" url))) /\
  (forall base name query,
     lacks "?" base = true -> lacks "?" name = true -> lacks "/" name = true ->
     Download.filename_of (base +:+ "/" +:+ name +:+ "?" +:+ query) = name /\
     Download.filename_of (base +:+ "/" +:+ name) = name).
Proof.
  intros Hrun Hin Hex.
  destruct (pool_inv_reachable requests_get split image_dir urls w0 _ Hrun)
    as (Hd & Hf & (rs & Hrs & Hnew) & _ & Hlen & Htasks).
  simpl in *.
  split; [by apply Hf|]. split.
  { exists rs. split; [done|]. intros Hrsin.
    rewrite Forall_forall in Hnew. specialize (Hnew url Hrsin). congruence. }
  split.
  { intros Hfin. apply list_elem_of_lookup in Hin as [i Hi].
    assert (Hil : (i < length tasks)%nat)
      by (rewrite Hlen; by apply lookup_lt_is_Some_1).
    destruct (lookup_lt_is_Some_2 tasks i Hil) as [t Ht].
    pose proof (Htasks i url t Hi Ht) as Hok.
    rewrite Forall_forall in Hfin.
    rewrite (Hfin t) in Hok by (by eapply list_elem_of_lookup_2).
    by apply Hok. }
  split.
  { unfold Download.download_image. unfold Download.filepath_of in Hex.
    by rewrite Hex. }
  split.
  { apply (run_in_order_steps requests_get split image_dir urls [] w0). }
  split; [reflexivity|].
  intros base name query Hb Hn Hn'.
  split; [by apply filename_of_query | by apply filename_of_plain].
Qed.

Lemma existing_destination_is_skipped_witness :
  let url := "https://host/images/1_145/image-0000601_EGD3NF.jpg?v=2" in
  let w := Download.run_in_order (fun _ => inr (200, "OTHER")) "train"
             (Download.image_dir_of "train") [url] fetched_world in
  files w !! Download.filepath_of (Download.image_dir_of "train") url
    = files fetched_world !! Download.filepath_of (Download.image_dir_of "train") url /\
  skipped "train" url ∈ printed w.
Proof.
  intros url w.
  pose proof (run_in_order_steps (fun _ => inr (200, "OTHER")) "train"
                (Download.image_dir_of "train") [url] [] fetched_world) as Hrun.
  assert (Hex : exists_path (Download.filepath_of (Download.image_dir_of "train") url)
                  fetched_world = true) by (vm_compute; reflexivity).
  destruct (existing_destination_is_skipped (fun _ => inr (200, "OTHER")) "train"
              (Download.image_dir_of "train") [url] fetched_world _ _ url
              Hrun (list_elem_of_here _ _) Hex) as (Hfiles & _ & Hprinted & _).
  split; [exact Hfiles|]. apply Hprinted. repeat constructor.
Defined.

(** ** Rewriting the URL list *)

Section UpdateFacts.

Variable other_escape : nat -> string -> result (list Re.titem).

Lemma parse_literal (k : nat) (t : string) :
  lacks Re.backslash t = true ->
  Re.parse_template other_escape k t = Ok (literal t).
Proof.
  unfold lacks. induction t as [|c t IH]; [reflexivity|].
  simpl. intros [Hc Ht]%andb_prop.
  rewrite (negb_true_iff _) in Hc. rewrite Hc, (IH Ht). reflexivity.
Qed.

Lemma expand_literal (t : string) (gs : list string) :
  Re.expand (literal t) gs = t.
Proof. induction t as [|c t IH]; simpl; [reflexivity | by rewrite IH]. Qed.

(** The template of [update_urls_in_file] for a suffix without
    backslash: group 1, then the suffix part as it stands. *)
Lemma parse_suffix_template (suffix : string) :
  lacks Re.backslash suffix = true ->
  Re.parse_template other_escape 1 (String Re.backslash "1_" +:+ suffix +:+ ".jpg")
  = Ok (Re.TGroup 1 :: literal ("_" +:+ suffix +:+ ".jpg")).
Proof.
  intros Hs.
  change (String Re.backslash "1_" +:+ suffix +:+ ".jpg")
    with (String Re.backslash (String "1" ("_" +:+ suffix +:+ ".jpg"))).
  cbn [Re.parse_template]. rewrite Ascii.eqb_refl.
  change (Re.is_group_digit "1" && negb (Re.starts_with_digit ("_" +:+ suffix +:+ ".jpg")))
    with true.
  cbn match. change (Re.digit_value "1" <=? 1)%nat with true. cbn match.
  rewrite parse_literal; [reflexivity|].
  unfold lacks in *. change ("_" +:+ suffix +:+ ".jpg") with (String "_" (suffix +:+ ".jpg")).
  simpl. rewrite all_chars_app, Hs. reflexivity.
Qed.

Lemma find_url_progress (s pre : string) (segs : list string) (rest : string) :
  Re.find url_items s = Some (pre, segs, rest) ->
  (String.length rest < String.length s)%nat.
Proof.
  intros Hf. apply find_url_items in Hf as (i & n & _ & _ & _ & ->).
  rewrite !length_append. simpl. lia.
Qed.

Lemma sub_fuel_suffixed (suffix : string) :
  forall (fuel : nat) (s : string),
  (String.length s < fuel)%nat ->
  suffixed suffix s
    (Re.sub_fuel fuel UrlFixer.sub_pattern
       (Re.TGroup 1 :: literal ("_" +:+ suffix +:+ ".jpg")) s).
Proof.
  induction fuel as [|fuel IH]; intros s Hlen; [lia|].
  cbn [Re.sub_fuel]. unfold Re.search.
  change (Re.items UrlFixer.sub_pattern) with url_items.
  destruct (Re.find url_items s) as [[[pre segs] rest]|] eqn:Hf; cbn [mbind option_bind].
  - pose proof (find_url_progress _ _ _ _ Hf) as Hprog.
    pose proof Hf as Hf'.
    apply find_url_items in Hf' as (i & n & -> & _ & _ & _).
    assert (Hrest : suffixed suffix rest
              (Re.sub_fuel fuel UrlFixer.sub_pattern
                 (Re.TGroup 1 :: literal ("_" +:+ suffix +:+ ".jpg")) rest))
      by (apply IH; lia).
    pose proof (suffixed_url suffix s pre i n rest _ Hf Hrest) as Hs.
    cbn [Re.expand]. rewrite expand_literal.
    replace (default "" (Re.groups_of UrlFixer.sub_pattern
               ["images/1_"; i; "/image-"; n; ".jpg"] !! 1%nat))
      with ("images/1_" +:+ i +:+ "/image-" +:+ n).
    2:{ cbn. by rewrite append_nil_r. }
    rewrite !append_assoc. exact Hs.
  - by apply suffixed_none.
Qed.

Lemma search_url_pattern (s : string) :
  Re.search UrlFixer.url_pattern s =
    match Re.find url_items s with
    | Some (pre, segs, rest) => Some (pre, Re.groups_of UrlFixer.url_pattern segs, rest)
    | None => None
    end.
Proof.
  unfold Re.search. change (Re.items UrlFixer.url_pattern) with url_items.
  by destruct (Re.find url_items s) as [[[pre segs] rest]|].
Qed.

Lemma update_line_written (image_suffixes : list (string * list (string * string)))
    (line : string) :
  (forall i n s, UrlFixer.lookup_suffix image_suffixes i n = Some s ->
                 lacks Re.backslash s = true) ->
  exists out, UrlFixer.update_line other_escape image_suffixes line = Ok out /\
              line_written image_suffixes line out.
Proof.
  intros Hclean. unfold UrlFixer.update_line. rewrite search_url_pattern.
  destruct (Re.find url_items (Text.strip line)) as [[[pre segs] rest]|] eqn:Hf.
  - pose proof Hf as Hf'. apply find_url_items in Hf' as (i & n & -> & _ & _ & _).
    cbn [Re.groups_of UrlFixer.url_pattern Re.captures map take drop Re.concat_str].
    rewrite !append_nil_r.
    destruct (UrlFixer.lookup_suffix image_suffixes i n) as [suffix|] eqn:Hl.
    + unfold Re.sub.
      change (length (Re.captures UrlFixer.sub_pattern)) with 1%nat.
      rewrite (parse_suffix_template suffix (Hclean _ _ _ Hl)).
      cbn [mbind result_bind bind].
      eexists. split; [reflexivity|].
      eapply written_suffixed; [exact Hf | exact Hl |].
      apply sub_fuel_suffixed. lia.
    + eexists. split; [reflexivity|]. by eapply written_unresolved.
  - eexists. split; [reflexivity|]. by apply written_plain.
Qed.

Lemma update_lines_written (image_suffixes : list (string * list (string * string)))
    (lines : list string) :
  (forall i n s, UrlFixer.lookup_suffix image_suffixes i n = Some s ->
                 lacks Re.backslash s = true) ->
  exists written,
    UrlFixer.update_lines other_escape image_suffixes lines = Ok written /\
    Forall2 (line_written image_suffixes) lines written.
Proof.
  intros Hclean. unfold UrlFixer.update_lines.
  induction lines as [|line lines (written & Hw & Hall)].
  - exists []. split; [reflexivity | constructor].
  - destruct (update_line_written image_suffixes line Hclean) as (out & Hout & Hline).
    exists (out :: written). split; [|by constructor].
    cbn [mapM]. rewrite Hout. cbn [mbind result_bind bind]. rewrite Hw. reflexivity.
Qed.

End UpdateFacts.

Section OutputLines.

(** A line that iterating over a file yields holds no line break before
    its end. *)
Lemma file_lines_shape (content : string) :
  Forall (fun l => exists x, one_line x = true /\ (l = x \/ l = x +:+ nl))
    (Text.file_lines content).
Proof.
  induction content as [|c s IH]; [constructor|].
  cbn [Text.file_lines].
  destruct (Ascii.eqb c "010") eqn:Hlf.
  { constructor; [|exact IH]. exists "". split; [reflexivity | by right]. }
  destruct (Ascii.eqb c "013") eqn:Hcr.
  { destruct s as [|c2 s2]; [repeat constructor; exists ""; split; [reflexivity | by right]|].
    destruct (Ascii.eqb c2 "010") eqn:Hc2.
    - cbn [Text.file_lines] in IH. rewrite Hc2 in IH.
      apply Forall_cons in IH as [_ IH].
      constructor; [|exact IH]. exists "". split; [reflexivity | by right].
    - constructor; [|exact IH]. exists "". split; [reflexivity | by right]. }
  destruct (Text.file_lines s) as [|l ls].
  - repeat constructor. exists (String c ""). split; [|by left].
    unfold one_line, is_newline. simpl. by rewrite Hlf, Hcr.
  - apply Forall_cons in IH as [(x & Hx & Hl) IH].
    constructor; [|exact IH]. exists (String c x). split.
    + unfold one_line, is_newline in *. simpl. by rewrite Hlf, Hcr.
    + destruct Hl as [-> | ->]; [by left | by right].
Qed.

Lemma one_line_lstrip (p : ascii -> bool) (s : string) :
  one_line s = true -> one_line (Text.lstrip_by p s) = true.
Proof.
  unfold one_line. induction s as [|c s IH]; [done|]. simpl.
  intros [Hc Hs]%andb_prop. destruct (p c); [by apply IH|]. simpl. by rewrite Hc, Hs.
Qed.

Lemma one_line_rstrip (p : ascii -> bool) (s : string) :
  one_line s = true -> one_line (Text.rstrip_by p s) = true.
Proof.
  unfold one_line. induction s as [|c s IH]; [done|]. simpl.
  intros [Hc Hs]%andb_prop.
  destruct (Text.is_empty (Text.rstrip_by p s) && p c); [done|].
  simpl. by rewrite Hc, IH.
Qed.

Lemma lstrip_line (x : string) :
  one_line x = true ->
  Text.lstrip_by Text.is_space (x +:+ nl) = "" \/
  exists y, Text.lstrip_by Text.is_space (x +:+ nl) = y +:+ nl /\ one_line y = true.
Proof.
  unfold one_line. induction x as [|c x IH]; [by left|].
  cbn [append Text.lstrip_by Text.all_chars]. intros [Hc Hx]%andb_prop.
  destruct (Text.is_space c).
  - by apply IH.
  - right. exists (String c x). split; [reflexivity|]. simpl. by rewrite Hc, Hx.
Qed.

Lemma one_line_strip (l : string) :
  (exists x, one_line x = true /\ (l = x \/ l = x +:+ nl)) ->
  one_line (Text.strip l) = true.
Proof.
  intros (x & Hx & [-> | ->]); unfold Text.strip.
  - by apply one_line_rstrip, one_line_lstrip.
  - destruct (lstrip_line x Hx) as [-> | (y & -> & Hy)]; [done|].
    rewrite rstrip_by_app. change (Text.rstrip_by Text.is_space nl) with "".
    cbn [Text.is_empty]. by apply one_line_rstrip.
Qed.

Lemma one_line_app (a b : string) :
  one_line (a +:+ b) = one_line a && one_line b.
Proof. apply all_chars_app. Qed.

Lemma suffixed_one_line (suffix s new : string) :
  one_line suffix = true -> suffixed suffix s new ->
  one_line s = true -> one_line new = true.
Proof.
  intros Hsuffix. induction 1 as [s _|s pre i n rest rest' Hf _ IH]; [done|].
  apply find_url_items in Hf as (i' & n' & [= <- <-] & _ & _ & ->).
  rewrite !one_line_app. intros H.
  repeat (apply andb_prop in H as [? H]).
  repeat (apply andb_true_intro; split); try done.
  by apply IH.
Qed.

Lemma line_written_one_line (image_suffixes : list (string * list (string * string)))
    (line out : string) :
  (forall i n s, UrlFixer.lookup_suffix image_suffixes i n = Some s -> one_line s = true) ->
  (exists x, one_line x = true /\ (line = x \/ line = x +:+ nl)) ->
  line_written image_suffixes line out -> written_line out.
Proof.
  intros Hclean Hline%one_line_strip Hw.
  destruct Hw as [line _ | line pre i n rest _ _ | line pre i n rest suffix new _ Hl Hs].
  - by exists (Text.strip line).
  - by exists (Text.strip line).
  - exists new. split; [reflexivity|].
    eapply suffixed_one_line; [|exact Hs|exact Hline]. by eapply Hclean.
Qed.

Lemma lines_written_read_back (image_suffixes : list (string * list (string * string)))
    (content : string) (written : list string) :
  (forall i n s, UrlFixer.lookup_suffix image_suffixes i n = Some s -> one_line s = true) ->
  Forall2 (line_written image_suffixes) (Text.file_lines content) written ->
  Text.file_lines (Re.concat_str written) = written.
Proof.
  intros Hclean Hall. apply file_lines_concat.
  pose proof (file_lines_shape content) as Hshape.
  induction Hall as [|line out lines outs Hw _ IH]; [constructor|].
  apply Forall_cons in Hshape as [Hline Hshape].
  constructor; [by eapply line_written_one_line | by apply IH].
Qed.

End OutputLines.

(** C10, as it is stated: a suffix that reads as a reference to a second
    group stops the run before a line is written, an output file that is
    the input file ends up empty, and a suffix that holds a line feed
    makes two lines of one. *)
Lemma update_drops_lines :
  UrlFixer.update_urls_in_file no_escape "train.txt" "train.txt.new"
    [("145", [("0000601", "\2")])] url_list_world = Raise ReError /\
  length (Text.file_lines (default "" (files url_list_world !! "train.txt"))) = 3%nat /\
  UrlFixer.update_urls_in_file no_escape "train.txt" "train.txt"
    [("145", [("0000601", "EGD3NF")])] url_list_world
  = Ok (write_file "train.txt" "" url_list_world) /\
  (exists w',
     UrlFixer.update_urls_in_file no_escape "train.txt" "train.txt.new"
       [("145", [("0000601", "A" +:+ nl +:+ "B")])] url_list_world = Ok w' /\
     length (Text.file_lines (default "" (files w' !! "train.txt.new"))) = 4%nat) /\
  UrlFixer.main (fun _ => None) no_escape "train.txt" None "https://host/images/"
    "image_suffixes.cache" broken_suffix_world = Raise ReError.
Proof.
  split; [vm_compute; reflexivity|]. split; [vm_compute; reflexivity|].
  split; [vm_compute; reflexivity|]. split; [|vm_compute; reflexivity].
  eexists. split; vm_compute; reflexivity.
Qed.

(** C10, amended. When the output file is not the input file and no suffix
    of the mapping holds a backslash, a line feed or a carriage return,
    [update_urls_in_file] writes one line for each line it reads, in the
    same order: the output file, read line by line, has as many lines as
    the input file; a line in which the pattern finds a URL whose key has
    a suffix is written with [_suffix] before [.jpg], every other line is
    written as read, and each line is written without the white space
    around it.  What the pattern finds is [images/1_], digits, [/image-],
    digits and [.jpg], at the leftmost place where that text occurs. *)
Theorem update_writes_line_for_line
    (other_escape : nat -> string -> result (list Re.titem))
    (input_file output_file : string)
    (image_suffixes : list (string * list (string * string)))
    (w : world) (content : string) :
  files w !! input_file = Some content ->
  input_file ≠ output_file ->
  (forall i n s, UrlFixer.lookup_suffix image_suffixes i n = Some s ->
                 plain_suffix s = true) ->
  (exists written,
     UrlFixer.update_urls_in_file other_escape input_file output_file image_suffixes w
       = Ok (write_file output_file (Re.concat_str written) w) /\
     Forall2 (line_written image_suffixes) (Text.file_lines content) written /\
     Text.file_lines (Re.concat_str written) = written /\
     length (Text.file_lines (Re.concat_str written)) = length (Text.file_lines content)) /\
  (forall s pre segs rest,
     Re.find url_items s = Some (pre, segs, rest) ->
     exists i n, segs = ["images/1_"; i; "/image-"; n; ".jpg"] /\
                 is_number i = true /\ is_number n = true /\
                 s = pre +:+ "images/1_" +:+ i +:+ "/image-" +:+ n +:+ ".jpg" +:+ rest).
Proof.
  intros Hfile Hne Hclean. split; [|apply find_url_items].
  assert (Hslash : forall i n s, UrlFixer.lookup_suffix image_suffixes i n = Some s ->
                                 lacks Re.backslash s = true).
  { intros i n s H. by destruct (andb_prop _ _ (Hclean i n s H)). }
  assert (Hline : forall i n s, UrlFixer.lookup_suffix image_suffixes i n = Some s ->
                                one_line s = true).
  { intros i n s H. by destruct (andb_prop _ _ (Hclean i n s H)). }
  destruct (update_lines_written other_escape image_suffixes (Text.file_lines content) Hslash)
    as (written & Hw & Hall).
  pose proof (lines_written_read_back image_suffixes content written Hline Hall) as Hread.
  exists written. split; [|split; [exact Hall|split; [exact Hread|]]].
  - unfold UrlFixer.update_urls_in_file. rewrite Hfile.
    rewrite bool_decide_eq_false_2 by done. by rewrite Hw.
  - rewrite Hread. symmetry. by eapply Forall2_length.
Qed.

Lemma update_writes_line_for_line_witness :
  exists written,
    UrlFixer.update_urls_in_file no_escape "train.txt" "train.txt.new"
      [("145", [("0000601", "EGD3NF")])] url_list_world
    = Ok (write_file "train.txt.new" (Re.concat_str written) url_list_world) /\
    Forall2 (line_written [("145", [("0000601", "EGD3NF")])])
      (Text.file_lines ("  https://host/images/1_145/image-0000601.jpg" +:+ nl +:+
                        "https://host/images/1_146/image-0000001.jpg" +:+ nl +:+
                        "# a comment" +:+ nl))
      written /\
    Text.file_lines (Re.concat_str written) = written /\
    length (Text.file_lines (Re.concat_str written)) = 3%nat.
Proof.
  refine (proj1 (update_writes_line_for_line no_escape "train.txt" "train.txt.new"
                   [("145", [("0000601", "EGD3NF")])] url_list_world _ _ _ _)).
  - vm_compute. reflexivity.
  - discriminate.
  - intros i n s. unfold UrlFixer.lookup_suffix. simpl.
    destruct (decide (i = "145")); simpl; [|discriminate].
    destruct (decide (n = "0000601")); simpl; [|discriminate].
    intros [= <-]. reflexivity.
Defined.

Example update_sample :
  UrlFixer.update_lines no_escape [("145", [("0000601", "EGD3NF")])]
    (Text.file_lines (default "" (files url_list_world !! "train.txt")))
  = Ok ["https://host/images/1_145/image-0000601_EGD3NF.jpg" +:+ nl;
        "https://host/images/1_146/image-0000001.jpg" +:+ nl;
        "# a comment" +:+ nl].
Proof. vm_compute. reflexivity. Qed.

(** ** The functions on sample inputs *)

Example strip_sample : Text.strip ("  a b " +:+ nl) = "a b".
Proof. reflexivity. Qed.

Example split_sample : Text.split_on "," "a,b,,c" = ["a"; "b"; ""; "c"].
Proof. reflexivity. Qed.

Example file_lines_sample :
  Text.file_lines ("ab" +:+ nl +:+ "cd" +:+ String "013" nl +:+ "ef")
  = ["ab" +:+ nl; "cd" +:+ nl; "ef"].
Proof. reflexivity. Qed.

Example join_sample :
  Text.join "datasets/url_dataset" "train.txt" = "datasets/url_dataset/train.txt" /\
  Text.join "out/" "train.txt" = "out/train.txt" /\
  Text.basename "out/temp_labels/145/image-0000601.txt" = "image-0000601.txt".
Proof. repeat split. Qed.

Example py_int_sample :
  py_int " 1004" = Ok 1004 /\ py_int "-7" = Ok (-7) /\ py_int "1_000" = Ok 1000 /\
  py_int "" = Raise ValueError /\ py_int "3.5" = Raise ValueError.
Proof. repeat split. Qed.

Example format_sample :
  PyFloat.format_6f PyFloat.one = "1.000000" /\
  PyFloat.format_6f TwoImagesets.half = "0.500000" /\
  (x ← PyFloat.int_truediv 1 3; Ok (PyFloat.format_6f x)) = Ok "0.333333" /\
  (x ← PyFloat.int_truediv 2 3; Ok (PyFloat.format_6f x)) = Ok "0.666667".
Proof. repeat split; vm_compute; reflexivity. Qed.

Example annotation_sample :
  UrlYoloConverter.parse_annotation_format "0, 1004, 360, 1020, 374, 0"
  = Ok (Some {| UrlYoloConverter.class_id := 0;
                UrlYoloConverter.x1 := 1004; UrlYoloConverter.y1 := 360;
                UrlYoloConverter.x2 := 1020; UrlYoloConverter.y2 := 374 |}) /\
  UrlYoloConverter.parse_annotation_format "0, 1004, 360" = Ok None.
Proof. split; vm_compute; reflexivity. Qed.

(** A box that starts right of the image and ends left of it. *)
Example inverted_box_sample :
  UrlYoloConverter.convert_to_yolo_format
    {| UrlYoloConverter.class_id := 3;
       UrlYoloConverter.x1 := 2500; UrlYoloConverter.y1 := -40;
       UrlYoloConverter.x2 := -100; UrlYoloConverter.y2 := 2000 |}
    1920 1080 (Some UrlYoloConverter.default_class_mapping)
  = Ok "1 0.625000 0.907407 0.000000 1.000000".
Proof. vm_compute. reflexivity. Qed.

Example meta_sample :
  Re.search UrlYoloConverter.meta_pattern "blue/image-0000601.jpg, 1920,1080 extra"
  = Some ("blue/", ["image-0000601.jpg, 1920,1080"; "0000601"; "1920"; "1080"], " extra").
Proof. vm_compute. reflexivity. Qed.

Example base_url_sample :
  (Re.search UrlFixer.base_pattern "https://prism-static.aruw.org/images/1_145/"
   = Some ("https://prism-static.aruw.org/", ["images/1_145/"; "145"], "")) /\
  Re.search UrlFixer.base_pattern "https://prism-static.aruw.org/images/" = None.
Proof. split; vm_compute; reflexivity. Qed.

(** A listing of one imageset is read into the mapping and written to the
    cache file. *)
Example scrape_sample :
  UrlFixer.get_image_suffixes
    (fun url => if String.eqb url "https://host/images/1_145/"
                then Some "<a href=image-0000601_EGD3NF.jpg> <a href=image-0000602_Zq9.jpg>"
                else None)
    "https://host/images/1_145/" (Some "image_suffixes.cache") empty_world
  = Ok ([("145", [("0000601", "EGD3NF"); ("0000602", "Zq9")])],
        {| files := <["image_suffixes.cache" :=
                        "145,0000601,EGD3NF" +:+ nl +:+ "145,0000602,Zq9" +:+ nl]> ∅;
           dirs := ∅; requests := ["https://host/images/1_145/"]; printed := [] |}).
Proof. vm_compute. reflexivity. Qed.

(** * Further properties of the scripts *)

(** ** Printing and reading integers *)

Lemma string_of_uint_digits (u : Decimal.uint) :
  Text.all_chars Text.is_digit (NilEmpty.string_of_uint u) = true.
Proof. induction u; simpl; auto. Qed.

Lemma digits_value_acc (u : Decimal.uint) :
  forall p : positive,
  digits_value (Z.pos p) true (NilEmpty.string_of_uint u)
  = Some (Z.pos (Pos.of_uint_acc u p)).
Proof.
  induction u; intros p; cbn [NilEmpty.string_of_uint digits_value Pos.of_uint_acc];
    [reflexivity|..];
    (match goal with
     | |- context [Text.is_digit ?c] =>
         change (Text.is_digit c) with true;
         let k := eval vm_compute in (Z.of_nat (Re.digit_value c)) in
         change (Z.of_nat (Re.digit_value c)) with k
     end; cbv iota;
     match goal with
     | |- digits_value ?v true _ = Some (Z.pos (Pos.of_uint_acc _ ?q)) =>
         replace v with (Z.pos q) by lia
     end; apply IHu).
Qed.

Lemma digits_value_uint (u : Decimal.uint) :
  forall b : bool, (u = Decimal.Nil -> b = true) ->
  digits_value 0 b (NilEmpty.string_of_uint u) = Some (Z.of_N (Pos.of_uint u)).
Proof.
  induction u; intros b Hb; cbn [NilEmpty.string_of_uint digits_value Pos.of_uint].
  - rewrite Hb; reflexivity.
  - change (Text.is_digit "0") with true. cbv iota.
    change (10 * 0 + Z.of_nat (Re.digit_value "0")) with 0. apply IHu. reflexivity.
  - apply (digits_value_acc u 1).
  - apply (digits_value_acc u 2).
  - apply (digits_value_acc u 3).
  - apply (digits_value_acc u 4).
  - apply (digits_value_acc u 5).
  - apply (digits_value_acc u 6).
  - apply (digits_value_acc u 7).
  - apply (digits_value_acc u 8).
  - apply (digits_value_acc u 9).
Qed.

Lemma digits_of_positive (p : positive) :
  is_number (NilEmpty.string_of_uint (Pos.to_uint p)) = true /\
  digits_value 0 false (NilEmpty.string_of_uint (Pos.to_uint p)) = Some (Z.pos p).
Proof.
  pose proof (Unsigned.to_uint_nonnil p) as Hnn. split.
  - unfold is_number. rewrite string_of_uint_digits.
    destruct (Pos.to_uint p); [congruence|reflexivity..].
  - rewrite digits_value_uint by (intros; congruence).
    rewrite Unsigned.of_to. reflexivity.
Qed.

Lemma rstrip_by_all (p : ascii -> bool) (s : string) :
  Text.all_chars p s = true -> Text.rstrip_by p s = "".
Proof.
  induction s as [|c s IH]; simpl; [reflexivity|].
  intros [Hc Hs]%andb_true_iff. rewrite (IH Hs), Hc. reflexivity.
Qed.

Lemma strip_padded (a s b : string) :
  Text.all_chars Text.is_space a = true -> Text.all_chars Text.is_space b = true ->
  s <> "" -> starts_clean s = true -> ends_clean s = true ->
  Text.strip (a +:+ s +:+ b) = s.
Proof.
  intros Ha Hb Hs Hfirst Hlast. unfold Text.strip.
  assert (Text.lstrip_by Text.is_space (a +:+ s +:+ b) = s +:+ b) as ->.
  { induction a as [|c a IH]; simpl in *.
    - apply lstrip_by_keeps. destruct s as [|c s]; [congruence|]. simpl in *.
      by apply negb_true_iff.
    - apply andb_true_iff in Ha as [-> Ha]. auto. }
  rewrite rstrip_by_app, (rstrip_by_all _ _ Hb). simpl.
  apply rstrip_by_keeps. unfold ends_clean in Hlast.
  destruct (Text.last_char s); [by apply negb_true_iff|done].
Qed.

Lemma number_unsigned (t : string) :
  is_number t = true ->
  match t with
  | String "+" r => digits_value 0 false r
  | String "-" r => Z.opp <$> digits_value 0 false r
  | _ => digits_value 0 false t
  end = digits_value 0 false t.
Proof.
  destruct t as [|c r]; [reflexivity|]. unfold is_number. simpl.
  intros [Hc _]%andb_true_iff.
  destruct c as [[] [] [] [] [] [] [] []]; try discriminate; reflexivity.
Qed.

Lemma str_of_int_number (n : Z) : 0 <= n -> is_number (PyFloat.str_of_int n) = true.
Proof.
  intros Hn. destruct n as [|p|p]; [reflexivity| |lia].
  unfold PyFloat.str_of_int. cbn [Z.to_int NilZero.string_of_int].
  pose proof (Unsigned.to_uint_nonnil p). pose proof (digits_of_positive p) as [Hd _].
  unfold NilZero.string_of_uint. by destruct (Pos.to_uint p).
Qed.

Lemma str_of_int_neg (p : positive) :
  PyFloat.str_of_int (Z.neg p) = String "-" (PyFloat.str_of_int (Z.pos p)).
Proof. reflexivity. Qed.

Lemma str_of_int_clean (n : Z) :
  PyFloat.str_of_int n <> "" /\
  starts_clean (PyFloat.str_of_int n) = true /\ ends_clean (PyFloat.str_of_int n) = true /\
  lacks "," (PyFloat.str_of_int n) = true.
Proof.
  assert (forall m, 0 <= m ->
            PyFloat.str_of_int m <> "" /\
            starts_clean (PyFloat.str_of_int m) = true /\
            ends_clean (PyFloat.str_of_int m) = true /\
            lacks "," (PyFloat.str_of_int m) = true) as Hpos.
  { intros m Hm. pose proof (str_of_int_number m Hm) as Hnum.
    destruct (number_field _ Hnum) as (Hsep & Hs & He).
    repeat split; auto.
    - intros E. rewrite E in Hnum. discriminate.
    - by apply no_separator_comma. }
  destruct n as [|p|p]; [apply Hpos; lia|apply Hpos; lia|].
  destruct (Hpos (Z.pos p)) as (Hne & Hs & He & Hc); [lia|].
  rewrite str_of_int_neg. repeat split; auto.
  unfold ends_clean in *. simpl.
  destruct (PyFloat.str_of_int (Z.pos p)); [congruence|exact He].
Qed.

Lemma py_int_str_of_int (a b : string) (n : Z) :
  Text.all_chars Text.is_space a = true -> Text.all_chars Text.is_space b = true ->
  py_int (a +:+ PyFloat.str_of_int n +:+ b) = Ok n.
Proof.
  intros Ha Hb. destruct (str_of_int_clean n) as (Hne & Hs & He & _).
  unfold py_int. rewrite (strip_padded a _ b Ha Hb Hne Hs He).
  destruct n as [|p|p]; [reflexivity| |].
  - rewrite number_unsigned by (apply str_of_int_number; lia).
    unfold PyFloat.str_of_int. cbn [Z.to_int NilZero.string_of_int].
    pose proof (Unsigned.to_uint_nonnil p). pose proof (digits_of_positive p) as [_ Hd].
    unfold NilZero.string_of_uint. destruct (Pos.to_uint p); [congruence|by rewrite Hd..].
  - rewrite str_of_int_neg.
    unfold PyFloat.str_of_int. cbn [Z.to_int NilZero.string_of_int].
    pose proof (Unsigned.to_uint_nonnil p). pose proof (digits_of_positive p) as [_ Hd].
    unfold NilZero.string_of_uint. destruct (Pos.to_uint p); [congruence|by rewrite Hd..].
Qed.

(** ** Annotation lines *)

Lemma space_not_comma (s : string) :
  Text.all_chars Text.is_space s = true -> lacks "," s = true.
Proof.
  apply all_chars_impl. intros c Hc.
  destruct c as [[] [] [] [] [] [] [] []]; try discriminate; reflexivity.
Qed.

Lemma fields_of_printed (vals : list Z) :
  vals <> [] ->
  forall pad, Text.all_chars Text.is_space pad = true ->
  mapM (fun x => py_int (Text.strip x))
       (Text.split_on "," (pad +:+ join_with ", " (map PyFloat.str_of_int vals)))
  = Ok vals.
Proof.
  induction vals as [|v vals IH]; [congruence|]. intros _ pad Hpad.
  destruct (str_of_int_clean v) as (Hne & Hs & He & Hc).
  assert (py_int (Text.strip (pad +:+ PyFloat.str_of_int v)) = Ok v) as Hv.
  { rewrite <- (append_nil_r (PyFloat.str_of_int v)) at 1.
    rewrite (strip_padded pad _ "" Hpad eq_refl Hne Hs He).
    rewrite <- (append_nil_r (PyFloat.str_of_int v)).
    apply (py_int_str_of_int "" "" v); reflexivity. }
  destruct vals as [|v' vals].
  - cbn [map join_with]. rewrite split_on_clean.
    + cbn [mapM]. rewrite Hv. reflexivity.
    + pose proof (space_not_comma _ Hpad) as Hp. unfold lacks in *.
      rewrite all_chars_app, Hp, Hc. reflexivity.
  - change (join_with ", " (map PyFloat.str_of_int (v :: v' :: vals)))
      with (PyFloat.str_of_int v +:+
            String "," (" " +:+ join_with ", " (map PyFloat.str_of_int (v' :: vals)))).
    rewrite <- append_assoc, split_on_app.
    + cbn [mapM]. rewrite Hv. cbn [mbind result_bind bind].
      rewrite IH by (congruence || reflexivity). reflexivity.
    + pose proof (space_not_comma _ Hpad) as Hp. unfold lacks in *.
      rewrite all_chars_app, Hp, Hc. reflexivity.
Qed.

(** X1. A line of six or more integers, printed in decimal and separated
    by a comma and a space as in '0, 1004, 360, 1020, 374, 0', is parsed
    to the annotation made of the first five; the other values are not
    looked at. *)
Theorem parse_printed_annotation (c a b d e k : Z) (more : list Z) :
  UrlYoloConverter.parse_annotation_format
    (join_with ", " (map PyFloat.str_of_int (c :: a :: b :: d :: e :: k :: more)))
  = Ok (Some {| UrlYoloConverter.class_id := c;
                UrlYoloConverter.x1 := a; UrlYoloConverter.y1 := b;
                UrlYoloConverter.x2 := d; UrlYoloConverter.y2 := e |}).
Proof.
  unfold UrlYoloConverter.parse_annotation_format.
  assert (c :: a :: b :: d :: e :: k :: more <> []) as Hne by discriminate.
  pose proof (fields_of_printed _ Hne "" eq_refl) as Hf.
  cbn [append] in Hf. rewrite Hf. reflexivity.
Qed.

(** X2. A line of one to five integers is not an error: it is parsed to
    [None], and the caller skips it. *)
Theorem short_line_is_skipped (vals : list Z) :
  vals <> [] -> (length vals < 6)%nat ->
  UrlYoloConverter.parse_annotation_format
    (join_with ", " (map PyFloat.str_of_int vals)) = Ok None.
Proof.
  intros Hne Hlen. unfold UrlYoloConverter.parse_annotation_format.
  pose proof (fields_of_printed _ Hne "" eq_refl) as Hf.
  cbn [append] in Hf. rewrite Hf.
  do 6 (destruct vals as [|? vals]; [reflexivity|]). simpl in Hlen. lia.
Qed.

Lemma short_line_is_skipped_witness :
  UrlYoloConverter.parse_annotation_format "10, -100, 200, 300, 400" = Ok None.
Proof.
  apply (short_line_is_skipped [10; -100; 200; 300; 400]); [discriminate|simpl; lia].
Defined.

Lemma py_int_raises (s : string) (e : exn) : py_int s = Raise e -> e = ValueError.
Proof. unfold py_int. intros H. destruct (match Text.strip s with "" => _ | _ => _ end); congruence. Qed.

Lemma mapM_raises {A B : Type} (f : A -> result B) (l : list A) (x : A) (e e' : exn) :
  (forall y e0, f y = Raise e0 -> e0 = e) ->
  x ∈ l -> f x = Raise e' -> mapM f l = Raise e.
Proof.
  intros Hf Hx Hfx. induction l as [|y l IH]; [by apply elem_of_nil in Hx|].
  cbn [mapM]. destruct (f y) as [b|e0] eqn:Hy.
  - apply elem_of_cons in Hx as [->|Hx]; [congruence|].
    cbn [mbind result_bind bind]. rewrite (IH Hx). reflexivity.
  - rewrite (Hf _ _ Hy). reflexivity.
Qed.

(** X3. A line with a blank field (an empty line, two commas in a row, a
    comma at the end) is not skipped: [int] raises [ValueError] on the
    blank field, whatever the number of fields. *)
Theorem blank_field_raises (annotation_line field : string) :
  field ∈ Text.split_on "," annotation_line -> Text.strip field = "" ->
  UrlYoloConverter.parse_annotation_format annotation_line = Raise ValueError.
Proof.
  intros Hin Hblank. unfold UrlYoloConverter.parse_annotation_format.
  rewrite (mapM_raises (fun x => py_int (Text.strip x)) _ field ValueError ValueError).
  - reflexivity.
  - intros y e0. apply py_int_raises.
  - exact Hin.
  - rewrite Hblank. reflexivity.
Qed.

Lemma blank_field_raises_witness :
  UrlYoloConverter.parse_annotation_format "0, 1004, 360, 1020, 374, 0," = Raise ValueError.
Proof.
  apply (blank_field_raises "0, 1004, 360, 1020, 374, 0," "").
  - vm_compute. repeat constructor.
  - reflexivity.
Defined.

(** ** Division by an image dimension *)

Lemma int_truediv_raises (a b : Z) (e : exn) :
  PyFloat.int_truediv a b = Raise e -> e = ZeroDivisionError \/ e = OverflowError.
Proof.
  unfold PyFloat.int_truediv. destruct (b =? 0); [intros [= <-]; auto|].
  destruct (a =? 0); [discriminate|].
  destruct (SFdiv_core_binary _ _ _ _ _ _) as [[mz ez] lz].
  destruct (binary_round_aux _ _ _ _ _ _); intros [= <-]; auto.
Qed.

Lemma of_int_raises (n : Z) (e : exn) : PyFloat.of_int n = Raise e -> e = OverflowError.
Proof.
  unfold PyFloat.of_int. destruct (binary_normalize _ _ _ _ _); congruence.
Qed.

Lemma div_int_raises (x : spec_float) (n : Z) (e : exn) :
  PyFloat.div_int x n = Raise e -> e = ZeroDivisionError \/ e = OverflowError.
Proof.
  unfold PyFloat.div_int. destruct (PyFloat.of_int n) as [d|e0] eqn:Hd.
  - cbn [mbind result_bind bind]. destruct (PyFloat.is_zero d); intros [= <-]; auto.
  - cbn [mbind result_bind bind]. intros [= <-]. right. by apply of_int_raises in Hd.
Qed.

Lemma div_int_zero (x : spec_float) : PyFloat.div_int x 0 = Raise ZeroDivisionError.
Proof. reflexivity. Qed.

Lemma int_truediv_zero (a : Z) : PyFloat.int_truediv a 0 = Raise ZeroDivisionError.
Proof. reflexivity. Qed.

Lemma normalized_box_raises a img_width img_height class_mapping e :
  UrlYoloConverter.normalized_box a img_width img_height class_mapping = Raise e ->
  e = ZeroDivisionError \/ e = OverflowError.
Proof.
  unfold UrlYoloConverter.normalized_box.
  repeat match goal with
  | |- (?r ≫= _) = Raise _ -> _ =>
      let H := fresh "H" in
      destruct r eqn:H; cbn [mbind result_bind bind];
      [|intros [= <-];
        first [by apply int_truediv_raises in H | by apply div_int_raises in H]]
  end.
  discriminate.
Qed.

(** X4. An image entry whose width or height is 0 never gets a label
    line: the conversion of each of its annotations raises, with
    [ZeroDivisionError] unless a coordinate is too large for a float and
    raises [OverflowError] first. *)
Theorem zero_dimension_raises
    (a : UrlYoloConverter.annotation) (img_width img_height : Z)
    (class_mapping : option (gmap Z Z)) :
  img_width = 0 \/ img_height = 0 ->
  exists e,
    UrlYoloConverter.convert_to_yolo_format a img_width img_height class_mapping = Raise e /\
    (e = ZeroDivisionError \/ e = OverflowError).
Proof.
  intros Hzero. unfold UrlYoloConverter.convert_to_yolo_format.
  destruct (UrlYoloConverter.normalized_box a img_width img_height class_mapping)
    as [b|e] eqn:Hbox.
  - exfalso. revert Hbox. unfold UrlYoloConverter.normalized_box.
    intros (xs & _ & Hbox)%bind_Ok. apply bind_Ok in Hbox as (xc & Hxc & Hbox).
    apply bind_Ok in Hbox as (ys & _ & Hbox). apply bind_Ok in Hbox as (yc & Hyc & _).
    destruct Hzero as [-> | ->].
    + by rewrite div_int_zero in Hxc.
    + by rewrite div_int_zero in Hyc.
  - exists e. split; [reflexivity|]. by apply normalized_box_raises in Hbox.
Qed.

Lemma zero_dimension_raises_witness :
  exists e,
    UrlYoloConverter.convert_to_yolo_format sample_annotation 1920 0 None = Raise e /\
    (e = ZeroDivisionError \/ e = OverflowError).
Proof. apply (zero_dimension_raises sample_annotation 1920 0 None). right. reflexivity. Defined.

(** ** The sign of a quotient *)

Lemma shr_1_nonneg (mrs : shr_record) : 0 <= shr_m mrs -> 0 <= shr_m (shr_1 mrs).
Proof. destruct mrs as [[|[p|p|]|p] r s]; simpl; lia. Qed.

Lemma iter_pos_inv {A : Type} (P : A -> Prop) (f : A -> A) :
  (forall x, P x -> P (f x)) -> forall n x, P x -> P (SpecFloat.iter_pos f n x).
Proof. intros Hf. induction n; simpl; auto. Qed.

Lemma shr_fexp_nonneg (m e : Z) (l : location) :
  0 <= m -> 0 <= shr_m (shr_fexp PyFloat.prec PyFloat.emax m e l).1.
Proof.
  intros Hm. unfold shr_fexp, shr.
  assert (0 <= shr_m (shr_record_of_loc m l)) as H0 by (by destruct l as [|[]]).
  destruct (_ - e); simpl; auto.
  apply (iter_pos_inv (fun r => 0 <= shr_m r)); auto using shr_1_nonneg.
Qed.

Lemma round_nearest_even_nonneg (m : Z) (l : location) :
  0 <= m -> 0 <= round_nearest_even m l.
Proof. intros Hm. destruct l as [|[]]; simpl; try destruct (Z.even m); lia. Qed.

Lemma binary_round_aux_sign (s : bool) (m e : Z) (l : location) :
  0 <= m ->
  match binary_round_aux PyFloat.prec PyFloat.emax s m e l with
  | S754_nan => False
  | S754_zero s' | S754_infinity s' | S754_finite s' _ _ => s' = s
  end.
Proof.
  intros Hm. unfold binary_round_aux.
  pose proof (shr_fexp_nonneg m e l Hm) as H1.
  destruct (shr_fexp _ _ m e l) as [mrs' e']. simpl in H1.
  pose proof (shr_fexp_nonneg _ e' loc_Exact
                (round_nearest_even_nonneg _ (loc_of_shr_record mrs') H1)) as H2.
  destruct (shr_fexp _ _ _ e' loc_Exact) as [mrs'' e'']. simpl in H2.
  destruct (shr_m mrs''); [reflexivity| |lia].
  destruct (e'' <=? _); reflexivity.
Qed.

Lemma div_core_nonneg (a b : Z) :
  0 <= a -> 0 < b ->
  0 <= (SFdiv_core_binary PyFloat.prec PyFloat.emax a 0 b 0).1.1.
Proof.
  intros Ha Hb. unfold SFdiv_core_binary.
  match goal with |- context [Z.div_eucl ?x b] => set (m' := x) end.
  assert (0 <= m') as Hm'.
  { subst m'. destruct (_ - _) eqn:E; [lia| |lia]. rewrite <- E. apply Z.shiftl_nonneg. lia. }
  pose proof (Z.div_pos m' b Hm' Hb) as Hq. unfold Z.div in Hq.
  destruct (Z.div_eucl m' b) as [q r]. exact Hq.
Qed.

(** A quotient of a non-positive by a positive int is clamped to 0. *)
Lemma clamp_nonpos_quotient (a b : Z) (x : spec_float) :
  a <= 0 -> 0 < b -> PyFloat.int_truediv a b = Ok x ->
  UrlYoloConverter.clamp x = PyFloat.zero.
Proof.
  intros Ha Hb. unfold PyFloat.int_truediv.
  destruct (b =? 0) eqn:Eb; [lia|]. destruct (a =? 0) eqn:Ea.
  - intros [= <-]. by destruct (b <? 0).
  - assert ((a <? 0) = true) as -> by lia. assert ((b <? 0) = false) as -> by lia.
    pose proof (div_core_nonneg (Z.abs a) (Z.abs b) ltac:(lia) ltac:(lia)) as Hq.
    destruct (SFdiv_core_binary _ _ _ _ _ _) as [[mz ez] lz]. simpl in Hq.
    pose proof (binary_round_aux_sign (xorb true false) mz ez lz Hq) as Hs.
    destruct (binary_round_aux _ _ _ _ _ _) as [s|s| |s m e];
      try discriminate; try contradiction; intros [= <-]; simpl in Hs; subst s; reflexivity.
Qed.

(** X5. A box that is not wider than a point (x2 <= x1) in an image of
    positive width gets the width 0, printed 0.000000, and likewise the
    height when y2 <= y1: such a box is not rejected. *)
Theorem degenerate_box_has_no_size
    (a : UrlYoloConverter.annotation) (img_width img_height : Z)
    (class_mapping : option (gmap Z Z)) (b : UrlYoloConverter.yolo_box) :
  UrlYoloConverter.normalized_box a img_width img_height class_mapping = Ok b ->
  (UrlYoloConverter.x2 a <= UrlYoloConverter.x1 a -> 0 < img_width ->
   UrlYoloConverter.width b = PyFloat.zero /\
   PyFloat.format_6f (UrlYoloConverter.width b) = "0.000000") /\
  (UrlYoloConverter.y2 a <= UrlYoloConverter.y1 a -> 0 < img_height ->
   UrlYoloConverter.height b = PyFloat.zero /\
   PyFloat.format_6f (UrlYoloConverter.height b) = "0.000000").
Proof.
  unfold UrlYoloConverter.normalized_box.
  intros (xs & _ & Hbox)%bind_Ok. apply bind_Ok in Hbox as (xc & _ & Hbox).
  apply bind_Ok in Hbox as (ys & _ & Hbox). apply bind_Ok in Hbox as (yc & _ & Hbox).
  apply bind_Ok in Hbox as (wd & Hwd & Hbox). apply bind_Ok in Hbox as (ht & Hht & Hbox).
  injection Hbox as <-. cbn [UrlYoloConverter.width UrlYoloConverter.height].
  split; intros Hle Hpos.
  - assert (UrlYoloConverter.x2 a - UrlYoloConverter.x1 a <= 0) as Hd by lia.
    rewrite (clamp_nonpos_quotient _ _ _ Hd Hpos Hwd). split; reflexivity.
  - assert (UrlYoloConverter.y2 a - UrlYoloConverter.y1 a <= 0) as Hd by lia.
    rewrite (clamp_nonpos_quotient _ _ _ Hd Hpos Hht). split; reflexivity.
Qed.

Lemma degenerate_box_has_no_size_witness :
  exists b,
    UrlYoloConverter.normalized_box
      {| UrlYoloConverter.class_id := 10;
         UrlYoloConverter.x1 := 300; UrlYoloConverter.y1 := 200;
         UrlYoloConverter.x2 := 100; UrlYoloConverter.y2 := 200 |} 1920 1080 None = Ok b /\
    UrlYoloConverter.width b = PyFloat.zero /\ UrlYoloConverter.height b = PyFloat.zero.
Proof.
  eexists. split; [vm_compute; reflexivity|].
  match goal with
  | |- UrlYoloConverter.width ?b = _ /\ _ =>
      pose proof (degenerate_box_has_no_size
        {| UrlYoloConverter.class_id := 10;
           UrlYoloConverter.x1 := 300; UrlYoloConverter.y1 := 200;
           UrlYoloConverter.x2 := 100; UrlYoloConverter.y2 := 200 |} 1920 1080 None b
        ltac:(vm_compute; reflexivity)) as [Hw Hh]
  end.
  split; [apply Hw|apply Hh]; simpl; lia.
Defined.

(** ** Resolving the URL of an image *)

Section ResolveFacts.

Variable urlopen : string -> option (Z * string).

Lemma choices_plus (cls : ascii -> bool) (s seg r : string) :
  (seg, r) ∈ Re.choices (Re.Plus cls) s -> seg <> "" /\ Text.all_chars cls seg = true.
Proof.
  simpl. destruct (Re.span cls s) as [a b] eqn:E.
  apply span_sound in E as [_ Ha].
  intros [Hne Hin]%list_elem_of_filter. simpl in Hne.
  apply cuts_sound in Hin as [_ [z ->]]. split.
  - intros ->. discriminate.
  - by apply (all_chars_prefix _ _ _ Ha).
Qed.

Lemma matches_head (p : Re.pattern) (html : string) (m : list string) (ms : list (list string)) :
  Re.matches p html = m :: ms ->
  exists s segs rest, Re.match_items (Re.items p) s = Some (segs, rest) /\
                      m = Re.groups_of p segs.
Proof.
  unfold Re.matches. cbn [Re.matches_fuel]. unfold Re.search.
  destruct (Re.find (Re.items p) html) as [[[pre segs] rest]|] eqn:Hf;
    cbn [mbind option_bind]; [|discriminate].
  intros [= <- _]. apply find_match in Hf as [s Hm]. by exists s, segs, rest.
Qed.

Lemma listed_name (image_number html m : string) (gs : list string) (ms : list (list string)) :
  Re.matches (UrlYoloConverter.listing_pattern image_number) html = (m :: gs) :: ms ->
  exists sfx, sfx <> "" /\ Text.all_chars Text.is_alnum sfx = true /\
              m = "image-" +:+ image_number +:+ "_" +:+ sfx +:+ ".jpg".
Proof.
  intros (s & segs & rest & Hm & Hg)%matches_head.
  unfold UrlYoloConverter.listing_pattern, Re.items in Hm.
  apply match_items_cons in Hm as (g1 & r1 & segs1 & H1 & Hm & ->).
  apply match_items_cons in Hm as (g2 & r2 & segs2 & H2 & Hm & ->).
  apply match_items_cons in Hm as (g3 & r3 & segs3 & H3 & Hm & ->).
  injection Hm as <- _.
  apply choices_lit in H1 as ->. apply choices_lit in H3 as ->.
  apply choices_plus in H2 as [Hne Hal].
  unfold Re.groups_of in Hg. cbn [Re.concat_str] in Hg. injection Hg as -> _.
  exists g2. repeat split; try done. by rewrite ?append_assoc, ?append_nil_r.
Qed.

Lemma get_actual_image_url_spec (base_url image_number : string) (w : world) :
  let r := UrlYoloConverter.get_actual_image_url urlopen base_url image_number w in
  (exists tail,
     r.1 = Text.rstrip_by (Text.is_char "/") base_url +:+ "/image-" +:+ image_number +:+ tail /\
     url_ending tail) /\
  (exists rs, requests r.2 = (requests w ++ base_url :: rs)%list /\ (length rs <= 3)%nat) /\
  files r.2 = files w /\ dirs r.2 = dirs w /\
  ((forall url, urlopen url = None) ->
   r.1 = Text.rstrip_by (Text.is_char "/") base_url +:+ "/image-" +:+ image_number +:+ ".jpg" /\
   length (requests r.2) = (length (requests w) + 4)%nat).
Proof.
  unfold UrlYoloConverter.get_actual_image_url.
  set (base := Text.rstrip_by (Text.is_char "/") base_url).
  assert (Hfall :
    let r :=
      (let test_url ext := base +:+ "/image-" +:+ image_number +:+ "." +:+ ext in
       let w1 := request base_url w in
       let w2 := request (test_url "jpg") w1 in
       if UrlYoloConverter.status_200 urlopen (test_url "jpg") then (test_url "jpg", w2) else
       let w3 := request (test_url "jpeg") w2 in
       if UrlYoloConverter.status_200 urlopen (test_url "jpeg") then (test_url "jpeg", w3) else
       let w4 := request (test_url "png") w3 in
       if UrlYoloConverter.status_200 urlopen (test_url "png") then (test_url "png", w4) else
       (base +:+ "/image-" +:+ image_number +:+ ".jpg", w4)) in
    (exists tail, r.1 = base +:+ "/image-" +:+ image_number +:+ tail /\ url_ending tail) /\
    (exists rs, requests r.2 = (requests w ++ base_url :: rs)%list /\ (length rs <= 3)%nat) /\
    files r.2 = files w /\ dirs r.2 = dirs w /\
    ((forall url, urlopen url = None) ->
     r.1 = base +:+ "/image-" +:+ image_number +:+ ".jpg" /\
     length (requests r.2) = (length (requests w) + 4)%nat)).
  { cbv zeta. unfold UrlYoloConverter.status_200.
    repeat match goal with
    | |- context [urlopen ?u] => destruct (urlopen u) as [[? ?]|] eqn:?
    | |- context [(?c =? 200)] => destruct (c =? 200) eqn:?
    end; cbn [fst snd request requests files dirs].
    all: split; [|split; [|split; [|split]]].
    all: try reflexivity.
    all: match goal with
         | |- exists tail, _ /\ url_ending tail =>
             first [ by (exists ".jpg"; split; [|unfold url_ending; auto])
                   | by (exists ".jpeg"; split; [|unfold url_ending; auto])
                   | by (exists ".png"; split; [|unfold url_ending; auto]) ]
         | |- exists rs, _ =>
             eexists; split; [rewrite <- ?app_assoc; reflexivity|simpl; lia]
         | |- (forall url, _) -> _ =>
             intros Hnone;
             first [ match goal with H : urlopen ?u = Some _ |- _ => by rewrite Hnone in H end
                   | split; [reflexivity|rewrite !length_app; simpl; lia] ]
         end. }
  destruct (urlopen base_url) as [[code html]|] eqn:Hlist; [|exact Hfall].
  destruct (Re.matches (UrlYoloConverter.listing_pattern image_number) html)
    as [|[|m gs] ms] eqn:Hm; [exact Hfall|exact Hfall|].
  apply listed_name in Hm as (sfx & Hne & Hal & ->).
  cbn [fst snd request requests files dirs]. split; [|split; [|split; [|split]]].
  - exists ("_" +:+ sfx +:+ ".jpg"). split; [reflexivity|].
    unfold url_ending. do 3 right. by exists sfx.
  - exists []. split; [reflexivity|simpl; lia].
  - reflexivity.
  - reflexivity.
  - intros Hnone. rewrite Hnone in Hlist. discriminate.
Qed.

(** X6. For an image number made of digits, the URL that
    [get_actual_image_url] returns is always the base URL without its
    trailing slashes, then [/image-], the image number asked for, and
    either a suffix of letters and digits and [.jpg] as the listing
    shows it, or one of the extensions tried; with no answer at all it
    is the guess ending in [.jpg], after four requests.  The listing is
    requested first, at most three more URLs are requested, and no file
    is touched. *)
Theorem resolved_url_names_the_image (base_url image_number : string) (w : world) :
  is_number image_number = true ->
  let r := UrlYoloConverter.get_actual_image_url urlopen base_url image_number w in
  (exists tail,
     r.1 = Text.rstrip_by (Text.is_char "/") base_url +:+ "/image-" +:+ image_number +:+ tail /\
     url_ending tail) /\
  (exists rs, requests r.2 = (requests w ++ base_url :: rs)%list /\ (length rs <= 3)%nat) /\
  files r.2 = files w /\ dirs r.2 = dirs w /\
  ((forall url, urlopen url = None) ->
   r.1 = Text.rstrip_by (Text.is_char "/") base_url +:+ "/image-" +:+ image_number +:+ ".jpg" /\
   length (requests r.2) = (length (requests w) + 4)%nat).
Proof. intros _. apply get_actual_image_url_spec. Qed.

End ResolveFacts.

Lemma resolved_url_names_the_image_witness :
  let r := UrlYoloConverter.get_actual_image_url (fun _ => None)
             "https://host/images/1_145/" "0000601" empty_world in
  r.1 = "https://host/images/1_145/image-0000601.jpg" /\
  length (requests r.2) = 4%nat.
Proof.
  apply (proj2 (proj2 (proj2 (proj2
    (resolved_url_names_the_image (fun _ => None)
       "https://host/images/1_145/" "0000601" empty_world eq_refl))))).
  reflexivity.
Defined.

(** ** The pairs of an annotation file *)

Section PairFacts.

Variable urlopen : string -> option (Z * string).
Variable yaml_images : string -> result (list UrlYoloConverter.img_entry).

Lemma keeps_files_refl (w : world) : keeps_files w w.
Proof. by intros p Hp. Qed.

Lemma keeps_files_trans (w1 w2 w3 : world) :
  keeps_files w1 w2 -> keeps_files w2 w3 -> keeps_files w1 w3.
Proof.
  intros H12 H23 p Hp. auto.
Qed.

Lemma keeps_files_write (p content : string) (w : world) :
  content <> "" -> keeps_files w (write_file p content w).
Proof.
  intros Hne q (c & Hq & Hc). unfold present. simpl.
  destruct (decide (p = q)) as [->|Hpq].
  - rewrite lookup_insert_eq. eauto.
  - rewrite lookup_insert_ne by done. eauto.
Qed.

Lemma keeps_files_eq (w w' : world) : files w' = files w -> keeps_files w w'.
Proof. intros E p Hp. unfold present. by rewrite E. Qed.

Lemma labelled_kept base_url output_dir (w w' : world) p :
  keeps_files w w' -> labelled base_url output_dir w p -> labelled base_url output_dir w' p.
Proof.
  intros Hk (n & tail & Hn & Ht & H1 & H2 & Hf).
  exists n, tail. repeat split; try done. by apply Hk.
Qed.

Lemma meta_groups (meta pre g0 n g2 g3 rest : string) :
  Re.search UrlYoloConverter.meta_pattern meta = Some (pre, [g0; n; g2; g3], rest) ->
  is_number n = true.
Proof.
  unfold Re.search.
  destruct (Re.find (Re.items UrlYoloConverter.meta_pattern) meta)
    as [[[pre' segs] rest']|] eqn:Hf; cbn [mbind option_bind]; [|discriminate].
  apply find_match in Hf as [s' Hm].
  unfold UrlYoloConverter.meta_pattern, Re.items in Hm.
  apply match_items_cons in Hm as (g1 & r1 & segs1 & H1 & Hm & ->).
  apply match_items_cons in Hm as (d2 & r2 & segs2 & H2 & Hm & ->).
  apply match_items_cons in Hm as (d3 & r3 & segs3 & H3 & Hm & ->).
  apply match_items_cons in Hm as (d4 & r4 & segs4 & H4 & Hm & ->).
  apply match_items_cons in Hm as (d5 & r5 & segs5 & H5 & Hm & ->).
  apply match_items_cons in Hm as (d6 & r6 & segs6 & H6 & Hm & ->).
  apply match_items_cons in Hm as (d7 & r7 & segs7 & H7 & Hm & ->).
  apply match_items_cons in Hm as (d8 & r8 & segs8 & H8 & Hm & ->).
  injection Hm as <- _. unfold Re.groups_of. simpl. rewrite !append_nil_r.
  intros [= _ _ <- _ _ _]. by eapply choices_digits.
Qed.

Lemma append_not_empty (a b : string) : a <> "" -> a +:+ b <> "".
Proof. destruct a; [congruence|discriminate]. Qed.

Lemma format_box_not_empty (b : UrlYoloConverter.yolo_box) :
  UrlYoloConverter.format_box b <> "".
Proof.
  unfold UrlYoloConverter.format_box. apply append_not_empty.
  by destruct (str_of_int_clean (UrlYoloConverter.box_class_id b)).
Qed.

Lemma mapM_raise_inv {A B : Type} (f : A -> result B) (l : list A) (e : exn) :
  mapM f l = Raise e -> exists x, x ∈ l /\ f x = Raise e.
Proof.
  induction l as [|y l IH]; cbn [mapM]; [discriminate|].
  destruct (f y) as [b|e0] eqn:Hy; cbn [mbind result_bind bind].
  - destruct (mapM f l) as [bs|e1]; cbn [mbind result_bind bind]; [discriminate|].
    intros [= <-]. destruct (IH eq_refl) as (x & Hx & Hfx).
    exists x. split; [by apply list_elem_of_further|done].
  - intros [= <-]. exists y. split; [apply list_elem_of_here|done].
Qed.

Lemma parse_annotation_format_raises (annotation_line : string) (e : exn) :
  UrlYoloConverter.parse_annotation_format annotation_line = Raise e -> e = ValueError.
Proof.
  unfold UrlYoloConverter.parse_annotation_format.
  destruct (mapM _ _) as [values|e0] eqn:Hm; cbn [mbind result_bind bind].
  - destruct values as [|? [|? [|? [|? [|? [|? ?]]]]]]; discriminate.
  - intros [= <-]. apply mapM_raise_inv in Hm as (x & _ & Hx). by apply py_int_raises in Hx.
Qed.

Lemma convert_to_yolo_format_raises a img_width img_height class_mapping e :
  UrlYoloConverter.convert_to_yolo_format a img_width img_height class_mapping = Raise e ->
  e = ZeroDivisionError \/ e = OverflowError.
Proof.
  unfold UrlYoloConverter.convert_to_yolo_format.
  destruct (UrlYoloConverter.normalized_box _ _ _ _) as [b|e0] eqn:Hb;
    cbn [mbind result_bind bind]; [discriminate|].
  intros [= <-]. by apply normalized_box_raises in Hb.
Qed.

Lemma convert_lines_spec (lines : list string) (img_width img_height : Z)
    (class_mapping : option (gmap Z Z)) :
  forall acc,
  match UrlYoloConverter.convert_lines lines img_width img_height class_mapping acc with
  | Ok out => Forall (fun l => l <> "") acc -> Forall (fun l => l <> "") out
  | Raise e => conversion_error e
  end.
Proof.
  induction lines as [|line lines IH]; intros acc; cbn [UrlYoloConverter.convert_lines].
  - done.
  - destruct (UrlYoloConverter.parse_annotation_format line) as [[a|]|e] eqn:Hp;
      cbn [mbind result_bind bind].
    + destruct (UrlYoloConverter.convert_to_yolo_format a _ _ _) as [y|e] eqn:Hy;
        cbn [mbind result_bind bind].
      * specialize (IH (acc ++ [y])%list).
        destruct (UrlYoloConverter.convert_lines _ _ _ _ _); [|done].
        intros Hacc. apply IH. apply Forall_app. split; [done|].
        constructor; [|constructor].
        unfold UrlYoloConverter.convert_to_yolo_format in Hy.
        apply bind_Ok in Hy as (b & _ & [= <-]). apply format_box_not_empty.
      * apply convert_to_yolo_format_raises in Hy. unfold conversion_error. tauto.
    + apply IH.
    + apply parse_annotation_format_raises in Hp. unfold conversion_error. tauto.
Qed.

Lemma join_with_not_empty (sep : string) (l : list string) :
  l <> [] -> Forall (fun x => x <> "") l -> join_with sep l <> "".
Proof.
  destruct l as [|x l]; [congruence|]. intros _ Hl. apply Forall_cons in Hl as [Hx _].
  destruct l; simpl; [done|]. by apply append_not_empty.
Qed.

(** The loop over the entries: what it raises, and what it returns and
    leaves behind otherwise. *)
Lemma process_entries_spec (base_url output_dir : string)
    (class_mapping : option (gmap Z Z)) (verify_urls : bool)
    (entries : list UrlYoloConverter.img_entry) :
  forall pairs w,
  match UrlYoloConverter.process_entries urlopen entries base_url output_dir
          class_mapping verify_urls pairs w with
  | Ok (pairs', w') =>
      dirs w' = dirs w /\ keeps_files w w' /\
      exists new, pairs' = (pairs ++ new)%list /\
                  Forall (labelled base_url output_dir w') new /\
                  (length new <= length entries)%nat
  | Raise e => conversion_error e
  end.
Proof.
  induction entries as [|entry entries IH]; intros pairs w;
    cbn [UrlYoloConverter.process_entries].
  - split; [done|]. split; [apply keeps_files_refl|].
    exists []. by rewrite app_nil_r.
  - assert (Hskip : forall w1, dirs w1 = dirs w -> files w1 = files w ->
              match UrlYoloConverter.process_entries urlopen entries base_url output_dir
                      class_mapping verify_urls pairs w1 with
              | Ok (pairs', w') =>
                  dirs w' = dirs w /\ keeps_files w w' /\
                  exists new, pairs' = (pairs ++ new)%list /\
                              Forall (labelled base_url output_dir w') new /\
                              (length new <= length (entry :: entries))%nat
              | Raise e => conversion_error e
              end).
    { intros w1 Hd Hf. specialize (IH pairs w1).
      destruct (UrlYoloConverter.process_entries _ _ _ _ _ _ _ _) as [[pairs' w']|e]; [|done].
      destruct IH as (Hd' & Hk & new & -> & Hnew & Hlen).
      split; [congruence|]. split.
      - eapply keeps_files_trans; [by apply keeps_files_eq|done].
      - exists new. repeat split; try done. simpl. lia. }
    destruct (Re.search UrlYoloConverter.meta_pattern (UrlYoloConverter.meta entry))
      as [[[pre gs] rest]|] eqn:Hs; [|by apply Hskip].
    destruct gs as [|g0 [|n [|g2 [|g3 [|? ?]]]]]; try by apply Hskip.
    apply meta_groups in Hs.
    destruct (py_int g2) as [img_width|e] eqn:Hw; cbn [mbind result_bind bind];
      [|apply py_int_raises in Hw; unfold conversion_error; tauto].
    destruct (py_int g3) as [img_height|e] eqn:Hh; cbn [mbind result_bind bind];
      [|apply py_int_raises in Hh; unfold conversion_error; tauto].
    pose proof (get_actual_image_url_spec urlopen base_url n w)
      as ((tail & Hurl & Htail) & _ & Hf1 & Hd1 & _).
    destruct (UrlYoloConverter.get_actual_image_url urlopen base_url n w)
      as [image_url w1]. cbn [fst snd] in *.
    set (w2 := if verify_urls then request image_url w1 else w1).
    assert (dirs w2 = dirs w /\ files w2 = files w) as [Hd2 Hf2]
      by (subst w2; by destruct verify_urls).
    destruct (verify_urls && negb (UrlYoloConverter.status_200 urlopen image_url));
      [by apply Hskip|].
    pose proof (convert_lines_spec (UrlYoloConverter.annotations entry)
                  img_width img_height class_mapping []) as Hc.
    destruct (UrlYoloConverter.convert_lines _ _ _ _ _) as [ys|e];
      cbn [mbind result_bind bind]; [|done].
    specialize (Hc (List.Forall_nil _)).
    destruct ys as [|y ys]; [by apply Hskip|].
    set (label_path := Text.join output_dir ("image-" +:+ n +:+ ".txt")).
    set (content := join_with (String "010" "") (y :: ys)).
    assert (content <> "") as Hcontent by (by apply join_with_not_empty).
    specialize (IH (pairs ++ [(image_url, label_path)])%list
                   (write_file label_path content w2)).
    destruct (UrlYoloConverter.process_entries _ _ _ _ _ _ _ _) as [[pairs' w']|e]; [|done].
    destruct IH as (Hd' & Hk & new & -> & Hnew & Hlen).
    split; [by rewrite Hd'|]. split.
    + eapply keeps_files_trans; [|exact Hk].
      eapply keeps_files_trans; [apply keeps_files_eq; exact Hf2|].
      by apply keeps_files_write.
    + exists ((image_url, label_path) :: new). split; [by rewrite <- app_assoc|]. split.
      * constructor; [|done]. eapply labelled_kept; [exact Hk|].
        exists n, tail. repeat split; try done.
        exists content. split; [|done]. simpl. by rewrite lookup_insert_eq.
      * simpl. lia.
Qed.

Lemma process_yaml_to_yolo_spec (yaml_content base_url output_dir : string)
    (class_mapping : option (gmap Z Z)) (verify_urls : bool) (w : world) :
  match UrlYoloConverter.process_yaml_to_yolo urlopen yaml_images yaml_content base_url
          output_dir class_mapping verify_urls w with
  | Ok (pairs, w') =>
      keeps_files w w' /\ Forall (labelled base_url output_dir w') pairs /\
      exists entries, yaml_images yaml_content = Ok entries /\
                      (length pairs <= length entries)%nat
  | Raise e => conversion_error e \/ yaml_images yaml_content = Raise e
  end.
Proof.
  unfold UrlYoloConverter.process_yaml_to_yolo.
  destruct (yaml_images yaml_content) as [entries|e]; cbn [mbind result_bind bind]; [|by right].
  pose proof (process_entries_spec base_url output_dir class_mapping verify_urls entries
                [] (makedirs output_dir w)) as H.
  destruct (UrlYoloConverter.process_entries _ _ _ _ _ _ _ _) as [[pairs w']|e]; [|by left].
  destruct H as (_ & Hk & new & -> & Hnew & Hlen).
  split; [|split; [done|by exists entries]].
  eapply keeps_files_trans; [|exact Hk]. by apply keeps_files_eq.
Qed.

(** X7. Each pair that [process_yaml_to_yolo] returns couples a URL and a
    label file that name the same image number: the URL is the base URL,
    [/image-], the number and an ending that [get_actual_image_url]
    gives, the label file is [image-<number>.txt] in the output
    directory, and when the function returns that file is there and is
    not empty.  There are no more pairs than entries. *)
Theorem pairs_have_label_files (yaml_content base_url output_dir : string)
    (class_mapping : option (gmap Z Z)) (verify_urls : bool) (w w' : world)
    (pairs : list (string * string)) :
  UrlYoloConverter.process_yaml_to_yolo urlopen yaml_images yaml_content base_url
    output_dir class_mapping verify_urls w = Ok (pairs, w') ->
  Forall (labelled base_url output_dir w') pairs /\
  exists entries, yaml_images yaml_content = Ok entries /\
                  (length pairs <= length entries)%nat.
Proof.
  intros H.
  pose proof (process_yaml_to_yolo_spec yaml_content base_url output_dir class_mapping
                verify_urls w) as Hs.
  rewrite H in Hs. tauto.
Qed.

End PairFacts.

(** ** Paths of the dataset *)

Lemma rpartition_lacks (sep : ascii) (s : string) :
  match Text.rpartition sep s with
  | Some (_, t) => lacks sep t = true
  | None => lacks sep s = true
  end.
Proof.
  unfold lacks. induction s as [|c s IH]; simpl; [done|].
  destruct (Text.rpartition sep s) as [[h t]|]; [done|].
  destruct (Ascii.eqb c sep) eqn:E; [done|]. simpl. rewrite ?E. done.
Qed.

Lemma basename_lacks_slash (p : string) : lacks "/" (Text.basename p) = true.
Proof.
  unfold Text.basename. pose proof (rpartition_lacks "/" p) as H.
  by destruct (Text.rpartition "/" p) as [[h t]|].
Qed.

Lemma lacks_startswith (c : ascii) (s : string) :
  lacks c s = true -> Text.startswith c s = false.
Proof.
  unfold lacks, Text.startswith. destruct s as [|d s]; simpl; [done|].
  intros [Hd _]%andb_prop. by apply negb_true_iff.
Qed.

Lemma join_root (a b : string) :
  Text.startswith "/" b = false -> Text.join a b = Text.join a "" +:+ b.
Proof.
  intros Hb. unfold Text.join. rewrite Hb. simpl.
  destruct (Text.is_empty a || Text.endswith "/" a).
  - by rewrite append_nil_r.
  - by rewrite !append_assoc.
Qed.

Lemma last_char_app (a b : string) :
  b <> "" -> Text.last_char (a +:+ b) = Text.last_char b.
Proof.
  intros Hb. induction a as [|c a IH]; simpl; [done|].
  rewrite IH. destruct (a +:+ b) eqn:E; [|done].
  destruct a; simpl in E; congruence.
Qed.

Lemma join_under (a b : string) (c : ascii) :
  Text.startswith "/" b = false ->
  Text.last_char a = Some c -> c <> "/"%char ->
  Text.join a b = a +:+ "/" +:+ b.
Proof.
  intros Hb Ha Hc. unfold Text.join, Text.endswith. rewrite Hb, Ha.
  destruct a; [discriminate|]. simpl.
  destruct (Ascii.eqb c "/") eqn:E; [by apply Ascii.eqb_eq in E|done].
Qed.

Lemma prefix_app_same (r a b : string) :
  String.prefix (r +:+ a) (r +:+ b) = String.prefix a b.
Proof.
  induction r as [|c r IH]; simpl; [done|].
  destruct (ascii_dec c c); [done|congruence].
Qed.

Lemma append_inj_r (r a b : string) : r +:+ a = r +:+ b -> a = b.
Proof. induction r as [|c r IH]; simpl; [done|]. intros [= H]. auto. Qed.

(** A label file of a split is not below [temp_labels]. *)
Lemma label_not_temporary (output_dir split name : string) :
  split = "train" \/ split = "val" ->
  String.prefix (Text.join output_dir "temp_labels" +:+ "/")
    (Text.join (Text.join (Text.join output_dir "labels") split) (Text.basename name)) = false.
Proof.
  intros Hsplit.
  pose proof (lacks_startswith _ _ (basename_lacks_slash name)) as Hname.
  rewrite (join_root output_dir "temp_labels"), (join_root output_dir "labels") by done.
  set (r := Text.join output_dir "").
  assert (Text.join (r +:+ "labels") split = (r +:+ "labels") +:+ "/" +:+ split) as ->.
  { apply (join_under _ _ "s"); [by destruct Hsplit as [-> | ->]| |done].
    by rewrite last_char_app. }
  destruct Hsplit as [-> | ->].
  - rewrite (join_under _ _ "n" Hname); [| |done].
    + rewrite !append_assoc, prefix_app_same. reflexivity.
    + rewrite !append_assoc, last_char_app; done.
  - rewrite (join_under _ _ "l" Hname); [| |done].
    + rewrite !append_assoc, prefix_app_same. reflexivity.
    + rewrite !append_assoc, last_char_app; done.
Qed.

Lemma list_not_temporary (output_dir name : string) :
  name = "train.txt" \/ name = "val.txt" \/ name = "dataset.yaml" ->
  String.prefix (Text.join output_dir "temp_labels" +:+ "/") (Text.join output_dir name) = false.
Proof.
  intros Hname.
  rewrite (join_root output_dir "temp_labels") by done.
  rewrite (join_root output_dir name) by (by destruct Hname as [-> | [-> | ->]]).
  rewrite !append_assoc, prefix_app_same. by destruct Hname as [-> | [-> | ->]].
Qed.

Lemma list_paths_differ (output_dir a b : string) :
  Text.startswith "/" a = false -> Text.startswith "/" b = false -> a <> b ->
  Text.join output_dir a <> Text.join output_dir b.
Proof.
  intros Ha Hb Hab. rewrite (join_root _ a), (join_root _ b) by done.
  intros E. by apply append_inj_r in E.
Qed.

(** ** A run of the assembly *)

Section DatasetFacts.

Variable urlopen : string -> option (Z * string).
Variable yaml_images : string -> result (list UrlYoloConverter.img_entry).
Variable rng : Type.
Variable shuffle : rng -> list (string * string) -> list (string * string) * rng.
Variable abspath : string -> string.
Variable yaml_dump : UrlYoloConverter.dataset_yaml -> string.
Variable format_id : string -> string -> string.

Hypothesis shuffle_perm : forall g l, (shuffle g l).1 ≡ₚ l.

Lemma split_index_raises (n : nat) (split_ratio : spec_float) (e : exn) :
  UrlYoloConverter.split_index n split_ratio = Raise e -> conversion_error e.
Proof.
  unfold UrlYoloConverter.split_index, PyFloat.int_mul.
  destruct (PyFloat.of_int (Z.of_nat n)) as [d|e0] eqn:Hd; cbn [mbind result_bind bind].
  - unfold PyFloat.to_int. destruct (SFmul _ _ d split_ratio); intros [= <-];
      unfold conversion_error; tauto.
  - intros [= <-]. apply of_int_raises in Hd. unfold conversion_error. tauto.
Qed.

(** Copying the label files of pairs that have one does not fail. *)
Lemma copy_labels_present (labels_dir : string) (pairs : list (string * string)) :
  forall data w,
  Forall (fun p => present w p.2) pairs ->
  exists w',
    UrlYoloConverter.copy_labels pairs labels_dir data w
      = Ok ((data ++ map (into labels_dir) pairs)%list, w') /\
    keeps_files w w' /\
    Forall (fun p => present w' p.2) (map (into labels_dir) pairs).
Proof.
  induction pairs as [|[image_url label_path] pairs IH]; intros data w Hp;
    cbn [UrlYoloConverter.copy_labels].
  - exists w. rewrite app_nil_r. split; [done|]. split; [apply keeps_files_refl|constructor].
  - apply Forall_cons in Hp as [(content & Hfile & Hne) Hp]. cbn [snd] in Hfile.
    rewrite Hfile.
    set (new_label_path := Text.join labels_dir (Text.basename label_path)).
    pose proof (keeps_files_write new_label_path content w Hne) as Hk.
    destruct (IH (data ++ [(image_url, new_label_path)])%list
                 (write_file new_label_path content w)) as (w' & Hcopy & Hk' & Hall).
    { eapply Forall_impl; [exact Hp|]. intros p. apply Hk. }
    exists w'. split; [|split].
    + rewrite Hcopy, <- app_assoc. reflexivity.
    + by eapply keeps_files_trans.
    + cbn [map]. constructor; [|done]. apply Hk'.
      exists content. split; [|done]. simpl. by rewrite lookup_insert_eq.
Qed.

Lemma labelled_present base_url output_dir w p :
  labelled base_url output_dir w p -> present w p.2.
Proof. by intros (n & tail & _ & _ & _ & _ & Hf). Qed.

(** The loop over the imagesets: what it raises, and what it leaves
    behind otherwise. *)
Lemma split_imagesets_run imagesets annotation_files output_dir base_url_template
    class_mapping split_ratio verify_urls :
  forall train_data val_data batches g w,
  match UrlYoloConverter.split_imagesets urlopen yaml_images rng shuffle format_id
          imagesets annotation_files output_dir base_url_template class_mapping
          split_ratio verify_urls train_data val_data batches g w with
  | Ok (train_data', val_data', _, _, w') =>
      keeps_files w w' /\
      (Forall (fun p => present w p.2) (train_data ++ val_data)%list ->
       Forall (fun p => present w' p.2) (train_data' ++ val_data')%list)
  | Raise e => conversion_error e \/ exists content, yaml_images content = Raise e
  end.
Proof.
  induction imagesets as [|imageset_id rest IH]; intros train_data val_data batches g w;
    cbn [UrlYoloConverter.split_imagesets].
  - split; [apply keeps_files_refl|done].
  - destruct (annotation_files !! imageset_id) as [annotation_file|]; [|by apply IH].
    destruct (files w !! annotation_file) as [yaml_content|]; [|by apply IH].
    set (temp_labels_dir := Text.join (Text.join output_dir "temp_labels") imageset_id).
    pose proof (process_yaml_to_yolo_spec urlopen yaml_images yaml_content
                  (format_id base_url_template imageset_id) temp_labels_dir
                  class_mapping verify_urls (makedirs temp_labels_dir w)) as Hproc.
    destruct (UrlYoloConverter.process_yaml_to_yolo _ _ _ _ _ _ _ _) as [[pairs w1]|e];
      cbn [mbind result_bind bind]; [|destruct Hproc; eauto].
    destruct Hproc as (Hk1 & Hlab & _).
    pose proof (shuffle_perm g pairs) as Hperm.
    destruct (shuffle g pairs) as [shuffled g1]. cbn [fst] in Hperm.
    destruct (UrlYoloConverter.split_index (length shuffled) split_ratio) as [k|e] eqn:Hidx;
      cbn [mbind result_bind bind]; [|left; by eapply split_index_raises].
    assert (Forall (fun p => present w1 p.2) shuffled) as Hsh.
    { rewrite Hperm. eapply Forall_impl; [exact Hlab|]. intros p. apply labelled_present. }
    destruct (copy_labels_present (Text.join (Text.join output_dir "labels") "train")
                (UrlYoloConverter.slice_to k shuffled) train_data w1)
      as (w2 & -> & Hk2 & Htr); [by apply Forall_take|].
    cbn [mbind result_bind bind].
    destruct (copy_labels_present (Text.join (Text.join output_dir "labels") "val")
                (UrlYoloConverter.slice_from k shuffled) val_data w2)
      as (w3 & -> & Hk3 & Hvl).
    { apply Forall_drop. eapply Forall_impl; [exact Hsh|]. intros p. apply Hk2. }
    cbn [mbind result_bind bind].
    match goal with
    | |- match UrlYoloConverter.split_imagesets _ _ _ _ _ _ _ _ _ _ _ _ ?tr ?vl ?bs ?g ?w with
         | _ => _ end => specialize (IH tr vl bs g w)
    end.
    destruct (UrlYoloConverter.split_imagesets _ _ _ _ _ _ _ _ _ _ _ _ _ _ _ _ _)
      as [[[[[tr' vl'] bs'] g'] w']|e]; [|done].
    destruct IH as [Hk4 Hall].
    assert (keeps_files w w3) as Hk.
    { eapply keeps_files_trans; [|exact Hk3]. eapply keeps_files_trans; [|exact Hk2].
      eapply keeps_files_trans; [|exact Hk1]. by apply keeps_files_eq. }
    split; [by eapply keeps_files_trans|].
    intros Hold. apply Hall. rewrite Forall_app in Hold. destruct Hold as [Ht Hv].
    rewrite !Forall_app. repeat split.
    + eapply Forall_impl; [exact Ht|]. intros p. apply Hk.
    + eapply Forall_impl; [exact Htr|]. intros p. apply Hk3.
    + eapply Forall_impl; [exact Hv|]. intros p. apply Hk.
    + exact Hvl.
Qed.


Lemma create_url_dataset_files imagesets annotation_files output_dir base_url_template
    class_mapping split_ratio verify_urls g w d g' w' :
  UrlYoloConverter.create_url_dataset urlopen yaml_images rng shuffle abspath yaml_dump
    format_id imagesets annotation_files output_dir base_url_template class_mapping
    split_ratio verify_urls g w = Ok (d, g', w') ->
  files w' !! Text.join output_dir "train.txt"
    = Some (UrlYoloConverter.url_lines (UrlYoloConverter.train_data d)) /\
  files w' !! Text.join output_dir "val.txt"
    = Some (UrlYoloConverter.url_lines (UrlYoloConverter.val_data d)) /\
  files w' !! Text.join output_dir "dataset.yaml"
    = Some (yaml_dump (UrlYoloConverter.manifest d)) /\
  Forall (fun p => is_Some (files w' !! p.2))
    (UrlYoloConverter.train_data d ++ UrlYoloConverter.val_data d)%list /\
  (forall p, String.prefix (Text.join output_dir "temp_labels" +:+ "/") p = true ->
             files w' !! p = None).
Proof.
  unfold UrlYoloConverter.create_url_dataset.
  match goal with
  | |- (UrlYoloConverter.split_imagesets _ _ _ _ _ ?ims ?af ?od ?bt ?cm ?sr ?vu ?tr ?vl ?bs ?g ?w
          ≫= _) = _ -> _ =>
      pose proof (split_imagesets_run ims af od bt cm sr vu tr vl bs g w) as H;
      pose proof (split_imagesets_spec urlopen yaml_images rng shuffle format_id shuffle_perm
                    ims af od bt cm sr vu tr vl bs g w) as Hspec
  end.
  destruct (UrlYoloConverter.split_imagesets _ _ _ _ _ _ _ _ _ _ _ _ _ _ _ _ _)
    as [[[[[tr' vl'] bs'] g1] w1]|e']; cbn [mbind result_bind bind]; [|discriminate].
  destruct H as [_ Hall]. specialize (Hall (List.Forall_nil _)).
  destruct (Hspec _ _ _ _ _ eq_refl) as (trs & vls & new & Htr & Hvl & _).
  cbn [app] in Htr, Hvl.
  intros [= <- _ <-].
  cbn [UrlYoloConverter.train_data UrlYoloConverter.val_data UrlYoloConverter.manifest].
  unfold UrlYoloConverter.rmtree. cbn [files write_file].
  assert (forall name content (m : gmap string string),
            name = "train.txt" \/ name = "val.txt" \/ name = "dataset.yaml" ->
            m !! Text.join output_dir name = Some content ->
            filter (fun kv : string * string =>
                      String.prefix (Text.join output_dir "temp_labels" +:+ "/") kv.1 = false) m
              !! Text.join output_dir name = Some content) as Hkeep.
  { intros name content m Hname Hm. apply map_lookup_filter_Some. split; [done|].
    by apply list_not_temporary. }
  split; [|split; [|split; [|split]]].
  - apply Hkeep; [auto|].
    rewrite lookup_insert_ne by (by apply list_paths_differ).
    rewrite lookup_insert_ne by (by apply list_paths_differ).
    by rewrite lookup_insert_eq.
  - apply Hkeep; [auto|].
    rewrite lookup_insert_ne by (by apply list_paths_differ).
    by rewrite lookup_insert_eq.
  - apply Hkeep; [auto|]. by rewrite lookup_insert_eq.
  - assert (forall (m : gmap string string) split pairs,
              (forall q, present w1 q -> is_Some (m !! q)) ->
              split = "train" \/ split = "val" ->
              Forall (fun p => present w1 p.2)
                (map (into (Text.join (Text.join output_dir "labels") split)) pairs) ->
              Forall (fun p => is_Some (
                filter (fun kv : string * string =>
                          String.prefix (Text.join output_dir "temp_labels" +:+ "/") kv.1 = false)
                  m !! p.2))
                (map (into (Text.join (Text.join output_dir "labels") split)) pairs)) as Hcopy.
    { intros m split pairs Hm Hsplit Hp.
      rewrite Forall_map in Hp. rewrite Forall_map.
      eapply Forall_impl; [exact Hp|]. intros p Hc. cbn [into snd] in *.
      destruct (Hm _ Hc) as [c' Hc'].
      exists c'. apply map_lookup_filter_Some. split; [done|].
      by apply label_not_temporary. }
    set (m := <[Text.join output_dir "dataset.yaml" := _]> _).
    assert (forall q, present w1 q -> is_Some (m !! q)) as Hm.
    { intros q (c & Hq & _). subst m. rewrite !lookup_insert_is_Some'. eauto. }
    clearbody m. subst tr' vl'. rewrite Forall_app in Hall. destruct Hall as [Ht Hv].
    apply Forall_app. split.
    + by apply (Hcopy _ "train"); auto.
    + by apply (Hcopy _ "val"); auto.
  - intros p Hp. apply map_lookup_filter_None. right. intros x _. cbn [fst].
    rewrite Hp. done.
Qed.

End DatasetFacts.



(** X9. When [create_url_dataset] returns, [train.txt] and [val.txt] in
    the output directory hold the URLs of the train and the val list,
    one per line and in the order of the lists, [dataset.yaml] holds the
    dump of the manifest, the label file of every pair of both lists is
    there, and no file is left below [temp_labels]. *)
Theorem dataset_files_written
    (urlopen : string -> option (Z * string))
    (yaml_images : string -> result (list UrlYoloConverter.img_entry))
    (rng : Type)
    (shuffle : rng -> list (string * string) -> list (string * string) * rng)
    (abspath : string -> string)
    (yaml_dump : UrlYoloConverter.dataset_yaml -> string)
    (format_id : string -> string -> string)
    (imagesets : list string) (annotation_files : gmap string string)
    (output_dir base_url_template : string) (class_mapping : option (gmap Z Z))
    (split_ratio : spec_float) (verify_urls : bool) (g g' : rng) (w w' : world)
    (d : UrlYoloConverter.dataset) :
  (forall g l, (shuffle g l).1 ≡ₚ l) ->
  UrlYoloConverter.create_url_dataset urlopen yaml_images rng shuffle abspath yaml_dump
    format_id imagesets annotation_files output_dir base_url_template class_mapping
    split_ratio verify_urls g w = Ok (d, g', w') ->
  files w' !! Text.join output_dir "train.txt"
    = Some (UrlYoloConverter.url_lines (UrlYoloConverter.train_data d)) /\
  files w' !! Text.join output_dir "val.txt"
    = Some (UrlYoloConverter.url_lines (UrlYoloConverter.val_data d)) /\
  files w' !! Text.join output_dir "dataset.yaml"
    = Some (yaml_dump (UrlYoloConverter.manifest d)) /\
  Forall (fun p => is_Some (files w' !! p.2))
    (UrlYoloConverter.train_data d ++ UrlYoloConverter.val_data d)%list /\
  (forall p, String.prefix (Text.join output_dir "temp_labels" +:+ "/") p = true ->
             files w' !! p = None).
Proof.
  intros Hshuffle Hrun.
  exact (create_url_dataset_files _ _ _ _ _ _ _ Hshuffle _ _ _ _ _ _ _ _ _ _ _ _ Hrun).
Qed.

Lemma dataset_files_written_witness :
  exists d w',
    TwoImagesets.run TwoImagesets.half = Ok (d, tt, w') /\
    files w' !! "out/val.txt"
      = Some (UrlYoloConverter.url_lines (UrlYoloConverter.val_data d)) /\
    files w' !! "out/temp_labels/145/image-0000601.txt" = None.
Proof.
  eexists _, _. split; [vm_compute; reflexivity|].
  pose proof (dataset_files_written TwoImagesets.urlopen TwoImagesets.yaml_images unit
                TwoImagesets.shuffle (fun p => p) (fun _ => "") TwoImagesets.format_id
                ["145"; "146"] TwoImagesets.annotation_files "out" "https://host/images/1_"
                None TwoImagesets.half false tt tt TwoImagesets.start _ _
                (fun g l => reflexivity _) ltac:(vm_compute; reflexivity))
    as (_ & Hval & _ & _ & Htemp).
  split; [exact Hval|]. apply Htemp. reflexivity.
Defined.

Lemma pairs_have_label_files_witness :
  exists pairs w',
    UrlYoloConverter.process_yaml_to_yolo TwoImagesets.urlopen TwoImagesets.yaml_images
      "0000601" "https://host/images/1_145/" "out" None false empty_world = Ok (pairs, w') /\
    Forall (labelled "https://host/images/1_145/" "out" w') pairs.
Proof.
  eexists _, _. split; [vm_compute; reflexivity|].
  refine (proj1 (pairs_have_label_files TwoImagesets.urlopen TwoImagesets.yaml_images
                   "0000601" "https://host/images/1_145/" "out" None false empty_world
                   _ _ _)).
  vm_compute. reflexivity.
Defined.

(** ** Scraping the listings *)

Section ScrapeFacts.

Variable urlopen : string -> option string.

Lemma fetch_imagesets_requests (base_url : string) (imageset_ids : list string) :
  forall suffixes w,
  let r := UrlFixer.fetch_imagesets urlopen imageset_ids base_url suffixes w in
  requests r.2 = (requests w ++ map (imageset_url base_url) imageset_ids)%list /\
  files r.2 = files w /\ dirs r.2 = dirs w /\ printed r.2 = printed w.
Proof.
  induction imageset_ids as [|i ids IH]; intros suffixes w; cbn [UrlFixer.fetch_imagesets].
  - cbn. by rewrite app_nil_r.
  - cbv zeta.
    assert (forall s,
      let r := UrlFixer.fetch_imagesets urlopen ids base_url s
                 (request (base_url +:+ "/1_" +:+ i +:+ "/") w) in
      requests r.2 = (requests w ++ map (imageset_url base_url) (i :: ids))%list /\
      files r.2 = files w /\ dirs r.2 = dirs w /\ printed r.2 = printed w) as Hnext.
    { intros s. destruct (IH s (request (base_url +:+ "/1_" +:+ i +:+ "/") w))
        as (Hr & Hf & Hd & Hp).
      cbv zeta. rewrite Hr, Hf, Hd, Hp. cbn [request requests files dirs printed map].
      by rewrite <- app_assoc. }
    destruct (urlopen _); apply Hnext.
Qed.

Lemma choices_opt (c : ascii) (s seg r : string) :
  (seg, r) ∈ Re.choices (Re.Opt c) s -> seg = String c "" \/ seg = "".
Proof.
  simpl. destruct s as [|d s].
  - intros [= -> _]%list_elem_of_singleton. by right.
  - destruct (Ascii.eqb d c) eqn:E.
    + apply Ascii.eqb_eq in E as ->.
      rewrite !elem_of_cons. intros [[= -> _]|[[= -> _]|?%elem_of_nil]]; auto. done.
    + intros [= -> _]%list_elem_of_singleton. by right.
Qed.

Lemma choices_dollar (s seg r : string) :
  (seg, r) ∈ Re.choices Re.Dollar s -> seg = "" /\ (r = "" \/ r = nl).
Proof.
  simpl. destruct s as [|c [|d s]].
  - intros [= -> ->]%list_elem_of_singleton. auto.
  - destruct (Ascii.eqb c "010") eqn:E; [|by intros ?%elem_of_nil].
    apply Ascii.eqb_eq in E as ->. intros [= -> ->]%list_elem_of_singleton. auto.
  - by intros ?%elem_of_nil.
Qed.

(** A base URL that names an imageset: what the pattern finds in it. *)
Lemma base_pattern_match (base_url before whole id after : string) :
  Re.search UrlFixer.base_pattern base_url = Some (before, [whole; id], after) ->
  is_number id = true /\ (after = "" \/ after = nl) /\
  (base_url = before +:+ "images/1_" +:+ id +:+ "/" +:+ after \/
   base_url = before +:+ "images/1_" +:+ id +:+ after).
Proof.
  unfold Re.search.
  destruct (Re.find (Re.items UrlFixer.base_pattern) base_url)
    as [[[pre segs] rest]|] eqn:Hf; cbn [mbind option_bind]; [|discriminate].
  pose proof (find_sound _ _ _ _ _ Hf) as Hs.
  apply find_match in Hf as [s' Hm].
  unfold UrlFixer.base_pattern, Re.items in Hm.
  apply match_items_cons in Hm as (g1 & r1 & segs1 & H1 & Hm & ->).
  apply match_items_cons in Hm as (g2 & r2 & segs2 & H2 & Hm & ->).
  apply match_items_cons in Hm as (g3 & r3 & segs3 & H3 & Hm & ->).
  apply match_items_cons in Hm as (g4 & r4 & segs4 & H4 & Hm & ->).
  injection Hm as <- <-. unfold Re.groups_of. simpl. rewrite !append_nil_r.
  intros [= <- _ <- <-].
  apply choices_lit in H1 as ->. apply choices_digits in H2.
  apply choices_opt in H3. apply choices_dollar in H4 as [-> Hrest].
  cbn [Re.concat_str] in Hs. rewrite !append_assoc in Hs.
  split; [done|]. split; [done|].
  destruct H3 as [-> | ->]; [left|right]; exact Hs.
Qed.

Lemma drop_last_app (s : string) (c : ascii) : UrlFixer.drop_last (s +:+ String c "") = s.
Proof.
  induction s as [|d s IH]; [reflexivity|].
  cbn [append UrlFixer.drop_last]. rewrite IH.
  destruct (s +:+ String c "") eqn:E; [|done]. destruct s; discriminate.
Qed.

Lemma endswith_app (s : string) (c d : ascii) :
  Text.endswith c (s +:+ String d "") = Ascii.eqb d c.
Proof. unfold Text.endswith. by rewrite last_char_app. Qed.

Lemma number_last (s : string) :
  is_number s = true -> exists s' d, s = s' +:+ String d "" /\ Text.is_digit d = true.
Proof.
  unfold is_number. induction s as [|c s IH]; [discriminate|]. simpl.
  intros [Hc Hs]%andb_prop. destruct s as [|c' s].
  - exists "", c. done.
  - destruct IH as (s' & d & -> & Hd); [done|]. by exists (String c s'), d.
Qed.

Lemma number_lacks_slash (s : string) : is_number s = true -> lacks "/" s = true.
Proof.
  unfold is_number, lacks. intros [_ Hs]%andb_prop.
  revert Hs. apply all_chars_impl. intros c Hc.
  destruct c as [[] [] [] [] [] [] [] []]; try discriminate; reflexivity.
Qed.

(** The imageset that a base URL names is requested at that URL. *)
Lemma named_imageset_url (base_url before whole id after : string) :
  lacks "010" base_url = true ->
  Re.search UrlFixer.base_pattern base_url = Some (before, [whole; id], after) ->
  imageset_url
    (Text.rsplit1_head "/"
       (if Text.endswith "/" base_url then UrlFixer.drop_last base_url else base_url)) id
  = slashed base_url.
Proof.
  intros Hnl (Hid & Hafter & Hurl)%base_pattern_match.
  assert (after = "") as ->.
  { destruct Hafter as [-> | ->]; [done|]. exfalso. unfold lacks in Hnl.
    destruct Hurl as [-> | ->]; rewrite !all_chars_app in Hnl; simpl in Hnl;
      rewrite ?andb_false_r in Hnl; discriminate. }
  pose proof (number_lacks_slash id Hid) as Hslash.
  assert (Text.rsplit1_head "/" (before +:+ "images/1_" +:+ id) = before +:+ "images") as Hhead.
  { unfold Text.rsplit1_head.
    replace (before +:+ "images/1_" +:+ id)
      with ((before +:+ "images") +:+ String "/" ("1_" +:+ id))
      by (by rewrite !append_assoc).
    rewrite rpartition_app; [done|]. unfold lacks in *. by rewrite all_chars_app, Hslash. }
  unfold slashed, imageset_url.
  destruct Hurl as [-> | ->]; rewrite ?append_nil_r.
  - replace (before +:+ "images/1_" +:+ id +:+ "/")
      with ((before +:+ "images/1_" +:+ id) +:+ String "/" "")
      by (by rewrite !append_assoc).
    rewrite endswith_app, drop_last_app.
    change (Ascii.eqb "/" "/") with true. cbv iota.
    rewrite Hhead. by rewrite !append_assoc.
  - destruct (number_last id Hid) as (id' & d & -> & Hd).
    replace (before +:+ "images/1_" +:+ id' +:+ String d "")
      with ((before +:+ "images/1_" +:+ id') +:+ String d "")
      by (by rewrite !append_assoc).
    rewrite endswith_app.
    assert (Ascii.eqb d "/" = false) as ->
      by (destruct d as [[] [] [] [] [] [] [] []]; try discriminate; reflexivity).
    rewrite !append_assoc. rewrite ?append_assoc in Hhead. rewrite Hhead.
    by rewrite !append_assoc.
Qed.

Lemma scrape_suffixes_requests (base_url : string) (cache_file : option string) (w : world) :
  lacks "010" base_url = true ->
  let r := UrlFixer.scrape_suffixes urlopen base_url cache_file w in
  requests r.2 =
    (requests w ++
     match Re.search UrlFixer.base_pattern base_url with
     | Some _ => [slashed base_url]
     | None => map (imageset_url base_url) UrlFixer.predefined_imagesets
     end)%list /\
  files r.2 = match UrlFixer.truthy cache_file with
              | Some p => <[p := UrlFixer.cache_text r.1]> (files w)
              | None => files w
              end.
Proof.
  intros Hnl. unfold UrlFixer.scrape_suffixes.
  assert (forall ids b,
    let r := (let '(suffixes, w1) := UrlFixer.fetch_imagesets urlopen ids b [] w in
              match UrlFixer.truthy cache_file with
              | Some p => (suffixes, write_file p (UrlFixer.cache_text suffixes) w1)
              | None => (suffixes, w1)
              end) in
    requests r.2 = (requests w ++ map (imageset_url b) ids)%list /\
    files r.2 = match UrlFixer.truthy cache_file with
                | Some p => <[p := UrlFixer.cache_text r.1]> (files w)
                | None => files w
                end) as Hscrape.
  { intros ids b. destruct (fetch_imagesets_requests b ids [] w) as (Hr & Hf & _).
    destruct (UrlFixer.fetch_imagesets urlopen ids b [] w) as [suffixes w1].
    cbn [fst snd] in *. destruct (UrlFixer.truthy cache_file); cbn; by rewrite ?Hr, ?Hf. }
  destruct (Re.search UrlFixer.base_pattern base_url) as [[[before gs] after]|] eqn:Hb;
    [|apply Hscrape].
  pose proof Hb as Hb'. unfold Re.search in Hb'.
  destruct (Re.find _ _) as [[[pre segs] rest]|]; cbn [mbind option_bind] in Hb';
    [|discriminate].
  injection Hb' as _ <- _. unfold Re.groups_of. cbn [UrlFixer.base_pattern Re.captures map].
  unfold Re.groups_of in Hb. cbn [UrlFixer.base_pattern Re.captures map] in Hb.
  specialize (Hscrape [Re.concat_str (take 1 (drop 1 segs))]
    (Text.rsplit1_head "/"
       (if Text.endswith "/" base_url then UrlFixer.drop_last base_url else base_url))).
  cbn [map] in Hscrape. rewrite (named_imageset_url _ _ _ _ _ Hnl Hb) in Hscrape.
  exact Hscrape.
Qed.

(** X10. When no cache is named or nothing is at the cache path,
    [get_image_suffixes] returns after requesting the listing of the
    imageset that the base URL names, at the base URL itself with a slash
    at its end, and nothing else; for a base URL that names no imageset
    it requests the ten predefined imagesets, each once and in their
    order, at [base_url/1_<id>/], whether or not the requests before
    were answered.  The only file written is the cache file, when one is
    named: it holds the lines of the mapping returned. *)
Theorem scrape_requests_each_imageset (base_url : string) (cache_file : option string)
    (w : world) :
  cache_absent cache_file w -> lacks "010" base_url = true ->
  exists suffixes w',
    UrlFixer.get_image_suffixes urlopen base_url cache_file w = Ok (suffixes, w') /\
    requests w' =
      (requests w ++
       match Re.search UrlFixer.base_pattern base_url with
       | Some _ => [slashed base_url]
       | None => map (imageset_url base_url) UrlFixer.predefined_imagesets
       end)%list /\
    files w' = match UrlFixer.truthy cache_file with
               | Some p => <[p := UrlFixer.cache_text suffixes]> (files w)
               | None => files w
               end.
Proof.
  intros Hcache Hnl.
  rewrite (get_image_suffixes_scrapes urlopen base_url cache_file w Hcache).
  pose proof (scrape_suffixes_requests base_url cache_file w Hnl) as H. cbn zeta in H.
  destruct (UrlFixer.scrape_suffixes urlopen base_url cache_file w) as [suffixes w'].
  by exists suffixes, w'.
Qed.

End ScrapeFacts.

Lemma scrape_requests_each_imageset_witness :
  (exists suffixes w',
     UrlFixer.get_image_suffixes (fun _ => None) "https://host/images/1_145"
       (Some "image_suffixes.cache") empty_world = Ok (suffixes, w') /\
     requests w' = ["https://host/images/1_145/"] /\
     files w' = <["image_suffixes.cache" := UrlFixer.cache_text suffixes]> ∅) /\
  (exists suffixes w',
     UrlFixer.get_image_suffixes (fun _ => None) "https://host/images/" None empty_world
       = Ok (suffixes, w') /\
     requests w' = map (imageset_url "https://host/images/") UrlFixer.predefined_imagesets /\
     files w' = ∅).
Proof.
  split.
  - apply (scrape_requests_each_imageset (fun _ => None) "https://host/images/1_145"
             (Some "image_suffixes.cache") empty_world eq_refl eq_refl).
  - apply (scrape_requests_each_imageset (fun _ => None) "https://host/images/"
             None empty_world I eq_refl).
Defined.

(** ** Where a suffix comes from *)

Section SuffixOrigin.

Variable urlopen : string -> option string.

Lemma occurs_further (x pre whole rest : string) :
  occurs x rest -> occurs x (pre +:+ whole +:+ rest).
Proof.
  intros (a & b & ->). exists (pre +:+ whole +:+ a), b. by rewrite !append_assoc.
Qed.

(** A match of the listing pattern is a file name that the listing shows. *)
Lemma listing_matches_occur (html : string) (m : list string) :
  m ∈ Re.matches UrlFixer.listing_pattern html ->
  exists n sfx, m = ["image-" +:+ n +:+ "_" +:+ sfx +:+ ".jpg"; n; sfx] /\
                occurs ("image-" +:+ n +:+ "_" +:+ sfx +:+ ".jpg") html.
Proof.
  unfold Re.matches. generalize (S (String.length html)) as fuel.
  intros fuel. revert html. induction fuel as [|fuel IH]; intros html; simpl.
  - by intros ?%elem_of_nil.
  - unfold Re.search.
    destruct (Re.find (Re.items UrlFixer.listing_pattern) html)
      as [[[pre segs] rest]|] eqn:Hf; cbn [mbind option_bind]; [|by intros ?%elem_of_nil].
    pose proof (find_sound _ _ _ _ _ Hf) as Hs.
    rewrite elem_of_cons. intros [->|Hin].
    + apply find_match in Hf as [s' Hm].
      unfold UrlFixer.listing_pattern, Re.items in Hm.
      apply match_items_cons in Hm as (g1 & r1 & segs1 & H1 & Hm & ->).
      apply match_items_cons in Hm as (g2 & r2 & segs2 & H2 & Hm & ->).
      apply match_items_cons in Hm as (g3 & r3 & segs3 & H3 & Hm & ->).
      apply match_items_cons in Hm as (g4 & r4 & segs4 & H4 & Hm & ->).
      apply match_items_cons in Hm as (g5 & r5 & segs5 & H5 & Hm & ->).
      injection Hm as <- _.
      apply choices_lit in H1 as ->. apply choices_lit in H3 as ->.
      apply choices_lit in H5 as ->.
      exists g2, g4. split.
      * unfold Re.groups_of. simpl. by rewrite !append_nil_r.
      * exists pre, rest. rewrite Hs.
        repeat (progress cbn [append Re.concat_str] || rewrite append_assoc).
        reflexivity.
    + destruct (IH rest Hin) as (n & sfx & -> & Hocc).
      exists n, sfx. split; [done|]. rewrite Hs. by apply occurs_further.
Qed.

Lemma store_listed (base_url i n s listing : string)
    (suffixes : list (string * list (string * string))) :
  listed urlopen base_url suffixes ->
  urlopen (imageset_url base_url i) = Some listing ->
  occurs ("image-" +:+ n +:+ "_" +:+ s +:+ ".jpg") listing ->
  listed urlopen base_url (UrlFixer.store_suffix suffixes i n s).
Proof.
  intros Hl Hu Ho i' n' s'. destruct (decide ((i', n') = (i, n))) as [[= -> ->]|Hne].
  - rewrite lookup_store_eq. intros [= <-]. by exists listing.
  - rewrite lookup_store_ne by done. apply Hl.
Qed.

Lemma fetch_imagesets_listed (base_url : string) (imageset_ids : list string) :
  forall suffixes w,
  listed urlopen base_url suffixes ->
  listed urlopen base_url (UrlFixer.fetch_imagesets urlopen imageset_ids base_url suffixes w).1.
Proof.
  induction imageset_ids as [|i ids IH]; intros suffixes w Hl;
    cbn [UrlFixer.fetch_imagesets]; [done|].
  cbv zeta. fold (imageset_url base_url i).
  destruct (urlopen (imageset_url base_url i)) as [listing|] eqn:Hu; [|by apply IH].
  apply IH.
  pose proof (listing_matches_occur listing) as Hm.
  revert suffixes Hl.
  induction (Re.matches UrlFixer.listing_pattern listing) as [|m ms IHm];
    intros suffixes Hl; simpl; [done|].
  apply IHm; [intros m' Hin; apply Hm; by apply list_elem_of_further|].
  destruct (Hm m (list_elem_of_here _ _)) as (n & sfx & -> & Hocc).
  simpl. by eapply store_listed.
Qed.

Lemma scrape_suffixes_listed (base_url : string) (cache_file : option string) (w : world) :
  exists base, listed urlopen base (UrlFixer.scrape_suffixes urlopen base_url cache_file w).1.
Proof.
  unfold UrlFixer.scrape_suffixes.
  destruct (match Re.search UrlFixer.base_pattern base_url with
            | Some (_, [_; id], _) => _ | _ => _ end) as [ids b].
  exists b.
  pose proof (fetch_imagesets_listed b ids [] w) as H.
  destruct (UrlFixer.fetch_imagesets urlopen ids b [] w) as [suffixes w1].
  assert (listed urlopen b suffixes) as Hl by (apply H; intros i n s; discriminate).
  by destruct (UrlFixer.truthy cache_file).
Qed.

Lemma get_image_suffixes_listed (base_url : string) (cache_file : option string) (w w' : world)
    (suffixes : list (string * list (string * string))) :
  no_cache cache_file w ->
  UrlFixer.get_image_suffixes urlopen base_url cache_file w = Ok (suffixes, w') ->
  exists base, listed urlopen base suffixes.
Proof.
  intros Hcache. unfold UrlFixer.get_image_suffixes, no_cache in *.
  pose proof (scrape_suffixes_listed base_url cache_file w) as Hl.
  destruct (UrlFixer.truthy cache_file) as [p|].
  - destruct (exists_path p w).
    + rewrite Hcache. discriminate.
    + intros [= E]. by rewrite E in Hl.
  - intros [= E]. by rewrite E in Hl.
Qed.

End SuffixOrigin.

(** X11. A suffix is never made up: when no cache file is read, every
    entry (imageset, image number, suffix) of the mapping that
    [get_image_suffixes] returns was read in the listing answered for
    that imageset, where the file name image-<number>_<suffix>.jpg
    occurs. *)
Theorem suffixes_come_from_listings
    (urlopen : string -> option string) (base_url : string)
    (cache_file : option string) (w w' : world)
    (suffixes : list (string * list (string * string))) :
  no_cache cache_file w ->
  UrlFixer.get_image_suffixes urlopen base_url cache_file w = Ok (suffixes, w') ->
  exists base,
    forall i n s,
      UrlFixer.lookup_suffix suffixes i n = Some s ->
      exists listing,
        urlopen (imageset_url base i) = Some listing /\
        occurs ("image-" +:+ n +:+ "_" +:+ s +:+ ".jpg") listing.
Proof. apply get_image_suffixes_listed. Qed.

Lemma suffixes_come_from_listings_witness :
  exists base,
    forall i n s,
      UrlFixer.lookup_suffix [("145", [("0000601", "BBBBBB")])] i n = Some s ->
      exists listing,
        double_listing (imageset_url base i) = Some listing /\
        occurs ("image-" +:+ n +:+ "_" +:+ s +:+ ".jpg") listing.
Proof.
  apply (suffixes_come_from_listings double_listing "https://host/images/1_145/"
           None empty_world
           {| files := ∅; dirs := ∅; requests := ["https://host/images/1_145/"];
              printed := [] |}
           [("145", [("0000601", "BBBBBB")])] I).
  vm_compute. reflexivity.
Defined.

(** ** What the pool requests and stores *)

Section FetchFacts.

Variable requests_get : string -> string + Z * string.
Variable split : string.
Variable image_dir : string.
Variable urls : list string.
Variable w0 : world.

#[local] Abbreviation filepath := (Download.filepath_of image_dir).
#[local] Abbreviation step := (Download.step requests_get split image_dir).

Lemma pending_insert (tasks : list Download.task) (i : nat) (t t' : Download.task) :
  tasks !! i = Some t ->
  exists a b, pending tasks = (a ++ pending [t] ++ b)%list /\
              pending (<[i := t']> tasks) = (a ++ pending [t'] ++ b)%list.
Proof.
  intros Hi. exists (pending (take i tasks)), (pending (drop (S i) tasks)).
  assert (i < length tasks)%nat as Hlt by (by eapply lookup_lt_Some).
  split.
  - rewrite <- (take_drop_middle tasks i t Hi) at 1.
    unfold pending. rewrite omap_app. f_equal. simpl. by destruct (unrequested t).
  - rewrite insert_take_drop by done.
    unfold pending. rewrite omap_app. f_equal. simpl. by destruct (unrequested t').
Qed.

Lemma exists_path_files (p : string) (w w' : world) :
  dirs w' = dirs w -> (forall q, is_Some (files w !! q) -> is_Some (files w' !! q)) ->
  exists_path p w = true -> exists_path p w' = true.
Proof.
  unfold exists_path. intros -> Hf [H|H]%orb_prop; apply orb_true_iff; [left|by right].
  apply bool_decide_eq_true in H. apply bool_decide_eq_true. by apply Hf.
Qed.

Lemma task_sound_kept (w w' : world) (url : string) (t : Download.task) :
  dirs w' = dirs w -> (forall q, is_Some (files w !! q) -> is_Some (files w' !! q)) ->
  task_sound requests_get image_dir w url t -> task_sound requests_get image_dir w' url t.
Proof.
  intros Hd Hf. destruct t; simpl; try done.
  intros H content Hc. eapply exists_path_files; eauto.
Qed.

Lemma pending_waiting (l : list string) : pending (map Download.Waiting l) = l.
Proof. induction l as [|u l IH]; simpl; [done|]. unfold pending in *. simpl. by rewrite IH. Qed.

Lemma fetch_inv_start : fetch_inv requests_get image_dir urls w0 (map Download.Waiting urls, w0).
Proof.
  split; [by left|]. split; [|split].
  - exists []. split; [by rewrite app_nil_r|]. simpl.
    by rewrite pending_waiting.
  - simpl. by rewrite length_map.
  - simpl. intros i url t Hu Ht. rewrite list_lookup_fmap, Hu in Ht. by injection Ht as <-.
Qed.

Lemma fetch_inv_step st st' :
  fetch_inv requests_get image_dir urls w0 st -> step st st' ->
  fetch_inv requests_get image_dir urls w0 st'.
Proof.
  intros (Hfiles & (rs & Hrs & Hsub) & Hlen & Htasks) Hstep.
  inversion Hstep as [i url tasks w t w' Hi Hcheck
                     |i url tasks w t w' Hi Hfetch
                     |i url response tasks w Hi]; subst; simpl in *;
    unfold fetch_inv; cbn [fst snd].
  - (* the test of [os.path.exists] *)
    assert (Hil : (i < length urls)%nat)
      by (rewrite <- Hlen; by apply lookup_lt_is_Some_1).
    destruct (lookup_lt_is_Some_2 urls i Hil) as [url' Hu].
    pose proof (Htasks i url' _ Hu Hi) as Hok. simpl in Hok. subst url'.
    destruct (pending_insert tasks i _ t Hi) as (a & b & Hp & Hp').
    unfold pending in *.
    unfold Download.check in Hcheck.
    destruct (exists_path (filepath url) w) eqn:Hex; injection Hcheck as <- <-.
    + split; [done|]. split; [|split].
      * exists rs. split; [done|]. rewrite Hp'. rewrite Hp in Hsub.
        etrans; [|exact Hsub]. simpl.
        apply submseteq_skips_l, submseteq_skips_l. by apply submseteq_cons.
      * by rewrite length_insert.
      * intros j u t Hu' Ht.
        destruct (decide (i = j)) as [<-|Hne].
        -- rewrite list_lookup_insert_eq in Ht by by rewrite Hlen.
           injection Ht as <-. simpl. intros content _.
           rewrite Hu in Hu'. by injection Hu' as <-.
        -- rewrite list_lookup_insert_ne in Ht by done.
           eapply (task_sound_kept w); [done|done|by eapply Htasks].
    + split; [done|]. split; [|split].
      * exists rs. split; [done|]. rewrite Hp'. rewrite Hp in Hsub. exact Hsub.
      * by rewrite length_insert.
      * intros j u t Hu' Ht.
        destruct (decide (i = j)) as [<-|Hne].
        -- rewrite list_lookup_insert_eq in Ht by by rewrite Hlen.
           injection Ht as <-. simpl.
           rewrite Hu in Hu'. by injection Hu' as <-.
        -- rewrite list_lookup_insert_ne in Ht by done. by eapply Htasks.
  - (* the request *)
    assert (Hil : (i < length urls)%nat)
      by (rewrite <- Hlen; by apply lookup_lt_is_Some_1).
    destruct (lookup_lt_is_Some_2 urls i Hil) as [url' Hu].
    pose proof (Htasks i url' _ Hu Hi) as Hok. simpl in Hok. subst url'.
    destruct (pending_insert tasks i _ t Hi) as (a & b & Hp & Hp').
    unfold pending in *.
    unfold Download.fetch in Hfetch. injection Hfetch as <- <-.
    split; [done|]. split; [|split].
    + exists (rs ++ [url])%list. simpl. split; [by rewrite Hrs, app_assoc|].
      rewrite Hp'. rewrite Hp in Hsub. simpl. simpl in Hsub.
      etrans; [|exact Hsub]. apply Permutation_submseteq.
      rewrite <- !app_assoc. apply Permutation_app_head. simpl.
      apply Permutation_middle.
    + by rewrite length_insert.
    + intros j u t Hu' Ht.
      destruct (decide (i = j)) as [<-|Hne].
      * rewrite list_lookup_insert_eq in Ht by by rewrite Hlen.
        injection Ht as <-. simpl.
        rewrite Hu in Hu'. by injection Hu' as <-.
      * rewrite list_lookup_insert_ne in Ht by done.
        eapply (task_sound_kept w); [done|done|by eapply Htasks].
  - (* storing the answer *)
    assert (Hil : (i < length urls)%nat)
      by (rewrite <- Hlen; by apply lookup_lt_is_Some_1).
    destruct (lookup_lt_is_Some_2 urls i Hil) as [url' Hu].
    pose proof (Htasks i url' _ Hu Hi) as Hok. simpl in Hok.
    destruct Hok as [-> ->].
    destruct (pending_insert tasks i _ Download.Finished Hi) as (a & b & Hp & Hp').
    unfold pending in *.
    assert (Hreq : exists rs0, requests (Download.store split image_dir url' (requests_get url') w)
                                 = (requests w0 ++ rs0)%list /\
                               (rs0 ++ pending (<[i:=Download.Finished]> tasks))%list ⊆+ urls).
    { exists rs. split; [|unfold pending; rewrite Hp'; rewrite Hp in Hsub; exact Hsub].
      unfold Download.store. destruct (requests_get url') as [e|[status_code content]];
        [|destruct (status_code =? 200)]; done. }
    assert (Hkeep : dirs (Download.store split image_dir url' (requests_get url') w) = dirs w /\
                    forall q, is_Some (files w !! q) ->
                      is_Some (files (Download.store split image_dir url' (requests_get url') w)
                                 !! q)).
    { unfold Download.store. destruct (requests_get url') as [e|[status_code content]];
        [|destruct (status_code =? 200)]; simpl; try done.
      split; [done|]. intros q Hq. rewrite lookup_insert_is_Some'. by right. }
    destruct Hkeep as [Hd' Hf'].
    split; [|split; [done|split; [by rewrite length_insert|]]].
    + intros p. unfold Download.store.
      destruct (requests_get url') as [e|[status_code content]] eqn:Hget; [apply Hfiles|].
      destruct (status_code =? 200) eqn:Hcode; [|apply Hfiles].
      apply Z.eqb_eq in Hcode as ->.
      unfold stored_answer. simpl.
      destruct (decide (filepath url' = p)) as [<-|Hne].
      * right. exists url', content. rewrite lookup_insert_eq.
        repeat split; try done. by eapply list_elem_of_lookup_2.
      * rewrite lookup_insert_ne by done. apply Hfiles.
    + intros j u t Hu' Ht.
      destruct (decide (i = j)) as [<-|Hne].
      * rewrite list_lookup_insert_eq in Ht by by rewrite Hlen.
        injection Ht as <-. simpl. rewrite Hu in Hu'. injection Hu' as <-.
        intros content Hget. unfold Download.store. rewrite Hget. simpl.
        unfold exists_path. simpl. rewrite lookup_insert_eq. reflexivity.
      * rewrite list_lookup_insert_ne in Ht by done.
        eapply (task_sound_kept w); [done|done|by eapply Htasks].
Qed.

Lemma fetch_inv_reachable st :
  rtc step (map Download.Waiting urls, w0) st -> fetch_inv requests_get image_dir urls w0 st.
Proof.
  intros Hrun.
  eapply (rtc_ind_r (fetch_inv requests_get image_dir urls w0));
    [apply fetch_inv_start | | exact Hrun].
  intros y z _ Hstep IH. by eapply fetch_inv_step.
Qed.

End FetchFacts.

(** X12. Whatever the order in which the pool runs its calls, once the
    call for a URL is done and the network answers that URL with status
    200, the destination of the URL exists: it was there when the call
    tested it, or the call stored the answer, and no call removes a
    file. *)
Theorem answered_url_is_stored
    (requests_get : string -> string + Z * string) (split image_dir : string)
    (urls : list string) (w0 : world) (tasks : list Download.task) (w : world)
    (i : nat) (url content : string) :
  rtc (Download.step requests_get split image_dir) (map Download.Waiting urls, w0) (tasks, w) ->
  urls !! i = Some url -> tasks !! i = Some Download.Finished ->
  requests_get url = inr (200, content) ->
  exists_path (Download.filepath_of image_dir url) w = true.
Proof.
  intros Hrun Hu Ht Hget.
  destruct (fetch_inv_reachable requests_get split image_dir urls w0 _ Hrun)
    as (_ & _ & _ & Htasks).
  exact (Htasks i url _ Hu Ht content Hget).
Qed.

Lemma answered_url_is_stored_witness :
  let url := "https://host/images/1_145/image-0000601_EGD3NF.jpg?v=2" in
  exists_path (Download.filepath_of "images" url)
    (Download.run_in_order (fun _ => inr (200, "JPEG")) "train" "images" [url] empty_world)
  = true.
Proof.
  intros url.
  apply (answered_url_is_stored (fun _ => inr (200, "JPEG")) "train" "images" [url]
           empty_world [Download.Finished] _ 0%nat url "JPEG").
  - apply (run_in_order_steps (fun _ => inr (200, "JPEG")) "train" "images" [url] [] empty_world).
  - reflexivity.
  - reflexivity.
  - reflexivity.
Defined.



(** X14. Whatever the order in which the pool runs its calls, the URLs
    requested during the run are URLs of the list, and none is requested
    more often than it is listed. *)
Theorem urls_requested_at_most_once
    (requests_get : string -> string + Z * string) (split image_dir : string)
    (urls : list string) (w0 : world) (tasks : list Download.task) (w : world) :
  rtc (Download.step requests_get split image_dir) (map Download.Waiting urls, w0) (tasks, w) ->
  exists rs, requests w = (requests w0 ++ rs)%list /\ rs ⊆+ urls.
Proof.
  intros Hrun.
  destruct (fetch_inv_reachable requests_get split image_dir urls w0 _ Hrun)
    as (_ & (rs & Hrs & Hsub) & _). simpl in *.
  exists rs. split; [done|]. etrans; [|exact Hsub]. by apply submseteq_inserts_r.
Qed.

Lemma urls_requested_at_most_once_witness :
  let url := "https://host/images/1_145/image-0000601_EGD3NF.jpg" in
  exists rs,
    requests (Download.run_in_order (fun _ => inr (200, "JPEG")) "train" "images"
                [url; url] empty_world) = ([] ++ rs)%list /\
    rs ⊆+ [url; url].
Proof.
  intros url.
  apply (urls_requested_at_most_once (fun _ => inr (200, "JPEG")) "train" "images"
           [url; url] empty_world [Download.Finished; Download.Finished]).
  apply (run_in_order_steps (fun _ => inr (200, "JPEG")) "train" "images"
           [url; url] [] empty_world).
Defined.

(** ** The pairs of the lists *)

Lemma endswith_split (c : ascii) (s : string) :
  Text.endswith c s = true -> exists s', s = s' +:+ String c "".
Proof.
  unfold Text.endswith. induction s as [|d s IH]; [discriminate|].
  cbn [Text.last_char]. destruct s as [|d' s].
  - intros ->%Ascii.eqb_eq. by exists "".
  - intros H. destruct (IH H) as [s' ->]. by exists (String d s').
Qed.

Lemma basename_join (dir name : string) :
  lacks "/" name = true -> Text.basename (Text.join dir name) = name.
Proof.
  intros Hname. unfold Text.join. rewrite (lacks_startswith _ _ Hname).
  destruct dir as [|d dir].
  - simpl. unfold Text.basename. by rewrite rpartition_clean.
  - cbn [Text.is_empty orb].
    destruct (Text.endswith "/" (String d dir)) eqn:E.
    + apply endswith_split in E as [s' ->]. rewrite append_assoc.
      change (String "/" "" +:+ name) with ("/" +:+ name). by apply basename_app.
    + by apply basename_app.
Qed.

Lemma label_name_lacks_slash (n : string) :
  is_number n = true -> lacks "/" ("image-" +:+ n +:+ ".txt") = true.
Proof.
  intros Hn. pose proof (number_lacks_slash n Hn) as H. unfold lacks in *.
  change ("image-" +:+ n +:+ ".txt") with ("image-" +:+ (n +:+ ".txt")).
  rewrite all_chars_app, all_chars_app, H. reflexivity.
Qed.

Section PairShape.

Variable urlopen : string -> option (Z * string).
Variable yaml_images : string -> result (list UrlYoloConverter.img_entry).
Variable rng : Type.
Variable shuffle : rng -> list (string * string) -> list (string * string) * rng.
Variable abspath : string -> string.
Variable yaml_dump : UrlYoloConverter.dataset_yaml -> string.
Variable format_id : string -> string -> string.

Hypothesis shuffle_perm : forall g l, (shuffle g l).1 ≡ₚ l.

(** With [verify_urls], a pair is returned only for a URL answered with
    status 200. *)
Lemma process_entries_verified (base_url output_dir : string)
    (class_mapping : option (gmap Z Z)) (entries : list UrlYoloConverter.img_entry) :
  forall pairs w pairs' w',
  UrlYoloConverter.process_entries urlopen entries base_url output_dir
    class_mapping true pairs w = Ok (pairs', w') ->
  Forall (fun p => UrlYoloConverter.status_200 urlopen p.1 = true) pairs ->
  Forall (fun p => UrlYoloConverter.status_200 urlopen p.1 = true) pairs'.
Proof.
  induction entries as [|entry entries IH]; intros pairs w pairs' w';
    cbn [UrlYoloConverter.process_entries].
  - by intros [= <- _].
  - destruct (Re.search UrlYoloConverter.meta_pattern (UrlYoloConverter.meta entry))
      as [[[pre gs] rest]|]; [|by apply IH].
    destruct gs as [|g0 [|n [|g2 [|g3 [|? ?]]]]]; try by apply IH.
    destruct (py_int g2) as [img_width|e]; cbn [mbind result_bind bind]; [|discriminate].
    destruct (py_int g3) as [img_height|e]; cbn [mbind result_bind bind]; [|discriminate].
    destruct (UrlYoloConverter.get_actual_image_url urlopen base_url n w) as [image_url w1].
    cbn [andb].
    destruct (UrlYoloConverter.status_200 urlopen image_url) eqn:Hstatus;
      cbn [negb]; [|by apply IH].
    destruct (UrlYoloConverter.convert_lines _ _ _ _ _) as [ys|e];
      cbn [mbind result_bind bind]; [|discriminate].
    destruct ys as [|y ys]; [by apply IH|].
    intros Hrun Hold. eapply IH; [exact Hrun|].
    apply Forall_app. split; [done|]. by repeat constructor.
Qed.

Lemma process_yaml_to_yolo_pairs (yaml_content base_url output_dir : string)
    (class_mapping : option (gmap Z Z)) (verify_urls : bool) (w w' : world)
    (pairs : list (string * string)) :
  UrlYoloConverter.process_yaml_to_yolo urlopen yaml_images yaml_content base_url
    output_dir class_mapping verify_urls w = Ok (pairs, w') ->
  Forall (fun p => labelled base_url output_dir w' p /\
                   (verify_urls = true -> UrlYoloConverter.status_200 urlopen p.1 = true))
    pairs.
Proof.
  intros Hrun.
  pose proof (process_yaml_to_yolo_spec urlopen yaml_images yaml_content base_url output_dir
                class_mapping verify_urls w) as Hspec.
  rewrite Hrun in Hspec. destruct Hspec as (_ & Hlab & _).
  assert (verify_urls = true ->
          Forall (fun p => UrlYoloConverter.status_200 urlopen p.1 = true) pairs) as Hver.
  { intros ->. unfold UrlYoloConverter.process_yaml_to_yolo in Hrun.
    apply bind_Ok in Hrun as (entries & _ & Hrun).
    eapply process_entries_verified; [exact Hrun|constructor]. }
  apply Forall_forall. intros p Hp. split.
  - by apply (proj1 (Forall_forall _ _) Hlab).
  - intros Hv. by apply (proj1 (Forall_forall _ _) (Hver Hv)).
Qed.

Lemma into_resolved (all : list string) (base_url_template imageset_id temp_dir labels_dir : string)
    (verify_urls : bool) (w : world) (p : string * string) :
  imageset_id ∈ all ->
  labelled (format_id base_url_template imageset_id) temp_dir w p /\
  (verify_urls = true -> UrlYoloConverter.status_200 urlopen p.1 = true) ->
  resolved_pair urlopen format_id base_url_template all verify_urls labels_dir
    (into labels_dir p).
Proof.
  intros Hid [(n & tail & Hn & Htail & Hurl & Hlabel & _) Hver].
  exists imageset_id, n, tail. unfold into. cbn [fst snd]. repeat split; try done.
  rewrite Hlabel, basename_join; [done|]. by apply label_name_lacks_slash.
Qed.

Lemma split_imagesets_pairs (all : list string) imagesets annotation_files output_dir
    base_url_template class_mapping split_ratio verify_urls :
  imagesets ⊆ all ->
  forall train_data val_data batches g w train_data' val_data' batches' g' w',
  UrlYoloConverter.split_imagesets urlopen yaml_images rng shuffle format_id
    imagesets annotation_files output_dir base_url_template class_mapping
    split_ratio verify_urls train_data val_data batches g w
    = Ok (train_data', val_data', batches', g', w') ->
  Forall (resolved_pair urlopen format_id base_url_template all verify_urls
            (Text.join (Text.join output_dir "labels") "train")) train_data ->
  Forall (resolved_pair urlopen format_id base_url_template all verify_urls
            (Text.join (Text.join output_dir "labels") "val")) val_data ->
  Forall (resolved_pair urlopen format_id base_url_template all verify_urls
            (Text.join (Text.join output_dir "labels") "train")) train_data' /\
  Forall (resolved_pair urlopen format_id base_url_template all verify_urls
            (Text.join (Text.join output_dir "labels") "val")) val_data'.
Proof.
  induction imagesets as [|imageset_id rest IH]; intros Hall
    train_data val_data batches g w train_data' val_data' batches' g' w' H.
  - cbn in H. by injection H as <- <- _ _ _.
  - assert (imageset_id ∈ all) as Hid by (apply Hall, list_elem_of_here).
    assert (rest ⊆ all) as Hrest by (intros x Hx; by apply Hall, list_elem_of_further).
    specialize (IH Hrest).
    cbn [UrlYoloConverter.split_imagesets] in H.
    destruct (annotation_files !! imageset_id) as [annotation_file|]; [|by eapply IH].
    destruct (files w !! annotation_file) as [yaml_content|]; [|by eapply IH].
    apply bind_Ok in H. destruct H as [[pairs w1] [Hproc H]].
    apply process_yaml_to_yolo_pairs in Hproc.
    pose proof (shuffle_perm g pairs) as Hperm.
    destruct (shuffle g pairs) as [shuffled g1]. cbn [fst] in Hperm.
    rewrite <- Hperm in Hproc.
    apply bind_Ok in H. destruct H as [k [Hk H]].
    apply bind_Ok in H. destruct H as [[tr1 w2] [Htr H]].
    apply bind_Ok in H. destruct H as [[vl1 w3] [Hvl H]].
    apply copy_labels_spec in Htr. apply copy_labels_spec in Hvl. subst tr1 vl1.
    intros Ht Hv. eapply IH; [exact H| |].
    + apply Forall_app. split; [done|]. apply Forall_map.
      eapply Forall_impl; [by apply Forall_take|]. intros p. by apply into_resolved.
    + apply Forall_app. split; [done|]. apply Forall_map.
      eapply Forall_impl; [by apply Forall_drop|]. intros p. by apply into_resolved.
Qed.

Lemma create_url_dataset_pairs imagesets annotation_files output_dir base_url_template
    class_mapping split_ratio verify_urls g w d g' w' :
  UrlYoloConverter.create_url_dataset urlopen yaml_images rng shuffle abspath yaml_dump
    format_id imagesets annotation_files output_dir base_url_template class_mapping
    split_ratio verify_urls g w = Ok (d, g', w') ->
  Forall (resolved_pair urlopen format_id base_url_template imagesets verify_urls
            (Text.join (Text.join output_dir "labels") "train"))
    (UrlYoloConverter.train_data d) /\
  Forall (resolved_pair urlopen format_id base_url_template imagesets verify_urls
            (Text.join (Text.join output_dir "labels") "val"))
    (UrlYoloConverter.val_data d).
Proof.
  unfold UrlYoloConverter.create_url_dataset. intros H.
  apply bind_Ok in H. destruct H as [[[[[tr vl] bs] g1] w1] [Hrun H]].
  injection H as <- _ _. cbn [UrlYoloConverter.train_data UrlYoloConverter.val_data].
  eapply (split_imagesets_pairs imagesets); [done|exact Hrun|constructor|constructor].
Qed.

End PairShape.

(** X15. Every pair of the train list of [create_url_dataset] couples
    the URL of an image of one of the imagesets - its base URL without
    trailing slashes, [/image-], the digits of the image number and an
    ending of [get_actual_image_url] - with the label file
    [labels/train/image-<digits>.txt] of the output directory, and
    likewise the val list with [labels/val]; with [verify_urls], the URL
    was answered with status 200.  The label file is named after the
    image number alone, whatever the imageset. *)
Theorem pairs_name_one_image
    (urlopen : string -> option (Z * string))
    (yaml_images : string -> result (list UrlYoloConverter.img_entry))
    (rng : Type)
    (shuffle : rng -> list (string * string) -> list (string * string) * rng)
    (abspath : string -> string)
    (yaml_dump : UrlYoloConverter.dataset_yaml -> string)
    (format_id : string -> string -> string)
    (imagesets : list string) (annotation_files : gmap string string)
    (output_dir base_url_template : string) (class_mapping : option (gmap Z Z))
    (split_ratio : spec_float) (verify_urls : bool) (g g' : rng) (w w' : world)
    (d : UrlYoloConverter.dataset) :
  (forall g l, (shuffle g l).1 ≡ₚ l) ->
  UrlYoloConverter.create_url_dataset urlopen yaml_images rng shuffle abspath yaml_dump
    format_id imagesets annotation_files output_dir base_url_template class_mapping
    split_ratio verify_urls g w = Ok (d, g', w') ->
  Forall (resolved_pair urlopen format_id base_url_template imagesets verify_urls
            (Text.join (Text.join output_dir "labels") "train"))
    (UrlYoloConverter.train_data d) /\
  Forall (resolved_pair urlopen format_id base_url_template imagesets verify_urls
            (Text.join (Text.join output_dir "labels") "val"))
    (UrlYoloConverter.val_data d).
Proof.
  intros Hshuffle Hrun.
  exact (create_url_dataset_pairs _ _ _ _ _ _ _ Hshuffle _ _ _ _ _ _ _ _ _ _ _ _ Hrun).
Qed.

Lemma pairs_name_one_image_witness :
  exists d w',
    TwoImagesets.run TwoImagesets.half = Ok (d, tt, w') /\
    Forall (resolved_pair TwoImagesets.urlopen TwoImagesets.format_id "https://host/images/1_"
              ["145"; "146"] false (Text.join (Text.join "out" "labels") "val"))
      (UrlYoloConverter.val_data d).
Proof.
  eexists _, _. split; [vm_compute; reflexivity|].
  refine (proj2 (pairs_name_one_image TwoImagesets.urlopen TwoImagesets.yaml_images unit
                   TwoImagesets.shuffle (fun p => p) (fun _ => "") TwoImagesets.format_id
                   ["145"; "146"] TwoImagesets.annotation_files "out" "https://host/images/1_"
                   None TwoImagesets.half false tt tt TwoImagesets.start _ _
                   (fun g l => reflexivity _) _)).
  vm_compute. reflexivity.
Defined.

(** ** The URL lists, written and read *)

Lemma strip_line (url : string) :
  starts_clean url = true -> ends_clean url = true ->
  Text.strip (url +:+ String "010" "") = url.
Proof.
  intros Hs He. destruct url as [|c url]; [reflexivity|].
  pose proof (strip_padded "" (String c url) (String "010" "") eq_refl eq_refl) as H.
  apply H; done.
Qed.

Lemma read_url_lines (data : list (string * string)) :
  Forall (fun url => clean_url url = true) data.*1 ->
  map Text.strip (Text.file_lines (UrlYoloConverter.url_lines data)) = data.*1.
Proof.
  intros Hclean. unfold UrlYoloConverter.url_lines.
  rewrite file_lines_concat.
  - induction data as [|[url label] data IH]; [reflexivity|].
    cbn [map fmap list_fmap fst] in *. apply Forall_cons in Hclean as [Hu Hclean].
    unfold clean_url in Hu. apply andb_prop in Hu as [[_ Hs]%andb_prop He].
    f_equal; [by apply strip_line|by apply IH].
  - induction data as [|[url label] data IH]; [constructor|].
    cbn [map fmap list_fmap fst] in *. apply Forall_cons in Hclean as [Hu Hclean].
    constructor; [|by apply IH].
    unfold clean_url in Hu. apply andb_prop in Hu as [[Hn _]%andb_prop _].
    by exists url.
Qed.

Lemma rstrip_by_prefix (p : ascii -> bool) (s : string) :
  exists z, s = Text.rstrip_by p s +:+ z.
Proof.
  induction s as [|c s [z IH]]; [by exists ""|]. simpl.
  destruct (Text.is_empty (Text.rstrip_by p s) && p c).
  - by exists (String c s).
  - exists z. simpl. by rewrite <- IH.
Qed.

Lemma ending_clean (tail : string) :
  url_ending tail ->
  tail <> "" /\ Text.all_chars (fun c => negb (is_newline c)) tail = true /\
  ends_clean tail = true.
Proof.
  intros [-> | [-> | [-> | (sfx & Hne & Hal & ->)]]]; try by repeat split.
  split; [done|]. split.
  - simpl. rewrite all_chars_app. apply andb_true_iff. split; [|reflexivity].
    revert Hal. apply all_chars_impl. intros c Hc.
    pose proof (alnum_not_separator c Hc) as H. apply negb_true_iff in H.
    apply orb_false_iff in H as [_ H]. by rewrite H.
  - unfold ends_clean. change ("_" +:+ sfx +:+ ".jpg") with (("_" +:+ sfx) +:+ ".jpg").
    by rewrite last_char_app.
Qed.

Lemma resolved_pair_clean (urlopen : string -> option (Z * string))
    (format_id : string -> string -> string) (base_url_template : string)
    (imagesets : list string) (verify_urls : bool) (labels_dir : string)
    (p : string * string) :
  (forall imageset_id, imageset_id ∈ imagesets ->
     clean_url (format_id base_url_template imageset_id +:+ "/") = true) ->
  resolved_pair urlopen format_id base_url_template imagesets verify_urls labels_dir p ->
  clean_url p.1 = true.
Proof.
  intros Hbase (i & n & tail & Hi & Hn & Htail & -> & _).
  specialize (Hbase i Hi). unfold clean_url in *.
  apply andb_prop in Hbase as [[Hnl Hs]%andb_prop _].
  destruct (rstrip_by_prefix (Text.is_char "/") (format_id base_url_template i)) as [z Hz].
  set (b := Text.rstrip_by (Text.is_char "/") (format_id base_url_template i)) in *.
  rewrite Hz in Hnl, Hs. rewrite !all_chars_app in Hnl.
  apply andb_prop in Hnl as [[Hb _]%andb_prop _].
  destruct (ending_clean tail Htail) as (Hne & Htnl & Hte).
  destruct (number_field n Hn) as (Hnsep & _ & _).
  apply andb_true_iff. split; [apply andb_true_iff; split|].
  - rewrite !all_chars_app, Hb, Htnl, (no_separator_newline _ Hnsep). reflexivity.
  - destruct b; [reflexivity|exact Hs].
  - unfold ends_clean in *.
    replace (b +:+ "/image-" +:+ n +:+ tail) with ((b +:+ "/image-" +:+ n) +:+ tail)
      by (by rewrite !append_assoc).
    by rewrite last_char_app.
Qed.

(** X16. [download_images] reads back what [create_url_dataset] wrote:
    when the dataset is built in [datasets/url_dataset] and the base
    URLs of the imagesets hold no line break and do not start with white
    space, the URLs that [download_images] reads from [train.txt] and
    [val.txt] are the URLs of the train and the val list, each as it was
    resolved and in the order of the list. *)
Theorem url_lists_are_read_back
    (urlopen : string -> option (Z * string))
    (yaml_images : string -> result (list UrlYoloConverter.img_entry))
    (rng : Type)
    (shuffle : rng -> list (string * string) -> list (string * string) * rng)
    (abspath : string -> string)
    (yaml_dump : UrlYoloConverter.dataset_yaml -> string)
    (format_id : string -> string -> string)
    (imagesets : list string) (annotation_files : gmap string string)
    (base_url_template : string) (class_mapping : option (gmap Z Z))
    (split_ratio : spec_float) (verify_urls : bool) (g g' : rng) (w w' : world)
    (d : UrlYoloConverter.dataset) :
  (forall g l, (shuffle g l).1 ≡ₚ l) ->
  (forall imageset_id, imageset_id ∈ imagesets ->
     clean_url (format_id base_url_template imageset_id +:+ "/") = true) ->
  UrlYoloConverter.create_url_dataset urlopen yaml_images rng shuffle abspath yaml_dump
    format_id imagesets annotation_files Download.dataset_dir base_url_template class_mapping
    split_ratio verify_urls g w = Ok (d, g', w') ->
  Download.prepare "train" w'
    = Ok ((UrlYoloConverter.train_data d).*1, makedirs (Download.image_dir_of "train") w') /\
  Download.prepare "val" w'
    = Ok ((UrlYoloConverter.val_data d).*1, makedirs (Download.image_dir_of "val") w').
Proof.
  intros Hshuffle Hbase Hrun.
  destruct (create_url_dataset_pairs _ _ _ _ _ _ _ Hshuffle _ _ _ _ _ _ _ _ _ _ _ _ Hrun)
    as [Hpt Hpv].
  destruct (create_url_dataset_files _ _ _ _ _ _ _ Hshuffle _ _ _ _ _ _ _ _ _ _ _ _ Hrun)
    as (Htrain & Hval & _).
  assert (forall labels_dir data,
            Forall (resolved_pair urlopen format_id base_url_template imagesets verify_urls
                      labels_dir) data ->
            Forall (fun url => clean_url url = true) data.*1) as Hclean.
  { intros labels_dir data Hdata. apply Forall_fmap.
    eapply Forall_impl; [exact Hdata|]. intros p. by apply resolved_pair_clean. }
  unfold Download.prepare. cbn [makedirs files].
  change (Text.join Download.dataset_dir ("train" +:+ ".txt"))
    with (Text.join Download.dataset_dir "train.txt").
  change (Text.join Download.dataset_dir ("val" +:+ ".txt"))
    with (Text.join Download.dataset_dir "val.txt").
  rewrite Htrain, Hval.
  rewrite !read_url_lines by (by eapply Hclean). done.
Qed.

Lemma url_lists_are_read_back_witness :
  exists d w',
    UrlYoloConverter.create_url_dataset TwoImagesets.urlopen TwoImagesets.yaml_images unit
      TwoImagesets.shuffle (fun p => p) (fun _ => "") TwoImagesets.format_id
      ["145"; "146"] TwoImagesets.annotation_files Download.dataset_dir
      "https://host/images/1_" None TwoImagesets.half false tt TwoImagesets.start
      = Ok (d, tt, w') /\
    (UrlYoloConverter.val_data d).*1
      = ["https://host/images/1_145/image-0000601.jpg";
         "https://host/images/1_146/image-0000602.jpg"] /\
    Download.prepare "val" w'
      = Ok ((UrlYoloConverter.val_data d).*1, makedirs (Download.image_dir_of "val") w').
Proof.
  eexists _, _. split; [vm_compute; reflexivity|]. split; [vm_compute; reflexivity|].
  refine (proj2 (url_lists_are_read_back TwoImagesets.urlopen TwoImagesets.yaml_images
                   unit TwoImagesets.shuffle (fun p => p) (fun _ => "") TwoImagesets.format_id
                   ["145"; "146"] TwoImagesets.annotation_files
                   "https://host/images/1_" None TwoImagesets.half false tt tt
                   TwoImagesets.start _ _ (fun g l => reflexivity _) _ _)).
  - intros imageset_id Hin.
    repeat (apply elem_of_cons in Hin as [->|Hin]; [reflexivity|]).
    by apply elem_of_nil in Hin.
  - vm_compute. reflexivity.
Defined.

Example splitlines_sample :
  splitlines ("ab" +:+ nl +:+ nl +:+ "cd" +:+ String "013" nl +:+ "ef" +:+ nl)
  = ["ab"; ""; "cd"; "ef"] /\ splitlines "" = [].
Proof. split; reflexivity. Qed.

Example endswith_sample :
  UrlUpdater.endswith ".txt" "image-1.txt" = true /\
  UrlUpdater.endswith ".txt" "image-1.txt.bak" = false /\
  UrlUpdater.endswith ".txt" ".txt" = true /\ UrlUpdater.endswith ".txt" "txt" = false.
Proof. repeat split. Qed.

(** ** Renaming the label files *)

Section RenameFacts.

Lemma span_app (cls : ascii -> bool) (a rest : string) :
  Text.all_chars cls a = true ->
  match rest with String c _ => cls c = false | "" => True end ->
  Re.span cls (a +:+ rest) = (a, rest).
Proof.
  intros Ha Hrest. induction a as [|c a IH]; simpl in *.
  - destruct rest as [|c rest]; [done|]. simpl. by rewrite Hrest.
  - apply andb_prop in Ha as [-> Ha]. by rewrite IH.
Qed.

Lemma cuts_head (a b : string) : exists l, Re.cuts a b = (a, b) :: l.
Proof.
  induction a as [|c a [l IH]]; simpl; [by exists []|].
  rewrite IH. simpl. by eexists.
Qed.

(** A run of a class followed by a character outside of it is taken
    whole, when what follows matches. *)
Lemma match_plus (cls : ascii -> bool) (p : list Re.item) (a rest : string)
    (segs : list string) (rest' : string) :
  a <> "" -> Text.all_chars cls a = true ->
  match rest with String c _ => cls c = false | "" => True end ->
  Re.match_items p rest = Some (segs, rest') ->
  Re.match_items (Re.Plus cls :: p) (a +:+ rest) = Some (a :: segs, rest').
Proof.
  intros Hne Ha Hrest Hm. cbn [Re.match_items Re.choices].
  rewrite (span_app cls a rest Ha Hrest).
  destruct (cuts_head a rest) as [l ->].
  rewrite filter_cons_True by (by destruct a).
  cbn [Re.first_match fst snd]. rewrite Hm. reflexivity.
Qed.

Lemma match_label (n tail : string) :
  is_number n = true ->
  Re.match_items (Re.items UrlUpdater.label_pattern) ("image-" +:+ n +:+ ".txt" +:+ tail)
  = Some (["image-"; n; ".txt"], tail).
Proof.
  unfold is_number. intros [Hne Hd]%andb_prop.
  unfold UrlUpdater.label_pattern, Re.items.
  change (Re.match_items (Re.Lit "image-" :: ?p) ("image-" +:+ ?s))
    with (Re.first_match
            (fun xy : string * string =>
               '(segs, rest) ← Re.match_items p xy.2; Some (xy.1 :: segs, rest))
            [("image-", s)]).
  cbn [Re.first_match fst snd].
  rewrite (match_plus Text.is_digit [Re.Lit ".txt"] n (".txt" +:+ tail) [".txt"] tail);
    [reflexivity| |done|reflexivity|reflexivity].
  intros ->. discriminate.
Qed.

Lemma label_match_inv (label_file : string) (segs : list string) (rest : string) :
  Re.match_items (Re.items UrlUpdater.label_pattern) label_file = Some (segs, rest) ->
  exists n, is_number n = true /\ segs = ["image-"; n; ".txt"] /\
            label_file = "image-" +:+ n +:+ ".txt" +:+ rest.
Proof.
  intros Hm. pose proof (match_items_sound _ _ _ _ Hm) as Hs.
  unfold UrlUpdater.label_pattern, Re.items in Hm.
  apply match_items_cons in Hm as (g1 & r1 & segs1 & H1 & Hm & ->).
  apply match_items_cons in Hm as (g2 & r2 & segs2 & H2 & Hm & ->).
  apply match_items_cons in Hm as (g3 & r3 & segs3 & H3 & Hm & ->).
  injection Hm as <- _.
  apply choices_lit in H1 as ->. apply choices_lit in H3 as ->.
  apply choices_digits in H2.
  exists g2. repeat split; try done.
  rewrite Hs. cbn [Re.concat_str]. by rewrite !append_assoc.
Qed.

Lemma new_filename_rule (url_map : gmap string string) (label_file new : string) :
  UrlUpdater.new_filename url_map label_file = Some new <->
  exists n tail random_chars,
    is_number n = true /\ label_file = "image-" +:+ n +:+ ".txt" +:+ tail /\
    url_map !! n = Some random_chars /\
    new = "image-" +:+ n +:+ "_" +:+ random_chars +:+ ".txt".
Proof.
  unfold UrlUpdater.new_filename, UrlUpdater.re_match. split.
  - destruct (Re.match_items (Re.items UrlUpdater.label_pattern) label_file)
      as [[segs rest]|] eqn:Hm; cbn [mbind option_bind]; [|discriminate].
    apply label_match_inv in Hm as (n & Hn & -> & ->).
    unfold Re.groups_of. cbn [UrlUpdater.label_pattern Re.captures map drop take Re.concat_str].
    rewrite append_nil_r.
    destruct (url_map !! n) as [s|] eqn:Hs; cbn [mbind option_bind]; [|discriminate].
    intros [= <-]. by exists n, rest, s.
  - intros (n & tail & s & Hn & -> & Hs & ->).
    rewrite (match_label n tail Hn). cbn [mbind option_bind].
    unfold Re.groups_of. cbn [UrlUpdater.label_pattern Re.captures map drop take Re.concat_str].
    rewrite append_nil_r, Hs. reflexivity.
Qed.

End RenameFacts.

(** X17. A label file is renamed exactly when its name starts with
    [image-], digits and [.txt] and the URL file gives a suffix for
    these digits; its new name is [image-<digits>_<suffix>.txt].  The
    pattern is matched at the start of the name only, so whatever follows
    the first [.txt] in the name is not in the new name. *)
Theorem label_rename_rule (url_map : gmap string string) (label_file new : string) :
  UrlUpdater.new_filename url_map label_file = Some new <->
  exists n tail random_chars,
    is_number n = true /\ label_file = "image-" +:+ n +:+ ".txt" +:+ tail /\
    url_map !! n = Some random_chars /\
    new = "image-" +:+ n +:+ "_" +:+ random_chars +:+ ".txt".
Proof. apply new_filename_rule. Qed.

Lemma label_rename_rule_witness :
  UrlUpdater.new_filename {[ "0000601" := "EGD3NF" ]} "image-0000601.txt.bak.txt"
  = Some "image-0000601_EGD3NF.txt".
Proof.
  apply (proj2 (label_rename_rule {[ "0000601" := "EGD3NF" ]} "image-0000601.txt.bak.txt"
                  "image-0000601_EGD3NF.txt")).
  exists "0000601", ".bak.txt", "EGD3NF". repeat split.
Defined.

(** ** The suffix of an image number *)

Lemma add_url_cases (url_map : gmap string string) (url : string) :
  (exists n s, names_image url n s /\ UrlUpdater.add_url url_map url = <[n := s]> url_map) \/
  ((forall n s, ~ names_image url n s) /\ UrlUpdater.add_url url_map url = url_map).
Proof.
  unfold UrlUpdater.add_url, names_image.
  destruct (Re.search UrlUpdater.url_pattern url) as [[[pre gs] rest]|];
    [|right; split; [intros n s (? & ? & ? & ?); discriminate|done]].
  destruct gs as [|whole [|n [|s [|? ?]]]];
    try (right; split; [intros ? ? (? & ? & ? & ?); discriminate|done]).
  left. exists n, s. split; [by exists pre, whole, rest|done].
Qed.

Lemma names_image_unique (url n s n' s' : string) :
  names_image url n s -> names_image url n' s' -> n = n' /\ s = s'.
Proof. intros (? & ? & ? & H) (? & ? & ? & H'). rewrite H in H'. by injection H' as _ _ <- <- _. Qed.

Lemma url_map_later (later : list string) (n : string) :
  (forall u s, u ∈ later -> ~ names_image u n s) ->
  forall url_map, fold_left UrlUpdater.add_url later url_map !! n = url_map !! n.
Proof.
  induction later as [|u later IH]; intros Hlater url_map; [done|]. cbn [fold_left].
  rewrite IH by (intros u' s' Hu'; apply Hlater; by apply list_elem_of_further).
  destruct (add_url_cases url_map u) as [(n' & s' & Hu & ->)|[_ ->]]; [|done].
  apply lookup_insert_ne. intros <-. by apply (Hlater u s' (list_elem_of_here _ _)).
Qed.

(** X18. When several URLs of the file name the same image number, the
    last of them decides the suffix that the label file is given. *)
Theorem last_url_decides_suffix (earlier later : list string) (url n s : string) :
  names_image url n s ->
  (forall u s', u ∈ later -> ~ names_image u n s') ->
  fold_left UrlUpdater.add_url (earlier ++ url :: later)%list ∅ !! n = Some s.
Proof.
  intros Hurl Hlater. rewrite fold_left_app. cbn [fold_left].
  rewrite (url_map_later later n Hlater).
  destruct (add_url_cases (fold_left UrlUpdater.add_url earlier ∅) url)
    as [(n' & s' & Hu & ->)|[Hno _]]; [|by destruct (Hno n s)].
  destruct (names_image_unique _ _ _ _ _ Hurl Hu) as [<- <-]. apply lookup_insert_eq.
Qed.

Lemma last_url_decides_suffix_witness :
  fold_left UrlUpdater.add_url
    (["https://host/images/1_145/image-0000601_AAAAAA.jpg"] ++
     "https://host/images/1_146/image-0000601_BBBBBB.jpg" ::
     ["https://host/images/1_146/image-0000602_CCCCCC.jpg"])%list ∅ !! "0000601"
  = Some "BBBBBB".
Proof.
  apply last_url_decides_suffix.
  - exists "https://host/images/1_146/", "image-0000601_BBBBBB.jpg", "". reflexivity.
  - intros u s' Hu (pre & whole & rest & H).
    apply list_elem_of_singleton in Hu as ->. vm_compute in H. discriminate.
Defined.

(** ** The label files after the run *)

Section MoveFacts.

Lemma move_files (src dst content : string) (w : world) :
  files w !! src = Some content ->
  files (move src dst w) = <[dst := content]> (delete src (files w)).
Proof. intros H. unfold move. by rewrite H. Qed.

(** Files moved one after the other, no source being a destination. *)
Lemma moves_spec (w0 : world) (pairs : list (string * string)) :
  NoDup pairs.*1 ->
  (forall s d, s ∈ pairs.*1 -> d ∈ pairs.*2 -> s <> d) ->
  (forall s, s ∈ pairs.*1 -> is_Some (files w0 !! s)) ->
  forall p,
    let w' := fold_left (fun w sd => move sd.1 sd.2 w) pairs w0 in
    (p ∈ pairs.*1 -> files w' !! p = None) /\
    (p ∈ pairs.*2 -> exists s, (s, p) ∈ pairs /\ files w' !! p = files w0 !! s) /\
    (p ∉ pairs.*1 -> p ∉ pairs.*2 -> files w' !! p = files w0 !! p).
Proof.
  induction pairs as [|[src dst] pairs IH] using rev_ind; intros Hnd Hdisj Hex p.
  - cbn. repeat split; try done; by intros ?%elem_of_nil.
  - rewrite fmap_app in Hnd. cbn [fmap list_fmap fst] in Hnd.
    apply NoDup_app in Hnd as (Hnd & Hsrc & _).
    assert (src ∉ pairs.*1) as Hfresh
      by (intros Hin; apply (Hsrc src Hin), list_elem_of_here).
    assert (forall s d, s ∈ pairs.*1 -> d ∈ pairs.*2 -> s <> d) as Hdisj'.
    { intros s d Hs Hd. apply Hdisj; rewrite fmap_app; apply elem_of_app; by left. }
    assert (forall s, s ∈ pairs.*1 -> is_Some (files w0 !! s)) as Hex'.
    { intros s Hs. apply Hex. rewrite fmap_app. apply elem_of_app. by left. }
    assert (src ∉ pairs.*2) as Hsd.
    { intros Hin. apply (Hdisj src src);
        [rewrite fmap_app; apply elem_of_app; right; apply list_elem_of_here
        |rewrite fmap_app; apply elem_of_app; by left
        |done]. }
    assert (forall s, s ∈ pairs.*1 -> s <> dst) as Hnotdst.
    { intros s Hs. apply Hdisj; rewrite fmap_app; apply elem_of_app;
        [by left|right; apply list_elem_of_here]. }
    assert (src <> dst) as Hne.
    { apply Hdisj; rewrite fmap_app; apply elem_of_app; right; apply list_elem_of_here. }
    specialize (IH Hnd Hdisj' Hex').
    cbv zeta. rewrite fold_left_app. cbn [fold_left fst snd].
    set (w1 := fold_left (fun w sd => move sd.1 sd.2 w) pairs w0) in *.
    destruct (IH src) as (_ & _ & Hsame). specialize (Hsame Hfresh Hsd).
    destruct (Hex src) as [content Hcontent].
    { rewrite fmap_app. apply elem_of_app. right. apply list_elem_of_here. }
    rewrite Hcontent in Hsame. rewrite (move_files _ _ _ _ Hsame).
    destruct (IH p) as (H1 & H2 & H3).
    rewrite !fmap_app. cbn [fmap list_fmap fst snd]. repeat split.
    + intros [Hin | ->%list_elem_of_singleton]%elem_of_app.
      * rewrite lookup_insert_ne by (intros Heq; exact (Hnotdst p Hin (eq_sym Heq))).
        rewrite lookup_delete_ne by (intros Heq; apply Hfresh; by rewrite Heq).
        by apply H1.
      * rewrite lookup_insert_ne by done. apply lookup_delete_eq.
    + intros Hin. destruct (decide (p = dst)) as [->|Hpd].
      * exists src. split; [apply elem_of_app; right; apply list_elem_of_here|].
        by rewrite lookup_insert_eq.
      * apply elem_of_app in Hin as [Hin | Hin%list_elem_of_singleton]; [|done].
        destruct (H2 Hin) as (s & Hs & Hp). exists s. split; [apply elem_of_app; by left|].
        rewrite lookup_insert_ne by done.
        rewrite lookup_delete_ne; [done|]. intros Heq. apply Hsd. by rewrite Heq.
    + intros Hp1 Hp2.
      rewrite lookup_insert_ne
        by (intros Heq; apply Hp2, elem_of_app; right; rewrite Heq; apply list_elem_of_here).
      rewrite lookup_delete_ne
        by (intros Heq; apply Hp1, elem_of_app; right; rewrite Heq; apply list_elem_of_here).
      apply H3; [intros ?; apply Hp1|intros ?; apply Hp2]; apply elem_of_app; by left.
Qed.

End MoveFacts.

Section LabelFacts.

Variable abspath : string -> string.
Variable listdir : string -> world -> result (list string).
Variable rename : string -> string -> world -> option world.

Variable label_dir : string.
Variable url_map : gmap string string.

Lemma renamed_not_absolute (f new : string) :
  UrlUpdater.new_filename url_map f = Some new ->
  Text.startswith "/" f = false /\ Text.startswith "/" new = false.
Proof. intros (n & tail & s & _ & -> & _ & ->)%new_filename_rule. done. Qed.

(** The new name of a label file is not the name of a label file that is
    renamed. *)
Lemma new_name_not_renamed (f new f' new' : string) :
  UrlUpdater.new_filename url_map f = Some new ->
  UrlUpdater.new_filename url_map f' = Some new' ->
  f <> new'.
Proof.
  intros (n & tail & s & Hn & -> & _ & _)%new_filename_rule
         (n' & tail' & s' & Hn' & _ & _ & ->)%new_filename_rule.
  intros [= Heq].
  unfold is_number in Hn, Hn'. apply andb_prop in Hn as [_ Hn], Hn' as [_ Hn'].
  pose proof (span_app Text.is_digit n (".txt" +:+ tail) Hn eq_refl) as H1.
  pose proof (span_app Text.is_digit n' ("_" +:+ s' +:+ ".txt") Hn' eq_refl) as H2.
  cbn [append] in H1, H2, Heq. rewrite Heq, H2 in H1. by injection H1 as _ H1.
Qed.

Lemma label_moves_elem (labels : list string) (s d : string) :
  (s, d) ∈ label_moves label_dir url_map labels <->
  exists f new, f ∈ labels /\ UrlUpdater.new_filename url_map f = Some new /\
                s = Text.join label_dir f /\ d = Text.join label_dir new.
Proof.
  unfold label_moves. rewrite list_elem_of_omap. split.
  - intros (f & Hf & H). destruct (UrlUpdater.new_filename url_map f) as [new|] eqn:Hnew;
      cbn [mbind option_bind] in H; [|discriminate].
    injection H as <- <-. by exists f, new.
  - intros (f & new & Hf & Hnew & -> & ->). exists f. split; [done|]. by rewrite Hnew.
Qed.

Lemma label_moves_sources (labels : list string) (s : string) :
  s ∈ (label_moves label_dir url_map labels).*1 <->
  exists f new, f ∈ labels /\ UrlUpdater.new_filename url_map f = Some new /\
                s = Text.join label_dir f.
Proof.
  rewrite list_elem_of_fmap. split.
  - intros ([s' d] & -> & (f & new & Hf & Hnew & -> & _)%label_moves_elem). by exists f, new.
  - intros (f & new & Hf & Hnew & ->).
    exists (Text.join label_dir f, Text.join label_dir new). split; [done|].
    apply label_moves_elem. by exists f, new.
Qed.

Lemma label_moves_targets (labels : list string) (d : string) :
  d ∈ (label_moves label_dir url_map labels).*2 <->
  exists f new, f ∈ labels /\ UrlUpdater.new_filename url_map f = Some new /\
                d = Text.join label_dir new.
Proof.
  rewrite list_elem_of_fmap. split.
  - intros ([s d'] & -> & (f & new & Hf & Hnew & _ & ->)%label_moves_elem). by exists f, new.
  - intros (f & new & Hf & Hnew & ->).
    exists (Text.join label_dir f, Text.join label_dir new). split; [done|].
    apply label_moves_elem. by exists f, new.
Qed.

Lemma label_moves_disjoint (labels : list string) (s d : string) :
  s ∈ (label_moves label_dir url_map labels).*1 ->
  d ∈ (label_moves label_dir url_map labels).*2 -> s <> d.
Proof.
  intros (f & new & _ & Hnew & ->)%label_moves_sources
         (f' & new' & _ & Hnew' & ->)%label_moves_targets.
  destruct (renamed_not_absolute _ _ Hnew) as [Hf _].
  destruct (renamed_not_absolute _ _ Hnew') as [_ Hn'].
  apply list_paths_differ; try done. by eapply new_name_not_renamed.
Qed.

Lemma label_moves_app (l1 l2 : list string) :
  label_moves label_dir url_map (l1 ++ l2)
  = (label_moves label_dir url_map l1 ++ label_moves label_dir url_map l2)%list.
Proof. unfold label_moves. apply omap_app. Qed.

Lemma label_moves_single (f : string) :
  label_moves label_dir url_map [f] =
    match UrlUpdater.new_filename url_map f with
    | Some new => [(Text.join label_dir f, Text.join label_dir new)]
    | None => []
    end.
Proof. unfold label_moves. cbn. by destruct (UrlUpdater.new_filename url_map f). Qed.

Lemma label_moves_NoDup (labels : list string) :
  NoDup labels -> NoDup (label_moves label_dir url_map labels).*1.
Proof.
  induction labels as [|f labels IH] using rev_ind; intros Hnd; [constructor|].
  apply NoDup_app in Hnd as (Hnd & Hf & _).
  rewrite label_moves_app, fmap_app. apply NoDup_app. split; [by apply IH|]. split.
  - intros s (f1 & new1 & Hf1 & Hnew1 & ->)%label_moves_sources
             (f2 & new2 & Hf2 & Hnew2 & Heq)%label_moves_sources.
    apply list_elem_of_singleton in Hf2 as ->.
    destruct (renamed_not_absolute _ _ Hnew1) as [Ha _].
    destruct (renamed_not_absolute _ _ Hnew2) as [Hb _].
    destruct (decide (f1 = f)) as [->|Hne].
    + apply (Hf f Hf1), list_elem_of_here.
    + by apply (list_paths_differ label_dir f1 f Ha Hb Hne).
  - unfold label_moves. cbn [omap list_omap].
    destruct (UrlUpdater.new_filename url_map f); cbn; repeat constructor.
    by intros ?%elem_of_nil.
Qed.

(** The loop over the label files moves the files of [label_moves], in
    the order of the list. *)
Lemma rename_labels_moves (w0 : world) (labels : list string) :
  renames_files rename -> NoDup labels ->
  (forall f new, f ∈ labels -> UrlUpdater.new_filename url_map f = Some new ->
                 is_Some (files w0 !! Text.join label_dir f)) ->
  fold_left (UrlUpdater.rename_label rename label_dir url_map) labels (O, w0)
  = (length (label_moves label_dir url_map labels),
     fold_left (fun w sd => move sd.1 sd.2 w) (label_moves label_dir url_map labels) w0).
Proof.
  intros Hrename. induction labels as [|f labels IH] using rev_ind; intros Hnd Hex; [done|].
  pose proof Hnd as Hnd'. apply NoDup_app in Hnd' as (Hnd' & Hf & _).
  rewrite fold_left_app, IH;
    [|done|intros f' new Hf'; apply Hex, elem_of_app; by left].
  rewrite label_moves_app, fold_left_app, length_app.
  cbn [fold_left]. unfold UrlUpdater.rename_label at 1.
  rewrite !label_moves_single. cbn [fst snd].
  destruct (UrlUpdater.new_filename url_map f) as [new|] eqn:Hnew;
    cbn [fold_left length]; [|by rewrite Nat.add_0_r].
  set (w1 := fold_left (fun w sd => move sd.1 sd.2 w) (label_moves label_dir url_map labels) w0).
  destruct (moves_spec w0 (label_moves label_dir url_map labels)
              (label_moves_NoDup labels Hnd') (label_moves_disjoint labels)) with
    (p := Text.join label_dir f) as (_ & _ & Hsame).
  { intros s (f' & new' & Hf' & Hnew' & ->)%label_moves_sources.
    eapply Hex; [apply elem_of_app; by left|done]. }
  fold w1 in Hsame.
  destruct (Hex f new) as [content Hcontent];
    [apply elem_of_app; right; apply list_elem_of_here|done|].
  rewrite Hcontent in Hsame.
  rewrite (Hrename _ (Text.join label_dir new) w1 content).
  - cbn [fst snd]. f_equal. lia.
  - apply Hsame.
    + intros (f' & new' & Hf' & Hnew' & Heq)%label_moves_sources.
      destruct (renamed_not_absolute _ _ Hnew) as [Ha _].
      destruct (renamed_not_absolute _ _ Hnew') as [Hb _].
      destruct (decide (f = f')) as [<-|Hne].
      * apply (Hf f Hf'), list_elem_of_here.
      * by apply (list_paths_differ label_dir f f' Ha Hb Hne).
    + intros (f' & new' & Hf' & Hnew' & Heq)%label_moves_targets.
      destruct (renamed_not_absolute _ _ Hnew) as [Ha _].
      destruct (renamed_not_absolute _ _ Hnew') as [_ Hb].
      apply (list_paths_differ label_dir f new' Ha Hb); [|done].
      by eapply new_name_not_renamed.
Qed.

End LabelFacts.

(** X19. [update_label_files] with a URL file that is there, a label
    directory whose names [os.listdir] gives each once and in any order,
    the label files to rename being there, and [os.rename] moving a
    file: every label file whose name ends with
    [.txt] and has a new name is gone from its old path, its new path
    holds the content of a label file that was given this new name, every
    other file is as it was, and the number of files renamed is the
    number of these label files. *)
Theorem labels_follow_urls
    (abspath : string -> string)
    (listdir : string -> world -> result (list string))
    (rename : string -> string -> world -> option world)
    (url_file label_dir : string) (w : world) (content : string) (names : list string) :
  let dir := abspath label_dir in
  let url_map := fold_left UrlUpdater.add_url (splitlines content) ∅ in
  let labels := filter (fun f => UrlUpdater.endswith ".txt" f = true) names in
  renames_files rename ->
  files w !! abspath url_file = Some content ->
  exists_path dir w = true ->
  listdir dir w = Ok names -> NoDup names ->
  (forall f new, f ∈ labels -> UrlUpdater.new_filename url_map f = Some new ->
                 is_Some (files w !! Text.join dir f)) ->
  exists w',
    UrlUpdater.update_label_files abspath listdir rename url_file label_dir w
      = Ok (length (label_moves dir url_map labels), w') /\
    (forall f new, f ∈ labels -> UrlUpdater.new_filename url_map f = Some new ->
       files w' !! Text.join dir f = None /\
       exists f', f' ∈ labels /\ UrlUpdater.new_filename url_map f' = Some new /\
                  files w' !! Text.join dir new = files w !! Text.join dir f') /\
    (forall p,
       (forall f new, f ∈ labels -> UrlUpdater.new_filename url_map f = Some new ->
                      p <> Text.join dir f /\ p <> Text.join dir new) ->
       files w' !! p = files w !! p).
Proof.
  intros dir url_map labels Hrename Hfile Hdir Hlist Hnd Hex.
  assert (NoDup labels) as Hnd' by (by apply NoDup_filter).
  eexists. split; [|split].
  - unfold UrlUpdater.update_label_files.
    assert (exists_path (abspath url_file) w = true) as ->.
    { unfold exists_path. rewrite Hfile. reflexivity. }
    fold dir. rewrite Hdir, Hfile. cbn [negb]. rewrite Hlist. cbn [mbind result_bind bind].
    fold url_map labels.
    rewrite (rename_labels_moves rename dir url_map w labels Hrename Hnd' Hex). reflexivity.
  - intros f new Hf Hnew.
    pose proof (moves_spec w (label_moves dir url_map labels)
                  (label_moves_NoDup dir url_map labels Hnd')
                  (label_moves_disjoint dir url_map labels)) as Hspec.
    assert (forall s, s ∈ (label_moves dir url_map labels).*1 -> is_Some (files w !! s)) as Hsrc.
    { intros s (f' & new' & Hf' & Hnew' & ->)%label_moves_sources. by eapply Hex. }
    split.
    + apply (Hspec Hsrc (Text.join dir f)). apply label_moves_sources. by exists f, new.
    + destruct (Hspec Hsrc (Text.join dir new)) as (_ & Htarget & _).
      destruct Htarget as (s & (f' & new' & Hf' & Hnew' & -> & Heq)%label_moves_elem & Hp).
      { apply label_moves_targets. by exists f, new. }
      exists f'. split; [done|]. split; [|done].
      destruct (renamed_not_absolute _ _ _ Hnew) as [_ Ha].
      destruct (renamed_not_absolute _ _ _ Hnew') as [_ Hb].
      destruct (decide (new = new')) as [->|Hne]; [done|].
      by destruct (list_paths_differ dir new new' Ha Hb Hne).
  - intros p Hp.
    pose proof (moves_spec w (label_moves dir url_map labels)
                  (label_moves_NoDup dir url_map labels Hnd')
                  (label_moves_disjoint dir url_map labels)) as Hspec.
    apply Hspec.
    + intros s (f' & new' & Hf' & Hnew' & ->)%label_moves_sources. by eapply Hex.
    + intros (f & new & Hf & Hnew & ->)%label_moves_sources.
      by destruct (Hp f new Hf Hnew).
    + intros (f & new & Hf & Hnew & ->)%label_moves_targets.
      by destruct (Hp f new Hf Hnew).
Qed.

Lemma labels_follow_urls_witness :
  exists w',
    UrlUpdater.update_label_files (fun p => p) list_labels rename_file
      "train.txt" "labels" labelled_world = Ok (1%nat, w') /\
    files w' !! "labels/image-0000601.txt" = None /\
    files w' !! "labels/image-0000602.txt" = Some "1 0.5 0.5 0.1 0.1".
Proof.
  destruct (labels_follow_urls (fun p => p) list_labels rename_file "train.txt" "labels"
              labelled_world
              ("https://host/images/1_145/image-0000601_EGD3NF.jpg" +:+ nl +:+
               "https://host/images/1_145/image-0000602.jpg" +:+ nl)
              ["notes.txt"; "image-0000602.txt"; "image-0000601.txt"])
    as (w' & Hrun & Hrenamed & Hother).
  - intros src dst w content H. unfold rename_file. by rewrite H.
  - reflexivity.
  - reflexivity.
  - reflexivity.
  - compute_done.
  - intros f new Hf Hnew.
    apply list_elem_of_filter in Hf as [_ Hin].
    repeat (apply elem_of_cons in Hin as [->|Hin]; [by (vm_compute in Hnew || eexists)|]).
    by apply elem_of_nil in Hin.
  - exists w'. split; [exact Hrun|]. split.
    + apply (Hrenamed "image-0000601.txt" "image-0000601_EGD3NF.txt").
      * vm_compute. repeat constructor.
      * vm_compute. reflexivity.
    + rewrite (Hother "labels/image-0000602.txt"); [reflexivity|].
      intros f new Hf Hnew.
      apply list_elem_of_filter in Hf as [_ Hin].
      repeat (apply elem_of_cons in Hin as [->|Hin];
              [vm_compute in Hnew; try discriminate; injection Hnew as <-; by split|]).
      by apply elem_of_nil in Hin.
Defined.

(** ** Fetching a few images *)

Section TestDownload.

Variable urlretrieve : string -> option string.
Variable output_dir : string.



End TestDownload.



(** ** The URL file of a run of url-fixer.py *)

Section FixerFiles.

Variable urlopen : string -> option string.
Variable other_escape : nat -> string -> result (list Re.titem).

Lemma scrape_suffixes_files (base_url : string) (cache_file : option string) (w : world)
    (p : string) :
  cache_file <> Some p ->
  files (UrlFixer.scrape_suffixes urlopen base_url cache_file w).2 !! p = files w !! p.
Proof.
  intros Hp. unfold UrlFixer.scrape_suffixes.
  destruct (match Re.search UrlFixer.base_pattern base_url with
            | Some (_, [_; id], _) => _ | _ => _ end) as [ids b].
  destruct (fetch_imagesets_requests urlopen b ids [] w) as (_ & Hf & _).
  destruct (UrlFixer.fetch_imagesets urlopen ids b [] w) as [suffixes w1]. cbn [snd] in Hf.
  destruct (UrlFixer.truthy cache_file) as [c|] eqn:Hc; cbn [snd]; [|by rewrite Hf].
  cbn [write_file files]. rewrite lookup_insert_ne; [by rewrite Hf|].
  intros ->. apply Hp. unfold UrlFixer.truthy in Hc.
  destruct cache_file as [c|]; [|discriminate].
  destruct (Text.is_empty c); [discriminate|]. by injection Hc as ->.
Qed.

Lemma get_image_suffixes_files (base_url : string) (cache_file : option string) (w w1 : world)
    (image_suffixes : list (string * list (string * string))) (p : string) :
  UrlFixer.get_image_suffixes urlopen base_url cache_file w = Ok (image_suffixes, w1) ->
  cache_file <> Some p ->
  files w1 !! p = files w !! p.
Proof.
  intros Hget Hp. unfold UrlFixer.get_image_suffixes in Hget.
  pose proof (scrape_suffixes_files base_url cache_file w p Hp) as Hs.
  destruct (match UrlFixer.truthy cache_file with
            | Some p0 => if exists_path p0 w then Some p0 else None
            | None => None
            end) as [c|].
  - destruct (files w !! c); [|discriminate]. by injection Hget as _ <-.
  - injection Hget as E. by rewrite E in Hs.
Qed.

Lemma append_not_self (s t : string) : t <> "" -> s +:+ t <> s.
Proof.
  intros Ht E. apply (f_equal String.length) in E. rewrite length_append in E.
  destruct t; [done|]. simpl in E. lia.
Qed.

Lemma main_default_output (url_file base_url cache_file : string) (w w' : world) :
  cache_file <> url_file ->
  UrlFixer.main urlopen other_escape url_file None base_url cache_file w = Ok w' ->
  files w' !! url_file = files w !! url_file /\
  (exists content image_suffixes w1 written,
     files w !! url_file = Some content /\
     UrlFixer.get_image_suffixes urlopen base_url (Some cache_file) w
       = Ok (image_suffixes, w1) /\
     UrlFixer.update_lines other_escape image_suffixes (Text.file_lines content)
       = Ok written /\
     files w' !! (url_file +:+ ".new") = Some (Re.concat_str written)) /\
  (forall p, p <> cache_file -> p <> url_file +:+ ".new" -> files w' !! p = files w !! p).
Proof.
  intros Hcache. unfold UrlFixer.main. cbn [UrlFixer.truthy].
  destruct (UrlFixer.get_image_suffixes urlopen base_url (Some cache_file) w)
    as [[image_suffixes w1]|e] eqn:Hget; cbn [mbind result_bind bind]; [|discriminate].
  pose proof (fun p => get_image_suffixes_files _ _ _ _ _ p Hget) as Hfiles.
  unfold UrlFixer.update_urls_in_file.
  destruct (files w1 !! url_file) as [content|] eqn:Hcontent; [|discriminate].
  rewrite bool_decide_eq_false_2 by (intros E; symmetry in E; revert E; by apply append_not_self).
  destruct (UrlFixer.update_lines _ _ _) as [written|e] eqn:Hw; cbn [mbind result_bind bind];
    [|discriminate].
  intros [= <-]. cbn [write_file files]. split; [|split].
  - rewrite lookup_insert_ne by (by apply append_not_self).
    apply Hfiles. by intros [= ->].
  - exists content, image_suffixes, w1, written. repeat split; try done.
    + rewrite <- Hcontent. symmetry. apply Hfiles. by intros [= ->].
    + by rewrite lookup_insert_eq.
  - intros p Hp1 Hp2. rewrite lookup_insert_ne by done. apply Hfiles. by intros [= ->].
Qed.

End FixerFiles.

(** X21. Run without [--output-file], url-fixer.py leaves the URL file
    as it is, when the cache file is another file, and writes the
    updated list to the URL file's name followed by [.new]: that file
    then holds, one after the other, what [update_urls_in_file] writes
    for each line of the URL file with the mapping that
    [get_image_suffixes] returned.  Apart from the new file and the cache
    file no file changes. *)
Theorem default_output_keeps_url_file
    (urlopen : string -> option string)
    (other_escape : nat -> string -> result (list Re.titem))
    (url_file base_url cache_file : string) (w w' : world) :
  cache_file <> url_file ->
  UrlFixer.main urlopen other_escape url_file None base_url cache_file w = Ok w' ->
  files w' !! url_file = files w !! url_file /\
  (exists content image_suffixes w1 written,
     files w !! url_file = Some content /\
     UrlFixer.get_image_suffixes urlopen base_url (Some cache_file) w
       = Ok (image_suffixes, w1) /\
     UrlFixer.update_lines other_escape image_suffixes (Text.file_lines content)
       = Ok written /\
     files w' !! (url_file +:+ ".new") = Some (Re.concat_str written)) /\
  (forall p, p <> cache_file -> p <> url_file +:+ ".new" -> files w' !! p = files w !! p).
Proof. apply main_default_output. Qed.

Lemma default_output_keeps_url_file_witness :
  exists w',
    UrlFixer.main (fun _ => None) no_escape "train.txt" None "https://host/images/"
      "image_suffixes.cache" cached_world = Ok w' /\
    files w' !! "train.txt.new"
      = Some ("https://host/images/1_145/image-0000602.jpg" +:+ nl) /\
    files w' !! "train.txt" = files cached_world !! "train.txt".
Proof.
  eexists. split; [vm_compute; reflexivity|]. split; [vm_compute; reflexivity|].
  refine (proj1 (default_output_keeps_url_file (fun _ => None) no_escape "train.txt"
                   "https://host/images/" "image_suffixes.cache" cached_world _ _ _)).
  - discriminate.
  - vm_compute. reflexivity.
Defined.
